(** * Structural metadata extraction from academic-book PDFs

    A shallow embedding of [main.py] (the [AcademicBookMapper] classifier) and
    [phraseFind2.py] (the chapter locator), together with the backtracking
    semantics of the regular expressions they rely on.

    Python [str] values are modelled as lists of 8-bit characters (code points
    0..255; characters beyond them are outside the model); Python [int]
    values as [Z]. *)

From Stdlib Require Import ZArith List Ascii String Bool Lia Permutation.
From stdpp Require Import base option list gmap sets sorting.

Local Open Scope Z_scope.
Local Open Scope list_scope.

(** ** Text *)

Abbreviation text := (list ascii).

(** A string literal as text. *)
Definition txt (s : string) : text := list_ascii_of_string s.

(** The line feed character. *)
Definition nl : ascii := ascii_of_nat 10.

(** [str.isspace] / the class [\s] on code points below 256. *)
Definition is_space (a : ascii) : bool :=
  let n := nat_of_ascii a in
  ((9 <=? n) && (n <=? 13) || (28 <=? n) && (n <=? 32)
   || (n =? 133) || (n =? 160))%nat.

(** The class [\d] on code points below 256. *)
Definition is_digit (a : ascii) : bool :=
  let n := nat_of_ascii a in ((48 <=? n) && (n <=? 57))%nat.

(** Case folding of the letters A..Z, as used by [re.IGNORECASE]. *)
Definition to_lower (a : ascii) : ascii :=
  let n := nat_of_ascii a in
  if ((65 <=? n) && (n <=? 90))%nat then ascii_of_nat (n + 32) else a.

(** Membership of a character in a literal set. *)
Definition in_set (cs : string) (a : ascii) : bool :=
  existsb (Ascii.eqb a) (list_ascii_of_string cs).

(** The longest prefix whose characters all satisfy [p], and what follows it. *)
Fixpoint take_while (p : ascii -> bool) (s : text) : text :=
  match s with
  | a :: s' => if p a then a :: take_while p s' else []
  | [] => []
  end.

Fixpoint drop_while (p : ascii -> bool) (s : text) : text :=
  match s with
  | a :: s' => if p a then drop_while p s' else s
  | [] => []
  end.

(** [s.strip()] *)
Definition lstrip (s : text) : text := drop_while is_space s.
Definition rstrip (s : text) : text := rev (drop_while is_space (rev s)).
Definition strip (s : text) : text := rstrip (lstrip s).

(** [s.split(sep)] for a one-character separator. *)
Fixpoint split (sep : ascii) (s : text) : list text :=
  match s with
  | [] => [[]]
  | a :: s' =>
      if Ascii.eqb a sep then [] :: split sep s'
      else match split sep s' with
           | l :: ls => (a :: l) :: ls
           | [] => [[a]]
           end
  end.

(** [s.replace(a, b)] for one-character arguments. *)
Definition replace (a b : ascii) (s : text) : text :=
  map (fun x => if Ascii.eqb x a then b else x) s.

(** [s[i:j]] for [0 <= i] and [0 <= j]. *)
Definition slice (s : text) (i j : Z) : text :=
  take (Z.to_nat j - Z.to_nat i)%nat (drop (Z.to_nat i) s).

(** [p in s] : substring test. *)
Fixpoint is_prefix (p s : text) : bool :=
  match p, s with
  | [], _ => true
  | a :: p', b :: s' => Ascii.eqb a b && is_prefix p' s'
  | _ :: _, [] => false
  end.

Fixpoint contains (p s : text) : bool :=
  is_prefix p s || match s with [] => false | _ :: s' => contains p s' end.

(** [int(s)] for a string of decimal digits. *)
Definition digit_val (a : ascii) : Z := Z.of_nat (nat_of_ascii a) - 48.

Definition int (s : text) : Z :=
  fold_left (fun acc a => 10 * acc + digit_val a) s 0.

(** ** Regular expressions

    The fragment of Python's [re] syntax that the two programs use, with the
    semantics of a backtracking matcher: [paths] lists the ways a pattern can
    match at the current position, in the order in which the matcher tries
    them; the match reported by [re] is the first one. *)

(** Captured groups, the most recent binding first. *)
Abbreviation caps := (list (nat * list ascii)).

Inductive regex :=
| Eps                       (* empty pattern *)
| Cls (p : ascii -> bool)   (* one character of a class *)
| Seq (r1 r2 : regex)       (* r1r2 *)
| Alt (r1 r2 : regex)       (* r1|r2 *)
| Star (r : regex)          (* r*, greedy *)
| Grp (i : nat) (r : regex) (* capturing group number i *)
| Bol                       (* ^ *)
| Eol.                      (* $ *)

(** One way of matching: the text matched, the text left, and the groups. *)
Record path := {
  p_text : text;
  p_rest : text;
  p_caps : caps
}.

(** [$] holds at the end of the text and before a final line feed. *)
Definition at_eol (s : text) : bool :=
  match s with
  | [] => true
  | a :: [] => Ascii.eqb a nl
  | _ => false
  end.

Definition is_nil (s : text) : bool :=
  match s with
  | [] => true
  | _ => false
  end.

(** [p] followed by [q]. *)
Definition then_ (p q : path) : path :=
  {| p_text := p_text p ++ p_text q; p_rest := p_rest q; p_caps := p_caps q |}.

(** [paths r bol s c]: [s] is the text still to be read, [bol] tells whether
    it is the whole subject string, and [c] holds the groups bound so far.  A
    repetition does not go on after an iteration that matched nothing. *)
Fixpoint paths (r : regex) (bol : bool) (s : text) (c : caps) : list path :=
  match r with
  | Eps => [{| p_text := []; p_rest := s; p_caps := c |}]
  | Cls p =>
      match s with
      | a :: s' =>
          if p a then [{| p_text := [a]; p_rest := s'; p_caps := c |}] else []
      | [] => []
      end
  | Seq r1 r2 =>
      paths r1 bol s c ≫= (fun p1 =>
        then_ p1 <$> paths r2 (bol && is_nil (p_text p1)) (p_rest p1) (p_caps p1))
  | Alt r1 r2 => paths r1 bol s c ++ paths r2 bol s c
  | Star r1 =>
      (fix iter (n : nat) (bol : bool) (s : text) (c : caps) {struct n} : list path :=
         match n with
         | O => [{| p_text := []; p_rest := s; p_caps := c |}]
         | S n' =>
             (paths r1 bol s c ≫= (fun p1 =>
                if is_nil (p_text p1) then []
                else then_ p1 <$> iter n' false (p_rest p1) (p_caps p1)))
             ++ [{| p_text := []; p_rest := s; p_caps := c |}]
         end) (length s) bol s c
  | Grp i r1 =>
      (fun p1 => {| p_text := p_text p1; p_rest := p_rest p1;
                    p_caps := (i, p_text p1) :: p_caps p1 |})
        <$> paths r1 bol s c
  | Bol => if bol then [{| p_text := []; p_rest := s; p_caps := c |}] else []
  | Eol => if at_eol s then [{| p_text := []; p_rest := s; p_caps := c |}] else []
  end.

(** Derived forms. *)
Definition Plus (r : regex) : regex := Seq r (Star r).      (* r+ *)
Definition Opt (r : regex) : regex := Alt r Eps.            (* r? *)
Definition chr (a : ascii) : regex := Cls (Ascii.eqb a).    (* a literal character *)
Definition chr_i (a : ascii) : regex :=                     (* the same under IGNORECASE *)
  Cls (fun x => Ascii.eqb (to_lower x) (to_lower a)).
Definition digit : regex := Cls is_digit.                   (* \d *)
Definition space : regex := Cls is_space.                   (* \s *)
Definition any : regex := Cls (fun x => negb (Ascii.eqb x nl)). (* . *)
Definition set (cs : string) : regex := Cls (in_set cs).    (* [cs] *)

Fixpoint lit (l : string) : regex :=                        (* a literal word *)
  match l with
  | EmptyString => Eps
  | String a l' => Seq (chr a) (lit l')
  end.

Fixpoint lit_i (l : string) : regex :=                      (* the same under IGNORECASE *)
  match l with
  | EmptyString => Eps
  | String a l' => Seq (chr_i a) (lit_i l')
  end.

(** A sequence of patterns written side by side. *)
Definition cat (rs : list regex) : regex := foldr Seq Eps rs.

(** A match object: [m.start()], [m.end()], [m.group()] and the groups. *)
Record match_obj := {
  m_start : nat;
  m_end : nat;
  m_text : text;
  m_caps : caps
}.

(** The first match of [r] that starts at position [pos] of the subject
    string, of which [s] is the part from [pos] on. *)
Definition match_here (r : regex) (pos : nat) (s : text) : option match_obj :=
  match paths r (pos =? 0)%nat s [] with
  | p :: _ =>
      Some {| m_start := pos; m_end := pos + length (p_text p);
              m_text := p_text p; m_caps := p_caps p |}
  | [] => None
  end.

(** [re.match(r, w)] *)
Definition re_match (r : regex) (w : text) : option match_obj := match_here r 0 w.

(** [re.finditer(r, w)]: the non-overlapping matches from left to right.
    [skip] counts the characters still covered by the previous match.  None of
    the patterns below can match the empty string, so the treatment of empty
    matches (report, then move on by one character) is never exercised. *)
Fixpoint finditer_from (r : regex) (pos skip : nat) (s : text) : list match_obj :=
  match skip with
  | S k =>
      match s with
      | [] => []
      | _ :: s' => finditer_from r (S pos) k s'
      end
  | O =>
      match match_here r pos s with
      | Some m =>
          m :: match s with
               | [] => []
               | _ :: s' => finditer_from r (S pos) (length (m_text m) - 1) s'
               end
      | None =>
          match s with
          | [] => []
          | _ :: s' => finditer_from r (S pos) 0 s'
          end
      end
  end.

Definition finditer (r : regex) (w : text) : list match_obj := finditer_from r 0 0 w.

(** [re.search(r, w)] *)
Definition search (r : regex) (w : text) : option match_obj := head (finditer r w).

(** [m.group(i)] for a group that took part in the match. *)
Definition group (m : match_obj) (i : nat) : text :=
  match find (fun b => (b.1 =? i)%nat) (m_caps m) with
  | Some b => b.2
  | None => []
  end.

(** ** The patterns of [main.py] *)

(** The patterns are quoted with blanks between their parts; the blanks are
    not part of them. *)

(** [( \d+ \.? \d* )], the number of a figure, table or equation *)
Definition decimal_re : regex := Grp 1 (cat [Plus digit; Opt (chr "."); Star digit]).

(** [^ (?:Chapter|CHAPTER) \s+ (\d+|[IVXLC]+) [.:] \s* (.+)] *)
Definition chapter_re : regex :=
  cat [Bol; Alt (lit "Chapter") (lit "CHAPTER"); Plus space;
       Grp 1 (Alt (Plus digit) (Plus (set "IVXLC"))); set ".:"; Star space;
       Grp 2 (Plus any)].

(** [^ ( \d+ \. (?:\d+)* ) \s+ (.+)] *)
Definition section_re : regex :=
  cat [Bol; Grp 1 (cat [Plus digit; chr "."; Star (Plus digit)]); Plus space;
       Grp 2 (Plus any)].

(** [^References$ | ^Bibliography$] with [re.IGNORECASE] *)
Definition references_re : regex :=
  Alt (cat [Bol; lit_i "References"; Eol]) (cat [Bol; lit_i "Bibliography"; Eol]).

(** [^Appendix \s+ ([A-Z]) : \s* (.+)] *)
Definition appendix_re : regex :=
  cat [Bol; lit "Appendix"; Plus space; Grp 1 (set "ABCDEFGHIJKLMNOPQRSTUVWXYZ");
       chr ":"; Star space; Grp 2 (Plus any)].

(** [Figure \s+ ( \d+ \.? \d* ) [.:] \s* (.+)] *)
Definition figure_re : regex :=
  cat [lit "Figure"; Plus space; decimal_re; set ".:"; Star space; Grp 2 (Plus any)].

(** [Table \s+ ( \d+ \.? \d* ) [.:] \s* (.+)] *)
Definition table_re : regex :=
  cat [lit "Table"; Plus space; decimal_re; set ".:"; Star space; Grp 2 (Plus any)].

(** [\( \s* (?:eq|equation)? \s* ( \d+ \.? \d* ) \s* \)] with [re.IGNORECASE] *)
Definition equation_re : regex :=
  cat [chr "("; Star space; Opt (Alt (lit_i "eq") (lit_i "equation")); Star space;
       decimal_re; Star space; chr ")"].

(** ** Exceptions *)

Inductive exn := TypeError | AttributeError.

(** The outcome of a call that may raise: [inl e] when it raised [e]. *)
Definition result (A : Type) : Type := exn + A.

Abbreviation raise e := (inl e) (only parsing).
Abbreviation ret x := (inr x) (only parsing).
Definition bind {A B} (x : result A) (k : A -> result B) : result B :=
  match x with
  | inl e => inl e
  | inr a => k a
  end.

Notation "'let*' x ':=' e 'in' k" := (bind e (fun x => k))
  (at level 10, x name, e at level 100, k at level 200).

(** ** The page objects of the PDF library

    A page offers its text, if any, and its words with their font sizes.  The
    type [F] of font sizes is left open: sizes are only passed on. *)

Record word (F : Type) := {
  w_text : text;
  w_size : F
}.
Arguments w_text {F} _.
Arguments w_size {F} _.

Record page (F : Type) := {
  extract_text : option text;
  extract_words : list (word F)
}.
Arguments extract_text {F} _.
Arguments extract_words {F} _.

(** ** The records of [main.py]

    The dictionaries built by the mapper, one record type per shape; the field
    names are the keys. *)

Record section := {
  sec_number : text;
  sec_title : text;
  sec_page : Z;
  sec_level : Z
}.

Record chapter := {
  ch_number : text;
  ch_title : text;
  ch_page : Z;
  ch_sections : list section
}.

(** Figures and tables. *)
Record captioned := {
  cap_number : text;
  cap_caption : text;
  cap_page : Z
}.

Record equation := {
  eq_number : text;
  eq_page : Z
}.

Record reference := {
  ref_title : text;
  ref_page : Z
}.

Record appendix := {
  app_letter : text;
  app_title : text;
  app_page : Z
}.

(** [self.structure] *)
Record structure_dict := {
  toc : list text;
  chapters : list chapter;
  sections : list section;
  figures : list captioned;
  tables : list captioned;
  equations : list equation;
  references : list reference;
  appendices : list appendix
}.

(** An instance of the class.  A chapter dictionary is created in one place
    only, where it is appended to [chapters]; [current_chapter] refers to
    that very object, so it is modelled as the position of the object in
    [chapters], and a change made through it is a change of that element.
    [toc] and [hierarchy] are never used after construction. *)
Record AcademicBookMapper := {
  file_path : text;
  structure : structure_dict;
  current_chapter : option nat;
  hierarchy : list (text * list text)
}.

Definition __init__ (file_path : text) : AcademicBookMapper :=
  {| file_path := file_path;
     structure := {| toc := []; chapters := []; sections := []; figures := [];
                     tables := []; equations := []; references := [];
                     appendices := [] |};
     current_chapter := None;
     hierarchy := [] |}.

(** Updates of one entry of [self.structure], and of the instance. *)
Definition upd_chapters (f : list chapter -> list chapter) (d : structure_dict) :=
  {| toc := toc d; chapters := f (chapters d); sections := sections d;
     figures := figures d; tables := tables d; equations := equations d;
     references := references d; appendices := appendices d |}.

Definition upd_sections (f : list section -> list section) (d : structure_dict) :=
  {| toc := toc d; chapters := chapters d; sections := f (sections d);
     figures := figures d; tables := tables d; equations := equations d;
     references := references d; appendices := appendices d |}.

Definition upd_figures (f : list captioned -> list captioned) (d : structure_dict) :=
  {| toc := toc d; chapters := chapters d; sections := sections d;
     figures := f (figures d); tables := tables d; equations := equations d;
     references := references d; appendices := appendices d |}.

Definition upd_tables (f : list captioned -> list captioned) (d : structure_dict) :=
  {| toc := toc d; chapters := chapters d; sections := sections d;
     figures := figures d; tables := f (tables d); equations := equations d;
     references := references d; appendices := appendices d |}.

Definition upd_equations (f : list equation -> list equation) (d : structure_dict) :=
  {| toc := toc d; chapters := chapters d; sections := sections d;
     figures := figures d; tables := tables d; equations := f (equations d);
     references := references d; appendices := appendices d |}.

Definition upd_references (f : list reference -> list reference) (d : structure_dict) :=
  {| toc := toc d; chapters := chapters d; sections := sections d;
     figures := figures d; tables := tables d; equations := equations d;
     references := f (references d); appendices := appendices d |}.

Definition upd_appendices (f : list appendix -> list appendix) (d : structure_dict) :=
  {| toc := toc d; chapters := chapters d; sections := sections d;
     figures := figures d; tables := tables d; equations := equations d;
     references := references d; appendices := f (appendices d) |}.

Definition upd_structure (f : structure_dict -> structure_dict)
    (self : AcademicBookMapper) : AcademicBookMapper :=
  {| file_path := file_path self; structure := f (structure self);
     current_chapter := current_chapter self; hierarchy := hierarchy self |}.

Definition set_current_chapter (c : option nat)
    (self : AcademicBookMapper) : AcademicBookMapper :=
  {| file_path := file_path self; structure := structure self;
     current_chapter := c; hierarchy := hierarchy self |}.

(** [l.append(x)] *)
Definition append {A} (x : A) (l : list A) : list A := l ++ [x].

(** [self.current_chapter['sections'].append(section)] *)
Definition add_section (s : section) (c : chapter) : chapter :=
  {| ch_number := ch_number c; ch_title := ch_title c; ch_page := ch_page c;
     ch_sections := append s (ch_sections c) |}.

(** The body of the loop over the lines of a page in
    [_analyze_page_structure]: the four matchers in their order, each ending
    the iteration when it fires. *)
Definition analyze_line (page_num : Z) (self : AcademicBookMapper) (line : text)
    : AcademicBookMapper :=
  match re_match chapter_re line with
  | Some chapter_match =>
      let chapter_num := group chapter_match 1 in
      let chapter_title := group chapter_match 2 in
      let new_chapter :=
        {| ch_number := chapter_num; ch_title := strip chapter_title;
           ch_page := page_num; ch_sections := [] |} in
      upd_structure (upd_chapters (append new_chapter))
        (set_current_chapter (Some (length (chapters (structure self)))) self)
  | None =>
  match re_match section_re line with
  | Some section_match =>
      let section_num := group section_match 1 in
      let section_title := group section_match 2 in
      let section :=
        {| sec_number := section_num; sec_title := strip section_title;
           sec_page := page_num;
           sec_level := Z.of_nat (length (split "." section_num)) - 1 |} in
      let self :=
        match current_chapter self with
        | Some i => upd_structure (upd_chapters (alter (add_section section) i)) self
        | None => self
        end in
      upd_structure (upd_sections (append section)) self
  | None =>
  match re_match references_re line with
  | Some _ =>
      upd_structure
        (upd_references (append {| ref_title := strip line; ref_page := page_num |}))
        self
  | None =>
  match re_match appendix_re line with
  | Some appendix_match =>
      let appendix_letter := group appendix_match 1 in
      let appendix_title := group appendix_match 2 in
      upd_structure
        (upd_appendices (append {| app_letter := appendix_letter;
                                   app_title := strip appendix_title;
                                   app_page := page_num |}))
        self
  | None => self
  end end end end.

Definition _analyze_page_structure (self : AcademicBookMapper) (text : text)
    (page_num : Z) : AcademicBookMapper :=
  let lines := split nl text in
  fold_left (analyze_line page_num) lines self.

(** The records appended by the three loops of [_detect_figures_tables]. *)
Definition caption_of (page_num : Z) (m : match_obj) : captioned :=
  {| cap_number := group m 1; cap_caption := strip (group m 2);
     cap_page := page_num |}.

Definition captions_of (r : regex) (text : text) (page_num : Z) : list captioned :=
  map (caption_of page_num) (finditer r text).

Definition equations_of (text : text) (page_num : Z) : list equation :=
  map (fun m => {| eq_number := group m 1; eq_page := page_num |})
      (finditer equation_re text).

(** [re.finditer] raises [TypeError] when it is given [None]. *)
Definition _detect_figures_tables {F} (self : AcademicBookMapper) (page : page F)
    (page_num : Z) : result AcademicBookMapper :=
  match extract_text page with
  | None => raise TypeError
  | Some text =>
      let self :=
        fold_left (fun self x => upd_structure (upd_figures (append x)) self)
                  (captions_of figure_re text page_num) self in
      let self :=
        fold_left (fun self x => upd_structure (upd_tables (append x)) self)
                  (captions_of table_re text page_num) self in
      let self :=
        fold_left (fun self x => upd_structure (upd_equations (append x)) self)
                  (equations_of text page_num) self in
      ret self
  end.

(** The truth value of [text] in [if text:]. *)
Definition truthy (t : option text) : bool :=
  match t with
  | None | Some [] => false
  | Some (_ :: _) => true
  end.

(** The loop of [analyze] over [enumerate(pdf.pages, 1)], from the page
    numbered [page_num] on. *)
Fixpoint analyze_pages {F} (self : AcademicBookMapper) (page_num : Z)
    (pages : list (page F)) : result AcademicBookMapper :=
  match pages with
  | [] => ret self
  | page :: pages' =>
      let text := extract_text page in
      let* self :=
        if truthy text then
          match text with
          | Some text =>
              _detect_figures_tables (_analyze_page_structure self text page_num)
                                     page page_num
          | None => ret self
          end
        else ret self in
      analyze_pages self (page_num + 1) pages'
  end.

(** The value returned by [analyze]. *)
Record summary := {
  total_chapters : Z;
  total_figures : Z;
  total_tables : Z;
  total_equations : Z
}.

Record book_structure := {
  bs_chapters : list chapter;
  bs_figures : list captioned;
  bs_tables : list captioned;
  bs_equations : list equation;
  bs_references : list reference;
  bs_appendices : list appendix
}.

Record book_map := {
  bm_summary : summary;
  bm_structure : book_structure
}.

Definition _generate_book_map (self : AcademicBookMapper) : book_map :=
  let d := structure self in
  {| bm_summary :=
       {| total_chapters := Z.of_nat (length (chapters d));
          total_figures := Z.of_nat (length (figures d));
          total_tables := Z.of_nat (length (tables d));
          total_equations := Z.of_nat (length (equations d)) |};
     bm_structure :=
       {| bs_chapters :=
            map (fun chapter =>
                   {| ch_number := ch_number chapter;
                      ch_title := ch_title chapter;
                      ch_page := ch_page chapter;
                      ch_sections :=
                        map (fun section =>
                               {| sec_number := sec_number section;
                                  sec_title := sec_title section;
                                  sec_page := sec_page section;
                                  sec_level := sec_level section |})
                            (ch_sections chapter) |})
                (chapters d);
          bs_figures := figures d;
          bs_tables := tables d;
          bs_equations := equations d;
          bs_references := references d;
          bs_appendices := appendices d |} |}.

(** [analyze]: the instance after the scan, and the map it returns.  The
    document opened from [self.file_path] is given by its pages. *)
Definition analyze {F} (self : AcademicBookMapper) (pdf : list (page F))
    : result (AcademicBookMapper * book_map) :=
  let* self := analyze_pages self 1 pdf in
  ret (self, _generate_book_map self).

Definition map_academic_book {F} (file_path : text) (pdf : list (page F))
    : result book_map :=
  let mapper := __init__ file_path in
  let* r := analyze mapper pdf in
  ret r.2.

(** ** [phraseFind2.py] *)

(** "Chapter \d+: " *)
Definition pattern : regex := cat [lit "Chapter "; Plus digit; lit ": "].

(** "\d+" *)
Definition number_re : regex := Plus digit.

(** The tuples collected by the locator:
    [(chapter_num, page_num, font_size, context, chapter_text)]. *)
Record hit (F : Type) := {
  hit_chapter_num : Z;
  hit_page_num : Z;
  hit_font_size : option F;
  hit_context : text;
  hit_chapter_text : text
}.
Arguments hit_chapter_num {F} _.
Arguments hit_page_num {F} _.
Arguments hit_font_size {F} _.
Arguments hit_context {F} _.
Arguments hit_chapter_text {F} _.

(** The loop over [words]: the size of the first word containing "Chapter". *)
Fixpoint font_size_of {F} (words : list (word F)) : option F :=
  match words with
  | [] => None
  | word :: words' =>
      if contains (txt "Chapter") (w_text word) then Some (w_size word)
      else font_size_of words'
  end.

(** The body of the loop over the matches of one page. *)
Definition scan_match {F} (page : page F) (page_num : Z) (text : text)
    (results : list (hit F)) (m : match_obj) : result (list (hit F)) :=
  let chapter_text := m_text m in
  match search number_re chapter_text with
  | None => raise AttributeError
  | Some d =>
      let chapter_num := int (m_text d) in
      if (1 <=? chapter_num) && (chapter_num <=? 25) then
        let start := Z.max 0 (Z.of_nat (m_start m) - 30) in
        let end_ := Z.min (Z.of_nat (length text)) (Z.of_nat (m_end m) + 30) in
        let context := strip (replace nl " " (slice text start end_)) in
        let words := extract_words page in
        let font_size := font_size_of words in
        ret (append {| hit_chapter_num := chapter_num; hit_page_num := page_num;
                       hit_font_size := font_size; hit_context := context;
                       hit_chapter_text := chapter_text |} results)
      else ret results
  end.

Fixpoint scan_matches {F} (page : page F) (page_num : Z) (text : text)
    (results : list (hit F)) (ms : list match_obj) : result (list (hit F)) :=
  match ms with
  | [] => ret results
  | m :: ms' =>
      let* results := scan_match page page_num text results m in
      scan_matches page page_num text results ms'
  end.

(** The loop over [range(total_pages)], from [page_num] on;
    [pattern.finditer(None)] raises [TypeError]. *)
Fixpoint scan_pages {F} (page_num : Z) (results : list (hit F))
    (pages : list (page F)) : result (list (hit F)) :=
  match pages with
  | [] => ret results
  | page :: pages' =>
      match extract_text page with
      | None => raise TypeError
      | Some text =>
          let* results :=
            scan_matches page page_num text results (finditer pattern text) in
          scan_pages (page_num + 1) results pages'
      end
  end.

(** [l.sort(key=...)] is a stable sort, and a stable sort is determined by
    what it is given; insertion from the right, before the first element whose
    key is not smaller, is one. *)
Fixpoint insert_by {A} (key : A -> Z) (x : A) (l : list A) : list A :=
  match l with
  | [] => [x]
  | y :: l' => if key x <=? key y then x :: l else y :: insert_by key x l'
  end.

Definition sort_by {A} (key : A -> Z) (l : list A) : list A :=
  foldr (insert_by key) [] l.

(** The document opened from [input_pdf] is given by its pages; the progress
    messages are left out. *)
Definition find_chapters_with_details {F} (pdf : list (page F))
    : result (list (hit F)) :=
  let* results := scan_pages 0 [] pdf in
  ret (sort_by hit_chapter_num results).

(** The last part of [display_chapter_analysis]: the check for missing
    chapters. *)
Definition found_chapters {F} (results : list (hit F)) : gset Z :=
  list_to_set (map hit_chapter_num results).

(** [max(s)] of a set that is not empty. *)
Definition max_ (s : gset Z) : Z :=
  match elements s with
  | [] => 0
  | x :: l => foldr Z.max x l
  end.

(** [set(range(a, b))] *)
Definition range_set (a b : Z) : gset Z := list_to_set (seqZ a (b - a)).

(** [sorted(s)] *)
Definition sorted (s : gset Z) : list Z := merge_sort Z.le (elements s).

Definition missing_chapters {F} (results : list (hit F)) : gset Z :=
  let found_chapters := found_chapters results in
  let expected_chapters := range_set 1 (max_ found_chapters + 1) in
  expected_chapters ∖ found_chapters.

(** What the line starting "Missing chapters:" shows, if it is printed. *)
Definition missing_report {F} (results : list (hit F)) : option (list Z) :=
  match results with
  | [] => None
  | _ :: _ =>
      let found_chapters := found_chapters results in
      if decide (found_chapters = ∅) then None
      else
        let missing_chapters := missing_chapters results in
        if decide (missing_chapters = ∅) then None
        else Some (sorted missing_chapters)
  end.

(** The rest of [display_chapter_analysis].  A row of the table: the chapter
    number, the page number as it is shown, the matched text and the context
    as it is shown.  The column of the font size, which shows the size rounded
    to one decimal, is left out, and so is the layout in columns. *)
Record row := {
  row_chapter : Z;
  row_page : Z;
  row_matched_text : text;
  row_context : text
}.

(** What is shown for a list of records that is not empty. *)
Record analysis := {
  rows : list row;
  total_chapters_found : Z;
  pages_for_splitting : list Z;
  missing : option (list Z)
}.

(** The context of a row: cut to 37 characters and "..." when it is longer
    than 40. *)
Definition shown_context (context : text) : text :=
  if 40 <? Z.of_nat (length context) then take 37 context ++ txt "..." else context.

(** [None] stands for the message that no chapters were found. *)
Definition display_chapter_analysis {F} (results : list (hit F)) : option analysis :=
  match results with
  | [] => None
  | _ :: _ =>
      Some {| rows :=
                map (fun h => {| row_chapter := hit_chapter_num h;
                                 row_page := hit_page_num h + 1;
                                 row_matched_text := hit_chapter_text h;
                                 row_context := shown_context (hit_context h) |})
                    results;
              total_chapters_found := Z.of_nat (length results);
              pages_for_splitting := map (fun h => hit_page_num h + 1) results;
              missing := missing_report results |}
  end.

(** * Notions used in the statements *)

(** The ways a starred character class can match, longest first. *)
Fixpoint star_cls (p : ascii -> bool) (s : text) (c : caps) : list path :=
  match s with
  | a :: s' =>
      if p a
      then (then_ {| p_text := [a]; p_rest := s'; p_caps := c |} <$> star_cls p s' c)
           ++ [{| p_text := []; p_rest := s; p_caps := c |}]
      else [{| p_text := []; p_rest := s; p_caps := c |}]
  | [] => [{| p_text := []; p_rest := []; p_caps := c |}]
  end.

(** The words a pattern can match (anchors match the empty word). *)
Inductive lang : regex -> text -> Prop :=
| lang_Eps : lang Eps []
| lang_Cls p a : p a = true -> lang (Cls p) [a]
| lang_Seq r1 r2 u v : lang r1 u -> lang r2 v -> lang (Seq r1 r2) (u ++ v)
| lang_Alt_l r1 r2 u : lang r1 u -> lang (Alt r1 r2) u
| lang_Alt_r r1 r2 u : lang r2 u -> lang (Alt r1 r2) u
| lang_Star_nil r : lang (Star r) []
| lang_Star_cons r u v : lang r u -> lang (Star r) v -> lang (Star r) (u ++ v)
| lang_Grp i r u : lang r u -> lang (Grp i r) u
| lang_Bol : lang Bol []
| lang_Eol : lang Eol [].

(** What a line contributes as a heading: the Chapter record it makes, or the
    Section record it makes when it is not a chapter line. *)
Definition chapter_of (page_num : Z) (line : text) : option chapter :=
  match re_match chapter_re line with
  | Some m =>
      Some {| ch_number := group m 1; ch_title := strip (group m 2);
              ch_page := page_num; ch_sections := [] |}
  | None => None
  end.

Definition section_of (page_num : Z) (line : text) : option section :=
  match re_match chapter_re line with
  | Some _ => None
  | None =>
      match re_match section_re line with
      | Some m =>
          Some {| sec_number := group m 1; sec_title := strip (group m 2);
                  sec_page := page_num;
                  sec_level := Z.of_nat (length (split "." (group m 1))) - 1 |}
      | None => None
      end
  end.

(** The scanned lines of a document in scan order, each with its page number:
    the lines of the pages that have text. *)
Fixpoint doc_lines {F} (page_num : Z) (pages : list (page F)) : list (Z * text) :=
  match pages with
  | [] => []
  | page :: pages' =>
      match extract_text page with
      | Some (a :: t) => map (pair page_num) (split nl (a :: t))
      | _ => []
      end ++ doc_lines (page_num + 1) pages'
  end.

(** The association the specification describes, in three parts.  First, the
    Section records of the lines that follow a chapter line, up to the next
    chapter line. *)
Fixpoint following_sections (lines : list (Z * text)) : list section :=
  match lines with
  | [] => []
  | (page_num, line) :: lines' =>
      match chapter_of page_num line with
      | Some _ => []
      | None =>
          match section_of page_num line with
          | Some s => s :: following_sections lines'
          | None => following_sections lines'
          end
      end
  end.

(** The chapter [c] with the list [ss] as its sections. *)
Definition with_sections (c : chapter) (ss : list section) : chapter :=
  {| ch_number := ch_number c; ch_title := ch_title c; ch_page := ch_page c;
     ch_sections := ss |}.

(** Second, one Chapter record per chapter line, holding the sections that
    follow it. *)
Fixpoint grouped_chapters (lines : list (Z * text)) : list chapter :=
  match lines with
  | [] => []
  | (page_num, line) :: lines' =>
      match chapter_of page_num line with
      | Some c => with_sections c (following_sections lines') :: grouped_chapters lines'
      | None => grouped_chapters lines'
      end
  end.

(** Third, the Section records of all lines. *)
Definition all_sections (lines : list (Z * text)) : list section :=
  omap (fun e => section_of e.1 e.2) lines.

(** The scan of a sequence of lines. *)
Definition scan_lines (self : AcademicBookMapper) (lines : list (Z * text))
    : AcademicBookMapper :=
  fold_left (fun self e => analyze_line e.1 self e.2) lines self.

(** The part of an instance that the line matchers read and write. *)
Definition headings (self : AcademicBookMapper) :=
  (chapters (structure self), sections (structure self), current_chapter self).

(** What a run reads and writes of an instance. *)
Definition core (self : AcademicBookMapper) := (structure self, current_chapter self).

Definition core_result (r : result AcademicBookMapper) :=
  match r with
  | inl e => inl e
  | inr self => inr (core self)
  end.

(** The order of the pages in a list of hits. *)
Definition page_le {F} (a b : hit F) : Prop := hit_page_num a <= hit_page_num b.

(** Equality up to the case of letters. *)
Definition ci_eq (a b : text) : Prop := map to_lower a = map to_lower b.

Fixpoint is_prefix_i (p s : text) : bool :=
  match p, s with
  | [], _ => true
  | a :: p', b :: s' => Ascii.eqb (to_lower b) (to_lower a) && is_prefix_i p' s'
  | _ :: _, [] => false
  end.

(** A run of the class followed by something that is not of the class. *)
Definition stops (p : ascii -> bool) (v : text) : Prop :=
  match v with
  | [] => True
  | b :: _ => p b = false
  end.

(** The title as the pattern captures it: what follows the leading blanks,
    or the last blank when there is nothing else. *)
Fixpoint title_of (rest : text) : text :=
  match rest with
  | [] => []
  | a :: rest' =>
      if is_space a then
        match rest' with
        | [] => [a]
        | _ :: _ => title_of rest'
        end
      else rest
  end.




Definition is_blanks (ws : text) : Prop :=
  ws ≠ [] /\ Forall (fun a => is_space a = true) ws.


Definition is_digits (ds : text) : Prop :=
  ds ≠ [] /\ Forall (fun a => is_digit a = true) ds.

(** The text of a chapter token with the digits [ds]. *)
Definition token (ds : text) : text := txt "Chapter " ++ ds ++ txt ": ".

(** The Python expression for the context of a match. *)
Definition context_of (text : text) (m : match_obj) : list ascii :=
  strip (replace nl " "
           (slice text (Z.max 0 (Z.of_nat (m_start m) - 30))
                       (Z.min (Z.of_nat (length text)) (Z.of_nat (m_end m) + 30)))).

(** The record made for a match. *)
Definition hit_of {F} (page : page F) (page_num : Z) (text : text) (m : match_obj)
    (chapter_num : Z) : hit F :=
  {| hit_chapter_num := chapter_num; hit_page_num := page_num;
     hit_font_size := font_size_of (extract_words page);
     hit_context := context_of text m; hit_chapter_text := m_text m |}.

(** The records made from the matches [ms] of a page. *)
Definition made_from {F} (page : page F) (page_num : Z) (text : text)
    (ms : list match_obj) (h : hit F) : Prop :=
  exists m ds, m ∈ ms /\ is_digits ds /\ m_text m = token ds
               /\ 1 <= int ds <= 25 /\ h = hit_of page page_num text m (int ds).

(** The records the locator makes for a document. *)
Definition located {F} (pdf : list (page F)) (first : Z) (h : hit F) : Prop :=
  exists i page text,
    pdf !! i = Some page /\ extract_text page = Some text
    /\ made_from page (first + Z.of_nat i) text (finditer pattern text) h.

(** Patterns without "^". *)
Fixpoint anchor_free (r : regex) : bool :=
  match r with
  | Bol => false
  | Seq r1 r2 | Alt r1 r2 => anchor_free r1 && anchor_free r2
  | Star r1 | Grp _ r1 => anchor_free r1
  | Eps | Cls _ | Eol => true
  end.

(** What a record is made of: the text and the groups of a match. *)
Definition m_data (m : match_obj) := (m_text m, m_caps m).

Definition fig_line : text := txt "Figure 4.2: Replication topology".

(** Patterns without groups. *)
Fixpoint group_free (r : regex) : bool :=
  match r with
  | Grp _ _ => false
  | Seq r1 r2 | Alt r1 r2 => group_free r1 && group_free r2
  | Star r1 => group_free r1
  | Eps | Cls _ | Bol | Eol => true
  end.

(** [p] is the first way in which [r] matches; it gives the match. *)
Definition first_path (r : regex) (bol : bool) (s : text) (c : caps) (p : path)
    : Prop :=
  exists ps, paths r bol s c = p :: ps.

(** How many of the four line patterns match a line. *)
Definition matching_patterns (line : text) : nat :=
  length (filter (fun r => is_Some (re_match r line))
                 [chapter_re; section_re; references_re; appendix_re]).

(** The class of the capital letters A to Z. *)
Definition is_upper (a : ascii) : bool := in_set "ABCDEFGHIJKLMNOPQRSTUVWXYZ" a.

(** [line] is an appendix heading with the letter [letter], followed after
    the colon by [rest]. *)
Definition appendix_heading (line : text) (letter : ascii) (rest : text) : Prop :=
  exists ws,
    is_blanks ws /\ is_upper letter = true /\ rest ≠ []
    /\ line = txt "Appendix" ++ ws ++ letter :: ":"%char :: rest.

(** [line] is a section heading with the number [num], followed after one
    blank by [rest]. *)
Definition section_heading (line num rest : text) : Prop :=
  exists d1 d2 b,
    is_digits d1 /\ Forall (fun a => is_digit a = true) d2
    /\ num = d1 ++ "."%char :: d2
    /\ is_space b = true /\ rest ≠ [] /\ line = num ++ b :: rest.

(** The texts that the classifier scans, each with its page number: those of
    the pages that have a text that is not empty. *)
Fixpoint doc_texts {F} (page_num : Z) (pages : list (page F)) : list (Z * text) :=
  match pages with
  | [] => []
  | page :: pages' =>
      match extract_text page with
      | Some (a :: t) => [(page_num, a :: t)]
      | _ => []
      end ++ doc_texts (page_num + 1) pages'
  end.

(** The reference record and the appendix record that a line makes.  A line
    that one of the two patterns matches is matched by neither the chapter
    nor the section pattern, so the earlier matchers need not be asked. *)
Definition reference_of (page_num : Z) (line : text) : option reference :=
  match re_match references_re line with
  | Some _ => Some {| ref_title := strip line; ref_page := page_num |}
  | None => None
  end.

Definition appendix_of (page_num : Z) (line : text) : option appendix :=
  match re_match appendix_re line with
  | Some m =>
      Some {| app_letter := group m 1; app_title := strip (group m 2);
              app_page := page_num |}
  | None => None
  end.

(** The lists that the line matchers do not write. *)
Definition page_lists (self : AcademicBookMapper) :=
  (figures (structure self), tables (structure self), equations (structure self)).

(** A list of page numbers that follows the order of the pages, for [len]
    pages numbered from [first] on. *)
Definition pages_from (first len : Z) (ps : list Z) : Prop :=
  StronglySorted Z.le ps /\ Forall (fun p => first <= p < first + len) ps.

(** [p] occurs in [s]. *)
Definition occurs_in (p s : text) : Prop := exists a b, s = a ++ p ++ b.

(** [words] holds no word with "Chapter" in it before [w], which has. *)
Definition first_chapter_word {F} (words : list (word F)) (w : word F) : Prop :=
  exists before after,
    words = before ++ w :: after
    /\ Forall (fun w' => ~ occurs_in (txt "Chapter") (w_text w')) before
    /\ occurs_in (txt "Chapter") (w_text w).

(** The heading of a token: the token without its final blank. *)
Definition heading (ds : text) : text := txt "Chapter " ++ ds ++ txt ":".

(** The interpreter's default limit on the number of digits of a string that
    [int] converts ([sys.int_info.default_max_str_digits]); leading zeros
    count.  A longer string makes [int] raise [ValueError]. *)
Definition max_str_digits : Z := 4300.

(** No chapter token of a page text has more digits than that: every string
    the locator gives to [int] is converted. *)
Definition within_int_limit {F} (pdf : list (page F)) : Prop :=
  forall page pre ds post,
    page ∈ pdf -> extract_text page = Some (pre ++ token ds ++ post) ->
    is_digits ds -> Z.of_nat (length ds) <= max_str_digits.

(** Digits, then maybe a dot and maybe more digits. *)
Definition is_decimal (num : text) : Prop :=
  is_digits num
  \/ exists d1 d2, is_digits d1 /\ Forall (fun a => is_digit a = true) d2
                  /\ num = d1 ++ "."%char :: d2.

(** * Properties *)

(** ** The matcher *)

Lemma paths_Seq r1 r2 bol s c :
  paths (Seq r1 r2) bol s c =
  paths r1 bol s c ≫= (fun p1 =>
    then_ p1 <$> paths r2 (bol && is_nil (p_text p1)) (p_rest p1) (p_caps p1)).
Proof. reflexivity. Qed.

Lemma paths_Alt r1 r2 bol s c :
  paths (Alt r1 r2) bol s c = paths r1 bol s c ++ paths r2 bol s c.
Proof. reflexivity. Qed.

Lemma paths_Grp i r bol s c :
  paths (Grp i r) bol s c =
  (fun p1 => {| p_text := p_text p1; p_rest := p_rest p1;
                p_caps := (i, p_text p1) :: p_caps p1 |}) <$> paths r bol s c.
Proof. reflexivity. Qed.

Lemma paths_Eps bol s c :
  paths Eps bol s c = [{| p_text := []; p_rest := s; p_caps := c |}].
Proof. reflexivity. Qed.

Lemma paths_Cls p bol s c :
  paths (Cls p) bol s c =
  match s with
  | a :: s' => if p a then [{| p_text := [a]; p_rest := s'; p_caps := c |}] else []
  | [] => []
  end.
Proof. reflexivity. Qed.

Lemma paths_Bol bol s c :
  paths Bol bol s c =
  if bol then [{| p_text := []; p_rest := s; p_caps := c |}] else [].
Proof. reflexivity. Qed.

Lemma paths_Eol bol s c :
  paths Eol bol s c =
  if at_eol s then [{| p_text := []; p_rest := s; p_caps := c |}] else [].
Proof. reflexivity. Qed.

(** A literal word matches when it is a prefix of what is left. *)
Lemma paths_lit l bol s c :
  paths (lit l) bol s c =
  if is_prefix (txt l) s
  then [{| p_text := txt l; p_rest := drop (length (txt l)) s; p_caps := c |}]
  else [].
Proof.
  revert bol s; induction l as [|a l IH]; intros bol s; [reflexivity|].
  cbn [lit txt list_ascii_of_string is_prefix length].
  rewrite paths_Seq. unfold chr. rewrite paths_Cls.
  destruct s as [|b s]; [reflexivity|].
  destruct (Ascii.eqb a b) eqn:E; [|reflexivity].
  rewrite bind_singleton. cbn [p_text p_rest p_caps andb drop]. rewrite IH.
  fold (txt l). destruct (is_prefix (txt l) s); [|reflexivity].
  apply Ascii.eqb_eq in E as ->. reflexivity.
Qed.

Lemma paths_Star_Cls p bol s c : paths (Star (Cls p)) bol s c = star_cls p s c.
Proof.
  cbn [paths].
  generalize (le_n (length s)). generalize (length s) at 2 3 as n.
  intros n; revert bol s; induction n as [|n IH]; intros bol s Hn.
  - destruct s; [reflexivity|]. cbn in Hn. lia.
  - destruct s as [|a s]; [reflexivity|]. cbn [star_cls].
    destruct (p a); [|reflexivity].
    rewrite bind_singleton. cbn [p_text p_rest p_caps is_nil].
    rewrite IH by (cbn in Hn; lia). reflexivity.
Qed.

Lemma paths_Plus_Cls p bol s c :
  paths (Plus (Cls p)) bol s c =
  match s with
  | a :: s' =>
      if p a then then_ {| p_text := [a]; p_rest := s'; p_caps := c |} <$> star_cls p s' c
      else []
  | [] => []
  end.
Proof.
  unfold Plus. rewrite paths_Seq, paths_Cls.
  destruct s as [|a s]; [reflexivity|].
  destruct (p a); [|reflexivity].
  rewrite bind_singleton. cbn [p_text p_rest p_caps]. by rewrite paths_Star_Cls.
Qed.

(** When what follows a starred class cannot start with a character of the
    class, only the longest repetition has a continuation. *)
Lemma star_cls_bind_longest {B} p s c (f : path -> list B) :
  (forall u a s' c', p a = true ->
     f {| p_text := u; p_rest := a :: s'; p_caps := c' |} = []) ->
  star_cls p s c ≫= f =
  f {| p_text := take_while p s; p_rest := drop_while p s; p_caps := c |}.
Proof.
  intros Hf. revert f Hf. induction s as [|a s IH]; intros f Hf;
    cbn [star_cls drop_while take_while].
  - apply bind_singleton.
  - destruct (p a) eqn:E.
    + rewrite bind_app, bind_singleton, Hf, app_nil_r by done.
      rewrite list_fmap_bind, IH; [done|].
      intros u b s' c' Hb. by apply Hf.
    + apply bind_singleton.
Qed.

(** Every path of the matcher reads a word of the pattern's language off the
    front of the text. *)
Lemma paths_sound r : forall bol s c p,
  p ∈ paths r bol s c -> s = p_text p ++ p_rest p /\ lang r (p_text p).
Proof.
  induction r as [|q|r1 IH1 r2 IH2|r1 IH1 r2 IH2|r1 IH1|i r1 IH1| |];
    intros bol s c p H.
  - apply list_elem_of_singleton in H as ->. split; [done|constructor].
  - rewrite paths_Cls in H. destruct s as [|a s]; [by apply not_elem_of_nil in H|].
    destruct (q a) eqn:E; [|by apply not_elem_of_nil in H].
    apply list_elem_of_singleton in H as ->. split; [done|by constructor].
  - rewrite paths_Seq in H. apply list_elem_of_bind in H as (p1 & H2 & H1).
    apply list_elem_of_fmap in H2 as (p2 & -> & H2).
    apply IH1 in H1 as (-> & Hu). apply IH2 in H2 as (E & Hv).
    cbn. split; [by rewrite E, <-app_assoc|by constructor].
  - rewrite paths_Alt in H. apply elem_of_app in H as [H|H].
    + apply IH1 in H as (-> & Hu). split; [done|by apply lang_Alt_l].
    + apply IH2 in H as (-> & Hu). split; [done|by apply lang_Alt_r].
  - cbn [paths] in H. revert H. generalize (length s) as n.
    intros n; revert bol s c p; induction n as [|n IHn]; intros bol s c p H.
    + apply list_elem_of_singleton in H as ->. split; [done|constructor].
    + apply elem_of_app in H as [H|H].
      * apply list_elem_of_bind in H as (p1 & H2 & H1).
        destruct (is_nil (p_text p1)); [by apply not_elem_of_nil in H2|].
        apply list_elem_of_fmap in H2 as (p2 & -> & H2).
        apply IH1 in H1 as (-> & Hu). apply IHn in H2 as (E & Hv).
        cbn. split; [by rewrite E, <-app_assoc|by constructor].
      * apply list_elem_of_singleton in H as ->. split; [done|constructor].
  - rewrite paths_Grp in H. apply list_elem_of_fmap in H as (p1 & -> & H).
    apply IH1 in H as (-> & Hu). split; [done|by constructor].
  - rewrite paths_Bol in H. destruct bol; [|by apply not_elem_of_nil in H].
    apply list_elem_of_singleton in H as ->. split; [done|constructor].
  - rewrite paths_Eol in H. destruct (at_eol s); [|by apply not_elem_of_nil in H].
    apply list_elem_of_singleton in H as ->. split; [done|constructor].
Qed.

(** ** Chapters and their sections *)

Lemma analyze_line_chapter page_num self line c :
  chapter_of page_num line = Some c ->
  analyze_line page_num self line =
  upd_structure (upd_chapters (append c))
    (set_current_chapter (Some (length (chapters (structure self)))) self).
Proof.
  unfold chapter_of, analyze_line. destruct (re_match chapter_re line); [|done].
  by intros [= <-].
Qed.

Lemma analyze_line_section page_num self line s :
  section_of page_num line = Some s ->
  analyze_line page_num self line =
  upd_structure (upd_sections (append s))
    match current_chapter self with
    | Some i => upd_structure (upd_chapters (alter (add_section s) i)) self
    | None => self
    end.
Proof.
  unfold section_of, analyze_line. destruct (re_match chapter_re line); [done|].
  destruct (re_match section_re line); [|done]. by intros [= <-].
Qed.

Lemma analyze_line_other page_num self line :
  chapter_of page_num line = None -> section_of page_num line = None ->
  chapters (structure (analyze_line page_num self line)) = chapters (structure self)
  /\ sections (structure (analyze_line page_num self line)) = sections (structure self)
  /\ current_chapter (analyze_line page_num self line) = current_chapter self.
Proof.
  unfold chapter_of, section_of, analyze_line.
  destruct (re_match chapter_re line); [done|].
  destruct (re_match section_re line); [done|]. intros _ _.
  destruct (re_match references_re line); [done|].
  by destruct (re_match appendix_re line).
Qed.

Lemma with_sections_id c : with_sections c (ch_sections c) = c.
Proof. by destruct c. Qed.

Lemma chapter_of_fresh page_num line c :
  chapter_of page_num line = Some c -> ch_sections c = [].
Proof.
  unfold chapter_of. destruct (re_match chapter_re line); [|done]. by intros [= <-].
Qed.

(** While a chapter is current, it is the last of [chapters] and receives the
    sections that follow. *)
Lemma scan_lines_open lines : forall self cs c,
  chapters (structure self) = cs ++ [c] ->
  current_chapter self = Some (length cs) ->
  chapters (structure (scan_lines self lines)) =
  cs ++ with_sections c (ch_sections c ++ following_sections lines)
     :: grouped_chapters lines.
Proof.
  induction lines as [|[p l] lines IH]; intros self cs c Hcs Hcur.
  - cbn. by rewrite app_nil_r, with_sections_id.
  - cbn [scan_lines fold_left following_sections grouped_chapters fst snd].
    fold (scan_lines (analyze_line p self l) lines).
    destruct (chapter_of p l) as [c'|] eqn:Hc.
    + rewrite (analyze_line_chapter _ _ _ _ Hc).
      rewrite (IH _ (cs ++ [c]) c'); cbn.
      * by rewrite app_nil_r, with_sections_id, <-app_assoc,
             (chapter_of_fresh _ _ _ Hc).
      * by rewrite Hcs.
      * by rewrite Hcs.
    + destruct (section_of p l) as [s|] eqn:Hs.
      * rewrite (analyze_line_section _ _ _ _ Hs), Hcur.
        rewrite (IH _ cs (add_section s c)); cbn.
        -- unfold with_sections, append. cbn. by rewrite <-app_assoc.
        -- rewrite Hcs. replace (length cs) with (length cs + 0)%nat by lia.
           by rewrite alter_app_r.
        -- done.
      * destruct (analyze_line_other p self l Hc Hs) as (H1 & _ & H3).
        apply IH; congruence.
Qed.

(** Before the first chapter line there is no chapter to attach to. *)
Lemma scan_lines_closed lines : forall self,
  chapters (structure self) = [] ->
  current_chapter self = None ->
  chapters (structure (scan_lines self lines)) = grouped_chapters lines.
Proof.
  induction lines as [|[p l] lines IH]; intros self Hcs Hcur; [done|].
  cbn [scan_lines fold_left grouped_chapters fst snd].
  fold (scan_lines (analyze_line p self l) lines).
  destruct (chapter_of p l) as [c|] eqn:Hc.
  - rewrite (analyze_line_chapter _ _ _ _ Hc).
    rewrite (scan_lines_open _ _ [] c); cbn.
    + by rewrite (chapter_of_fresh _ _ _ Hc).
    + by rewrite Hcs.
    + by rewrite Hcs.
  - destruct (section_of p l) as [s|] eqn:Hs.
    + rewrite (analyze_line_section _ _ _ _ Hs), Hcur. by apply IH.
    + destruct (analyze_line_other p self l Hc Hs) as (H1 & _ & H3).
      apply IH; congruence.
Qed.

Lemma chapter_section_exclusive page_num line c :
  chapter_of page_num line = Some c -> section_of page_num line = None.
Proof.
  unfold chapter_of, section_of. by destruct (re_match chapter_re line).
Qed.

(** Every Section record goes to the global list. *)
Lemma scan_lines_sections lines : forall self,
  sections (structure (scan_lines self lines)) =
  sections (structure self) ++ all_sections lines.
Proof.
  induction lines as [|[p l] lines IH]; intros self.
  - cbn. by rewrite app_nil_r.
  - cbn [scan_lines fold_left fst snd].
    fold (scan_lines (analyze_line p self l) lines). rewrite IH.
    unfold all_sections. cbn [omap list_omap fst snd]. fold (all_sections lines).
    destruct (chapter_of p l) as [c|] eqn:Hc.
    + rewrite (chapter_section_exclusive _ _ _ Hc).
      by rewrite (analyze_line_chapter _ _ _ _ Hc).
    + destruct (section_of p l) as [s|] eqn:Hs.
      * rewrite (analyze_line_section _ _ _ _ Hs).
        destruct (current_chapter self); cbn; unfold append; by rewrite <-app_assoc.
      * destruct (analyze_line_other p self l Hc Hs) as (_ & -> & _). done.
Qed.

Lemma analyze_line_headings page_num line self1 self2 :
  headings self1 = headings self2 ->
  headings (analyze_line page_num self1 line) =
  headings (analyze_line page_num self2 line).
Proof.
  unfold headings. intros [= H1 H2 H3]. unfold analyze_line.
  destruct (re_match chapter_re line). { cbn. by rewrite H1, H2. }
  destruct (re_match section_re line).
  { rewrite H3. destruct (current_chapter self2) eqn:E; cbn; by rewrite ?H1, ?H2, ?H3, ?E. }
  destruct (re_match references_re line); [cbn; by rewrite H1, H2, H3|].
  destruct (re_match appendix_re line); cbn; by rewrite H1, H2, H3.
Qed.

Lemma scan_lines_headings lines : forall self1 self2,
  headings self1 = headings self2 ->
  headings (scan_lines self1 lines) = headings (scan_lines self2 lines).
Proof.
  induction lines as [|[p l] lines IH]; intros self1 self2 H; [done|].
  cbn [scan_lines fold_left fst snd]. apply IH. by apply analyze_line_headings.
Qed.

Lemma scan_lines_app self l1 l2 :
  scan_lines self (l1 ++ l2) = scan_lines (scan_lines self l1) l2.
Proof. apply fold_left_app. Qed.

Lemma _analyze_page_structure_scan self text page_num :
  _analyze_page_structure self text page_num =
  scan_lines self (map (pair page_num) (split nl text)).
Proof.
  unfold _analyze_page_structure, scan_lines.
  generalize (split nl text) as ls. intros ls; revert self.
  induction ls as [|l ls IH]; intros self; [done|]. cbn. apply IH.
Qed.

(** The page-level matchers leave the headings alone, and do not raise on a
    page that has text. *)
Lemma _detect_figures_tables_headings {F} self (page : page F) page_num text :
  extract_text page = Some text ->
  exists self', _detect_figures_tables self page page_num = ret self'
                /\ headings self' = headings self.
Proof.
  intros Ht. unfold _detect_figures_tables. rewrite Ht. eexists. split; [done|].
  assert (forall A (g : A -> structure_dict -> structure_dict) (l : list A) self0,
    (forall x d, chapters (g x d) = chapters d /\ sections (g x d) = sections d) ->
    headings (fold_left (fun self x => upd_structure (g x) self) l self0)
    = headings self0) as Hfold.
  { intros A g l. induction l as [|x l IH]; intros self0 Hg; [done|].
    cbn [fold_left]. rewrite IH by done. unfold headings. cbn.
    by destruct (Hg x (structure self0)) as [-> ->]. }
  rewrite (Hfold _ (fun x => upd_equations (append x))) by done.
  rewrite (Hfold _ (fun x => upd_tables (append x))) by done.
  by rewrite (Hfold _ (fun x => upd_figures (append x))).
Qed.

(** The scan never raises, and its headings are those of the scan of the
    document's lines. *)
Lemma analyze_pages_headings {F} (pages : list (page F)) : forall self page_num,
  exists self', analyze_pages self page_num pages = ret self'
                /\ headings self' = headings (scan_lines self (doc_lines page_num pages)).
Proof.
  induction pages as [|p pages IH]; intros self n; [by eexists|].
  cbn [analyze_pages doc_lines]. rewrite scan_lines_app.
  destruct (extract_text p) as [[|a t]|] eqn:Ht; cbn [truthy bind].
  - apply IH.
  - destruct (_detect_figures_tables_headings
                (_analyze_page_structure self (a :: t) n) p n _ Ht)
      as (self1 & -> & H1).
    cbn [bind]. destruct (IH self1 (n + 1)) as (self2 & -> & H2).
    exists self2. split; [done|]. rewrite H2. apply scan_lines_headings.
    by rewrite H1, _analyze_page_structure_scan.
  - apply IH.
Qed.

Lemma chapter_3_line page_num :
  chapter_of page_num (txt "Chapter 3. Storage Engines") =
  Some {| ch_number := txt "3"; ch_title := txt "Storage Engines";
          ch_page := page_num; ch_sections := [] |}.
Proof.
  unfold chapter_of.
  replace (re_match chapter_re (txt "Chapter 3. Storage Engines"))
    with (Some {| m_start := 0; m_end := 26;
                  m_text := txt "Chapter 3. Storage Engines";
                  m_caps := [(2%nat, txt "Storage Engines"); (1%nat, txt "3")] |})
    by (vm_compute; reflexivity).
  do 2 f_equal.
Qed.

(** The chapters of the returned map are those of the instance. *)
Lemma _generate_book_map_chapters self :
  bs_chapters (bm_structure (_generate_book_map self)) = chapters (structure self).
Proof.
  cbn. induction (chapters (structure self)) as [|[n t p ss] cs IH]; [done|].
  cbn. f_equal; [|exact IH]. f_equal.
  induction ss as [|[] ss IHs]; [done|]. cbn. by f_equal.
Qed.

(** Lines before the first chapter line give no chapter, whatever sections
    they hold. *)
Lemma grouped_chapters_before lines rest :
  Forall (fun e => chapter_of e.1 e.2 = None) lines ->
  grouped_chapters (lines ++ rest) = grouped_chapters rest.
Proof.
  induction 1 as [|[p l] lines H _ IH]; [done|]. cbn in *. by rewrite H.
Qed.

Lemma following_sections_until lines rest :
  Forall (fun e => chapter_of e.1 e.2 = None) lines ->
  following_sections (lines ++ rest) = all_sections lines ++ following_sections rest.
Proof.
  induction 1 as [|[p l] lines H _ IH]; [done|]. cbn in *. rewrite H, IH.
  unfold all_sections. cbn. by destruct (section_of p l).
Qed.

(** A chapter line is followed by its sections up to the next chapter line. *)
Lemma grouped_chapters_chapter page_num line c lines rest :
  chapter_of page_num line = Some c ->
  Forall (fun e => chapter_of e.1 e.2 = None) lines ->
  following_sections rest = [] ->
  grouped_chapters ((page_num, line) :: lines ++ rest) =
  with_sections c (all_sections lines) :: grouped_chapters rest.
Proof.
  intros Hc Hl Hr. cbn. rewrite Hc, following_sections_until, Hr, app_nil_r by done.
  by rewrite grouped_chapters_before.
Qed.

(** C4. The line "Chapter 3. Storage Engines" makes a Chapter record with
    number "3" and title "Storage Engines", which becomes the current chapter.
    After the scan of any document, the chapters are the chapter lines in scan
    order, each holding exactly the Section records of the lines between it and
    the next chapter line ([grouped_chapters]); every Section record is in the
    global list ([all_sections]); and the sections of lines that come before
    any chapter line are in no chapter. *)
Theorem C4_sections_attach_to_latest_chapter {F} (path : text) (pdf : list (page F)) :
  (forall page_num self,
     analyze_line page_num self (txt "Chapter 3. Storage Engines") =
     upd_structure
       (upd_chapters (append {| ch_number := txt "3"; ch_title := txt "Storage Engines";
                                ch_page := page_num; ch_sections := [] |}))
       (set_current_chapter (Some (length (chapters (structure self)))) self))
  /\ (exists self bm,
        analyze (__init__ path) pdf = ret (self, bm)
        /\ chapters (structure self) = grouped_chapters (doc_lines 1 pdf)
        /\ bs_chapters (bm_structure bm) = grouped_chapters (doc_lines 1 pdf)
        /\ sections (structure self) = all_sections (doc_lines 1 pdf))
  /\ (forall before rest,
        Forall (fun e => chapter_of e.1 e.2 = None) before ->
        grouped_chapters (before ++ rest) = grouped_chapters rest).
Proof.
  split; [|split].
  - intros page_num self. apply analyze_line_chapter, chapter_3_line.
  - unfold analyze.
    destruct (analyze_pages_headings pdf (__init__ path) 1) as (self & -> & H).
    exists self, (_generate_book_map self). split; [done|].
    unfold headings in H. injection H as H1 H2 _.
    rewrite _generate_book_map_chapters, H1, H2, scan_lines_sections.
    by rewrite scan_lines_closed.
  - apply grouped_chapters_before.
Qed.

(** ** Determinism *)

Lemma core_upd_structure f self1 self2 :
  core self1 = core self2 -> core (upd_structure f self1) = core (upd_structure f self2).
Proof. unfold core. intros [= H1 H2]. cbn. by rewrite H1, H2. Qed.

Lemma analyze_line_core page_num line self1 self2 :
  core self1 = core self2 ->
  core (analyze_line page_num self1 line) = core (analyze_line page_num self2 line).
Proof.
  intros H. pose proof H as [= H1 H2]. unfold analyze_line.
  destruct (re_match chapter_re line).
  { unfold core. cbn. by rewrite H1. }
  destruct (re_match section_re line).
  { apply core_upd_structure. rewrite H2.
    destruct (current_chapter self2); [by apply core_upd_structure|done]. }
  destruct (re_match references_re line); [by apply core_upd_structure|].
  destruct (re_match appendix_re line); [by apply core_upd_structure|done].
Qed.

Lemma _analyze_page_structure_core text page_num self1 self2 :
  core self1 = core self2 ->
  core (_analyze_page_structure self1 text page_num) =
  core (_analyze_page_structure self2 text page_num).
Proof.
  unfold _analyze_page_structure. generalize (split nl text) as ls.
  intros ls; revert self1 self2. induction ls as [|l ls IH]; intros self1 self2 H; [done|].
  cbn [fold_left]. by apply IH, analyze_line_core.
Qed.

Lemma fold_upd_structure_core {A} (g : A -> structure_dict -> structure_dict) l :
  forall self1 self2, core self1 = core self2 ->
  core (fold_left (fun self x => upd_structure (g x) self) l self1) =
  core (fold_left (fun self x => upd_structure (g x) self) l self2).
Proof.
  induction l as [|x l IH]; intros self1 self2 H; [done|].
  cbn [fold_left]. by apply IH, core_upd_structure.
Qed.

Lemma _detect_figures_tables_core {F1 F2} (p1 : page F1) (p2 : page F2) page_num
    self1 self2 :
  extract_text p1 = extract_text p2 -> core self1 = core self2 ->
  core_result (_detect_figures_tables self1 p1 page_num) =
  core_result (_detect_figures_tables self2 p2 page_num).
Proof.
  intros Ht H. unfold _detect_figures_tables. rewrite Ht.
  destruct (extract_text p2) as [t|]; [|done]. cbn. f_equal.
  by do 3 apply fold_upd_structure_core.
Qed.

Lemma analyze_pages_core {F1 F2} (pdf1 : list (page F1)) : forall (pdf2 : list (page F2))
    page_num self1 self2,
  map extract_text pdf1 = map extract_text pdf2 -> core self1 = core self2 ->
  core_result (analyze_pages self1 page_num pdf1) =
  core_result (analyze_pages self2 page_num pdf2).
Proof.
  induction pdf1 as [|p1 pdf1 IH]; intros [|p2 pdf2] n self1 self2 Hm H; try done.
  { cbn. by rewrite H. }
  injection Hm as Ht Hm. cbn [analyze_pages]. rewrite <-Ht.
  destruct (extract_text p1) as [[|a t]|] eqn:E; cbn [truthy bind];
    [by apply IH| |by apply IH].
  pose proof (_detect_figures_tables_core p1 p2 n
                (_analyze_page_structure self1 (a :: t) n)
                (_analyze_page_structure self2 (a :: t) n)) as Hd.
  rewrite E in Hd. specialize (Hd Ht (_analyze_page_structure_core _ _ _ _ H)).
  destruct (_detect_figures_tables _ p1 n) as [e1|s1],
           (_detect_figures_tables _ p2 n) as [e2|s2]; try done.
  cbn in Hd. injection Hd as Hd. cbn [bind]. apply IH; [done|].
  unfold core. by f_equal.
Qed.

(** C9. Two runs of the classifier, each on a fresh instance, over documents
    whose pages carry the same texts in the same order come to the same end:
    both return the same map, or both raise the same exception, whatever the
    file paths and whatever else the pages hold. *)
Theorem C9_fresh_runs_agree {F1 F2} (path1 path2 : text)
    (pdf1 : list (page F1)) (pdf2 : list (page F2)) :
  map extract_text pdf1 = map extract_text pdf2 ->
  map_academic_book path1 pdf1 = map_academic_book path2 pdf2.
Proof.
  intros Hm. unfold map_academic_book, analyze.
  pose proof (analyze_pages_core pdf1 pdf2 1 (__init__ path1) (__init__ path2) Hm
                eq_refl) as H.
  destruct (analyze_pages _ 1 pdf1) as [e1|s1], (analyze_pages _ 1 pdf2) as [e2|s2];
    try done.
  - cbn in *. congruence.
  - cbn in *. injection H as H _. unfold _generate_book_map. by rewrite H.
Qed.

Lemma C9_fresh_runs_agree_witness :
  let p1 : page nat :=
    {| extract_text := Some (txt "Chapter 3. Storage Engines");
       extract_words := [{| w_text := txt "Chapter"; w_size := 12%nat |}] |} in
  let p2 : page unit :=
    {| extract_text := Some (txt "Chapter 3. Storage Engines"); extract_words := [] |} in
  map extract_text [p1] = map extract_text [p2]
  /\ map_academic_book (txt "a.pdf") [p1] = map_academic_book (txt "b.pdf") [p2].
Proof.
  split; [reflexivity|]. apply (C9_fresh_runs_agree (txt "a.pdf") (txt "b.pdf")).
  reflexivity.
Defined.

(** ** The missing-chapters check *)




Lemma StronglySorted_filter {A} (R : relation A) (P : A -> Prop)
    `{!forall x, Decision (P x)} (l : list A) :
  StronglySorted R l -> StronglySorted R (filter P l).
Proof.
  induction 1 as [|x l Hl IH Hx]; [constructor|].
  rewrite filter_cons. destruct (decide (P x)); [|done].
  constructor; [done|]. apply Forall_forall. intros y Hy.
  apply list_elem_of_filter in Hy as [_ Hy].
  rewrite Forall_forall in Hx. by apply Hx.
Qed.





(** ** The final sort of the locator *)

Section sort_by.
Context {A : Type} (key : A -> Z).

Lemma insert_by_Permutation x l : insert_by key x l ≡ₚ x :: l.
Proof.
  induction l as [|y l IH]; [done|]. cbn.
  destruct (key x <=? key y); [done|]. by rewrite IH, Permutation_swap.
Qed.

Lemma sort_by_Permutation l : sort_by key l ≡ₚ l.
Proof.
  induction l as [|x l IH]; [done|]. cbn. by rewrite insert_by_Permutation, IH.
Qed.

Lemma insert_by_Sorted x l :
  Sorted (fun a b => key a <= key b) l ->
  Sorted (fun a b => key a <= key b) (insert_by key x l).
Proof.
  induction 1 as [|y l Hl IH Hy]; [by repeat constructor|]. cbn.
  destruct (key x <=? key y) eqn:E.
  - apply Z.leb_le in E. by repeat constructor.
  - apply Z.leb_gt in E. constructor; [done|].
    destruct l as [|z l]; cbn in *.
    + constructor. lia.
    + destruct (key x <=? key z); constructor; [lia|]. by inversion Hy.
Qed.

Lemma sort_by_Sorted l : Sorted (fun a b => key a <= key b) (sort_by key l).
Proof.
  induction l as [|x l IH]; [constructor|]. by apply insert_by_Sorted.
Qed.

(** Stability: the elements with a given key keep their order. *)
Lemma insert_by_filter k x l :
  filter (fun y => key y = k) (insert_by key x l) =
  filter (fun y => key y = k) (x :: l).
Proof.
  induction l as [|y l IH]; [done|]. cbn [insert_by].
  destruct (key x <=? key y) eqn:E; [done|]. apply Z.leb_gt in E.
  rewrite filter_cons, IH, !filter_cons.
  destruct (decide (key y = k)), (decide (key x = k)); try done. lia.
Qed.

Lemma sort_by_stable k l :
  filter (fun y => key y = k) (sort_by key l) = filter (fun y => key y = k) l.
Proof.
  induction l as [|x l IH]; [done|]. cbn [sort_by foldr].
  rewrite insert_by_filter, !filter_cons. fold (sort_by key l). by rewrite IH.
Qed.
End sort_by.

Lemma scan_match_spec {F} (page : page F) page_num text results m rs :
  scan_match page page_num text results m = ret rs ->
  exists new, rs = results ++ new /\ Forall (fun a => hit_page_num a = page_num) new.
Proof.
  unfold scan_match. destruct (search number_re _); [|done].
  destruct (_ && _).
  - intros [= <-]. eexists [_]. split; [done|]. by repeat constructor.
  - intros [= <-]. exists []. by rewrite app_nil_r.
Qed.

Lemma scan_matches_spec {F} (page : page F) page_num text ms : forall results rs,
  scan_matches page page_num text results ms = ret rs ->
  exists new, rs = results ++ new /\ Forall (fun a => hit_page_num a = page_num) new.
Proof.
  induction ms as [|m ms IH]; intros results rs H; cbn [scan_matches] in H.
  - injection H as <-. exists []. by rewrite app_nil_r.
  - destruct (scan_match page page_num text results m) as [e|r1] eqn:E;
      cbn [bind] in H; [done|].
    apply scan_match_spec in E as (n1 & -> & H1).
    apply IH in H as (n2 & -> & H2). exists (n1 ++ n2).
    split; [by rewrite app_assoc|]. by apply Forall_app.
Qed.

(** The hits are collected in the order of the pages. *)
Lemma scan_pages_sorted {F} (pages : list (page F)) : forall page_num results rs,
  scan_pages page_num results pages = ret rs ->
  StronglySorted page_le results ->
  Forall (fun a => hit_page_num a <= page_num) results ->
  StronglySorted page_le rs.
Proof.
  induction pages as [|p pages IH]; intros n results rs H Hs Hb;
    cbn [scan_pages] in H.
  - by injection H as <-.
  - destruct (extract_text p) as [t|]; [|done].
    destruct (scan_matches p n t results (finditer pattern t)) as [e|r1] eqn:E;
      cbn [bind] in H; [done|].
    apply scan_matches_spec in E as (new & -> & Hn).
    eapply IH; [exact H| |].
    + apply StronglySorted_app_2; [|done|].
      * intros a b Ha Hb'. rewrite Forall_forall in Hb, Hn.
        unfold page_le. rewrite (Hn _ Hb'). by apply Hb.
      * clear -Hn. induction Hn as [|a new Ha Hn IH]; constructor; [done|].
        eapply Forall_impl; [exact Hn|]. intros b Hb. unfold page_le. cbn in *. lia.
    + apply Forall_app. split.
      * eapply Forall_impl; [exact Hb|]. intros; cbn in *; lia.
      * eapply Forall_impl; [exact Hn|]. intros; cbn in *; lia.
Qed.

(** C10. In the list returned by the locator, of two records with the same
    chapter number the one that comes first is from the earlier page (or from
    the same page). *)
Theorem C10_same_chapter_in_page_order {F} (pdf : list (page F))
    (results l1 l2 l3 : list (hit F)) (a b : hit F) :
  find_chapters_with_details pdf = ret results ->
  results = l1 ++ a :: l2 ++ b :: l3 ->
  hit_chapter_num a = hit_chapter_num b ->
  hit_page_num a <= hit_page_num b.
Proof.
  unfold find_chapters_with_details. intros H Hr Hk.
  destruct (scan_pages 0 [] pdf) as [e|raw] eqn:E; cbn [bind] in H; [done|].
  injection H as <-.
  apply scan_pages_sorted in E; [|constructor|constructor].
  apply (StronglySorted_filter _ (fun y => hit_chapter_num y = hit_chapter_num a)) in E.
  rewrite <-(sort_by_stable hit_chapter_num), Hr in E.
  rewrite filter_app, filter_cons_True, filter_app, filter_cons_True in E by done.
  apply StronglySorted_app_1_r in E. inversion E as [|? ? _ Hall]; subst.
  rewrite Forall_app in Hall. destruct Hall as [_ Hall].
  by inversion Hall.
Qed.

Lemma C10_same_chapter_in_page_order_witness :
  let pg (t : text) : page unit :=
    {| extract_text := Some t; extract_words := [] |} in
  let h (n p : Z) (c : text) : hit unit :=
    {| hit_chapter_num := n; hit_page_num := p; hit_font_size := None;
       hit_context := c; hit_chapter_text := txt "Chapter 1: " |} in
  let pdf := [pg (txt "Chapter 1: Intro"); pg (txt "see Chapter 1: again")] in
  let a := h 1 0 (txt "Chapter 1: Intro") in
  let b := h 1 1 (txt "see Chapter 1: again") in
  find_chapters_with_details pdf = ret [a; b]
  /\ [a; b] = [] ++ a :: [] ++ b :: []
  /\ hit_chapter_num a = hit_chapter_num b
  /\ hit_page_num a <= hit_page_num b.
Proof.
  intros pg h pdf a b.
  assert (find_chapters_with_details pdf = ret [a; b]) as H
    by (vm_compute; reflexivity).
  split; [exact H|]. split; [reflexivity|]. split; [reflexivity|].
  exact (C10_same_chapter_in_page_order pdf [a; b] [] [] [] a b H eq_refl eq_refl).
Defined.

(** What [re.match] and the members of [re.finditer] are made of. *)
Lemma match_here_Some r pos s m :
  match_here r pos s = Some m ->
  exists p ps, paths r (pos =? 0)%nat s [] = p :: ps
    /\ m = {| m_start := pos; m_end := pos + length (p_text p);
              m_text := p_text p; m_caps := p_caps p |}.
Proof.
  unfold match_here. destruct (paths r _ s []) as [|p ps]; [done|].
  intros [= <-]. by exists p, ps.
Qed.

Lemma match_here_None r pos s :
  match_here r pos s = None <-> paths r (pos =? 0)%nat s [] = [].
Proof. unfold match_here. by destruct (paths r _ s []). Qed.

(** A match reads a word of the pattern off the front of the text. *)
Lemma match_here_sound r pos s m :
  match_here r pos s = Some m ->
  exists rest, s = m_text m ++ rest /\ lang r (m_text m)
               /\ m_start m = pos /\ m_end m = (pos + length (m_text m))%nat.
Proof.
  intros (p & ps & Hp & ->)%match_here_Some.
  destruct (paths_sound r (pos =? 0)%nat s [] p) as [E Hl]; [rewrite Hp; by left|].
  by exists (p_rest p).
Qed.

(** Inversion of the language of the derived forms. *)
Lemma lang_lit l u : lang (lit l) u -> u = txt l.
Proof.
  revert u. induction l as [|a l IH]; intros u H; cbn in H.
  - by inversion H.
  - inversion H as [| |? ? u1 u2 H1 H2| | | | | | |]; subst.
    inversion H1 as [|? b Hb| | | | | | | |]; subst.
    apply Ascii.eqb_eq in Hb as <-. cbn. f_equal. by apply IH.
Qed.

Lemma lang_Star_Cls p u : lang (Star (Cls p)) u -> Forall (fun a => p a = true) u.
Proof.
  remember (Star (Cls p)) as r eqn:Hr. induction 1; try done.
  injection Hr as ->. apply Forall_app. split; [|by apply IHlang2].
  inversion H; subst. by repeat constructor.
Qed.

Lemma lang_Plus_Cls p u :
  lang (Plus (Cls p)) u ->
  exists a u', u = a :: u' /\ p a = true /\ Forall (fun a => p a = true) u'.
Proof.
  intros H. inversion H as [| |? ? u1 u2 H1 H2| | | | | | |]; subst.
  inversion H1; subst. apply lang_Star_Cls in H2. by eexists _, _.
Qed.

Lemma lang_chr a u : lang (chr a) u -> u = [a].
Proof. inversion 1 as [|? b Hb| | | | | | | |]; subst. by apply Ascii.eqb_eq in Hb as <-. Qed.

(** Inversion of a hypothesis [lang r u] along the constructors of [r]. *)
Ltac inv_lang H :=
  lazymatch type of H with
  | lang (cat _) _ => unfold cat in H; cbn [foldr] in H; inv_lang H
  | lang (lit _) _ => apply lang_lit in H; subst
  | lang (chr _) _ => apply lang_chr in H; subst
  | lang (Plus (Cls _)) _ =>
      let a := fresh "a" in let u := fresh "u" in
      let H1 := fresh "L" in let H2 := fresh "L" in
      apply lang_Plus_Cls in H as (a & u & -> & H1 & H2)
  | lang (Plus digit) _ => unfold digit in H; inv_lang H
  | lang (Plus space) _ => unfold space in H; inv_lang H
  | lang (Plus any) _ => unfold any in H; inv_lang H
  | lang (Plus (set _)) _ => unfold set in H; inv_lang H
  | lang (Star (Cls _)) _ => apply lang_Star_Cls in H
  | lang (Star digit) _ => unfold digit in H; inv_lang H
  | lang (Star space) _ => unfold space in H; inv_lang H
  | lang (set _) _ => unfold set in H; inv_lang H
  | lang digit _ => unfold digit in H; inv_lang H
  | lang space _ => unfold space in H; inv_lang H
  | lang (Opt _) _ => unfold Opt in H; inv_lang H
  | lang (Seq _ _) _ =>
      let H1 := fresh "L" in let H2 := fresh "L" in
      inversion H as [| |? ? ? ? H1 H2| | | | | | |]; subst; clear H;
      inv_lang H1; inv_lang H2
  | lang (Alt _ _) _ =>
      let H1 := fresh "L" in
      inversion H as [| | |? ? ? H1|? ? ? H1| | | | |]; subst; clear H; inv_lang H1
  | lang (Grp _ _) _ =>
      let H1 := fresh "L" in
      inversion H as [| | | | | | |? ? ? H1| |]; subst; clear H; inv_lang H1
  | lang Eps _ => inversion H; subst; clear H
  | lang Bol _ => inversion H; subst; clear H
  | lang Eol _ => inversion H; subst; clear H
  | lang (Cls _) _ =>
      let H1 := fresh "L" in
      inversion H as [|? ? H1| | | | | | | |]; subst; clear H
  | _ => idtac
  end.

(** A chapter line starts with "C", a section line with a digit. *)
Lemma chapter_re_head line m :
  re_match chapter_re line = Some m -> exists s, line = "C"%char :: s.
Proof.
  intros (rest & -> & H & _)%match_here_sound. unfold chapter_re in H.
  inv_lang H; cbn; eauto.
Qed.

Lemma section_re_head line m :
  re_match section_re line = Some m -> exists a s, line = a :: s /\ is_digit a = true.
Proof.
  intros (rest & -> & H & _)%match_here_sound. unfold section_re in H.
  inv_lang H; cbn; eauto.
Qed.

(** ** Reference headings *)

Lemma paths_lit_i l bol s c :
  paths (lit_i l) bol s c =
  if is_prefix_i (txt l) s
  then [{| p_text := take (length (txt l)) s; p_rest := drop (length (txt l)) s;
           p_caps := c |}]
  else [].
Proof.
  revert bol s; induction l as [|a l IH]; intros bol s; [reflexivity|].
  cbn [lit_i txt list_ascii_of_string is_prefix_i length].
  rewrite paths_Seq. unfold chr_i. rewrite paths_Cls.
  destruct s as [|b s]; [reflexivity|].
  destruct (Ascii.eqb (to_lower b) (to_lower a)) eqn:E; [|reflexivity].
  rewrite bind_singleton. cbn [p_text p_rest p_caps andb drop take]. rewrite IH.
  fold (txt l). by destruct (is_prefix_i (txt l) s).
Qed.

Lemma is_prefix_i_whole l s :
  is_prefix_i l s = true /\ drop (length l) s = [] <-> ci_eq s l.
Proof.
  unfold ci_eq. revert s. induction l as [|a l IH]; intros s.
  - cbn. rewrite drop_0. split; [by intros [_ ->]|]. by destruct s.
  - destruct s as [|b s]; cbn; [split; [by intros []|done]|].
    rewrite andb_true_iff, Ascii.eqb_eq. specialize (IH s). split.
    + intros [[-> H1] H2]. f_equal. by apply IH.
    + intros [= -> H]. apply IH in H. tauto.
Qed.

(** One alternative of the pattern: the whole line, up to case. *)
Lemma paths_whole_line_i l s c :
  paths (cat [Bol; lit_i l; Eol]) true s c =
  if is_prefix_i (txt l) s && at_eol (drop (length (txt l)) s)
  then [{| p_text := take (length (txt l)) s; p_rest := drop (length (txt l)) s;
           p_caps := c |}]
  else [].
Proof.
  unfold cat. cbn [foldr]. rewrite paths_Seq, paths_Bol, bind_singleton.
  cbn [p_text p_rest p_caps is_nil andb]. rewrite paths_Seq, paths_lit_i.
  destruct (is_prefix_i (txt l) s); [|reflexivity].
  rewrite bind_singleton. cbn [p_text p_rest p_caps andb].
  rewrite paths_Seq, paths_Eol.
  destruct (at_eol (drop (length (txt l)) s)); [|reflexivity].
  cbn. unfold then_. cbn. by rewrite !app_nil_r.
Qed.

(** A text without line feed, as the lines of a page are. *)
Lemma no_nl s : forallb (fun a => negb (Ascii.eqb a nl)) s = true -> nl ∉ s.
Proof.
  induction s as [|a s IH]; cbn; [intros _; apply not_elem_of_nil|].
  intros [Ha Hs]%andb_true_iff. apply not_elem_of_cons. split; [|by apply IH].
  intros <-. by rewrite Ascii.eqb_refl in Ha.
Qed.

Lemma split_no_sep sep s : Forall (fun l => sep ∉ l) (split sep s).
Proof.
  induction s as [|a s IH]; cbn.
  - repeat constructor. apply not_elem_of_nil.
  - destruct (Ascii.eqb a sep) eqn:E.
    + constructor; [apply not_elem_of_nil|done].
    + destruct (split sep s) as [|l ls]; inversion IH; subst.
      * repeat constructor. apply not_elem_of_cons. split; [|apply not_elem_of_nil].
        intros <-. by rewrite Ascii.eqb_refl in E.
      * constructor; [|done]. apply not_elem_of_cons. split; [|done].
        intros <-. by rewrite Ascii.eqb_refl in E.
Qed.

Lemma at_eol_no_nl s : nl ∉ s -> at_eol s = true <-> s = [].
Proof.
  intros Hs. destruct s as [|a [|b s]]; cbn; [done| |done].
  split; [|done]. intros ->%Ascii.eqb_eq. exfalso. apply Hs. by left.
Qed.

(** The pattern matches exactly the lines that are, up to case, one of the two
    words. *)
Lemma references_re_match line :
  nl ∉ line ->
  is_Some (re_match references_re line) <->
  ci_eq line (txt "References") \/ ci_eq line (txt "Bibliography").
Proof.
  intros Hnl. unfold re_match, match_here, references_re. cbn [Nat.eqb].
  rewrite paths_Alt, !paths_whole_line_i.
  rewrite <-!is_prefix_i_whole.
  assert (forall n, at_eol (drop n line) = true <-> drop n line = []) as Heol.
  { intros n. apply at_eol_no_nl. intros H. by apply Hnl, (subseteq_drop n). }
  destruct (is_prefix_i (txt "References") line) eqn:E1;
    destruct (at_eol (drop (length (txt "References")) line)) eqn:E2;
    destruct (is_prefix_i (txt "Bibliography") line) eqn:E3;
    destruct (at_eol (drop (length (txt "Bibliography")) line)) eqn:E4;
    cbn [andb app];
    rewrite <-?Heol, ?E2, ?E4;
    (split; [intros [? H]; try discriminate H; tauto
            |intros [[? ?]|[? ?]]; try discriminate; eauto]).
Qed.

Lemma ci_eq_head a s l b :
  ci_eq (a :: s) (b :: l) -> to_lower a = to_lower b.
Proof. by intros [= -> _]. Qed.

Lemma to_lower_r_or_b a :
  to_lower a = "r"%char \/ to_lower a = "b"%char ->
  a ≠ "C"%char /\ is_digit a = false.
Proof.
  destruct a as [[] [] [] [] [] [] [] []]; vm_compute; intros [H|H];
    try discriminate H; split; congruence.
Qed.

(** C6. A line of a page (a text without line feed, see [split_no_sep]) that
    is, up to the case of its letters, exactly "References" or "Bibliography"
    adds one reference record holding the line and the page number: the
    instance after the line is the instance before it with that record at the
    end of its reference list, and nothing else changed.  Any other line
    leaves the reference list as it is, as "See References below" does. *)
Theorem C6_reference_heading_is_the_whole_line (page_num : Z)
    (self : AcademicBookMapper) (line : text) :
  nl ∉ line ->
  (ci_eq line (txt "References") \/ ci_eq line (txt "Bibliography") ->
   analyze_line page_num self line =
   {| file_path := file_path self;
      structure :=
        {| toc := toc (structure self);
           chapters := chapters (structure self);
           sections := sections (structure self);
           figures := figures (structure self);
           tables := tables (structure self);
           equations := equations (structure self);
           references :=
             references (structure self)
             ++ [{| ref_title := strip line; ref_page := page_num |}];
           appendices := appendices (structure self) |};
      current_chapter := current_chapter self;
      hierarchy := hierarchy self |})
  /\ (~ (ci_eq line (txt "References") \/ ci_eq line (txt "Bibliography")) ->
      references (structure (analyze_line page_num self line)) =
      references (structure self))
  /\ references (structure (analyze_line page_num self (txt "See References below"))) =
     references (structure self).
Proof.
  intros Hnl. pose proof (references_re_match line Hnl) as Href.
  split; [|split].
  - intros Hci. unfold analyze_line.
    assert (exists a s, line = a :: s /\ a ≠ "C"%char /\ is_digit a = false)
      as (a & s & -> & Ha1 & Ha2).
    { destruct line as [|a s]; [by destruct Hci|]. exists a, s. split; [done|].
      apply to_lower_r_or_b. destruct Hci as [H|H]; apply ci_eq_head in H; eauto. }
    destruct (re_match chapter_re (a :: s)) eqn:E1.
    { apply chapter_re_head in E1 as (? & [= -> _]). done. }
    destruct (re_match section_re (a :: s)) eqn:E2.
    { apply section_re_head in E2 as (? & ? & [= <- _] & H). congruence. }
    apply Href in Hci as [m ->]. done.
  - intros Hci. unfold analyze_line.
    destruct (re_match chapter_re line); [done|].
    destruct (re_match section_re line).
    { by destruct (current_chapter self). }
    destruct (re_match references_re line) eqn:E.
    { exfalso. apply Hci, Href. by eexists. }
    by destruct (re_match appendix_re line).
  - unfold analyze_line.
    replace (re_match chapter_re _) with (@None match_obj) by (vm_compute; reflexivity).
    replace (re_match section_re _) with (@None match_obj) by (vm_compute; reflexivity).
    replace (re_match references_re _) with (@None match_obj) by (vm_compute; reflexivity).
    replace (re_match appendix_re _) with (@None match_obj) by (vm_compute; reflexivity).
    reflexivity.
Qed.

Lemma C6_reference_heading_is_the_whole_line_witness :
  (nl ∉ txt "references")
  /\ analyze_line 7 (__init__ (txt "book.pdf")) (txt "references") =
     {| file_path := txt "book.pdf";
        structure :=
          {| toc := []; chapters := []; sections := []; figures := [];
             tables := []; equations := [];
             references := [{| ref_title := txt "references"; ref_page := 7 |}];
             appendices := [] |};
        current_chapter := None;
        hierarchy := [] |}.
Proof.
  assert (nl ∉ txt "references") as Hnl by (apply no_nl; reflexivity).
  split; [exact Hnl|].
  destruct (C6_reference_heading_is_the_whole_line 7 (__init__ (txt "book.pdf"))
              (txt "references") Hnl) as (H & _ & _).
  rewrite H; [reflexivity|]. left. reflexivity.
Defined.

(** ** Chapter headings *)

(** From here on the matcher is taken apart through its equations only. *)
Arguments paths : simpl never.
Arguments cat : simpl never.


Lemma digit_class a :
  is_digit a = true ->
  is_space a = false /\ in_set "IVXLC" a = false /\ in_set ".:" a = false.
Proof. destruct a as [[] [] [] [] [] [] [] []]; vm_compute; intros; try discriminate; auto. Qed.



Lemma take_while_app p u v :
  Forall (fun a => p a = true) u -> stops p v -> take_while p (u ++ v) = u.
Proof.
  induction 1 as [|a u Ha _ IH]; intros Hv; cbn.
  - destruct v as [|b v]; [done|]. cbn in *. by rewrite Hv.
  - by rewrite Ha, IH.
Qed.

Lemma drop_while_app p u v :
  Forall (fun a => p a = true) u -> stops p v -> drop_while p (u ++ v) = v.
Proof.
  induction 1 as [|a u Ha _ IH]; intros Hv; cbn.
  - destruct v as [|b v]; [done|]. cbn in *. by rewrite Hv.
  - by rewrite Ha, IH.
Qed.

Lemma take_while_all p u : Forall (fun a => p a = true) u -> take_while p u = u.
Proof. intros H. rewrite <-(app_nil_r u) at 1. by apply take_while_app. Qed.

Lemma drop_while_all p u : Forall (fun a => p a = true) u -> drop_while p u = [].
Proof. intros H. rewrite <-(app_nil_r u). by apply drop_while_app. Qed.

Lemma paths_Seq_single r1 r2 bol s c p1 :
  paths r1 bol s c = [p1] ->
  paths (Seq r1 r2) bol s c =
  then_ p1 <$> paths r2 (bol && is_nil (p_text p1)) (p_rest p1) (p_caps p1).
Proof. intros H. by rewrite paths_Seq, H, bind_singleton. Qed.

(** A run of a class followed by a pattern that cannot start with a character
    of the class: the run is taken whole. *)
Lemma paths_Plus_Cls_Seq p r2 bol a u v c :
  p a = true -> Forall (fun a => p a = true) u -> stops p v ->
  (forall b a' s' c', p a' = true -> paths r2 b (a' :: s') c' = []) ->
  paths (Seq (Plus (Cls p)) r2) bol (a :: u ++ v) c =
  then_ {| p_text := a :: u; p_rest := v; p_caps := c |} <$> paths r2 false v c.
Proof.
  intros Ha Hu Hv Hr. rewrite paths_Seq, paths_Plus_Cls, Ha, list_fmap_bind.
  rewrite star_cls_bind_longest.
  - cbn. rewrite take_while_app, drop_while_app by done. by rewrite andb_false_r.
  - intros u' a' s' c' Ha'. cbn. by rewrite andb_false_r, Hr.
Qed.

Lemma strip_title_of rest : strip (title_of rest) = strip rest.
Proof.
  unfold strip, lstrip. f_equal.
  induction rest as [|a rest IH]; [done|]. cbn [title_of drop_while].
  destruct (is_space a) eqn:E.
  - destruct rest as [|b rest]; [cbn; by rewrite E|]. exact IH.
  - cbn. by rewrite E.
Qed.

Lemma star_cls_head p s c :
  exists ps, star_cls p s c =
    {| p_text := take_while p s; p_rest := drop_while p s; p_caps := c |} :: ps.
Proof.
  induction s as [|a s [ps IH]]; cbn; [by eexists|].
  destruct (p a); [|by eexists]. rewrite IH. cbn. by eexists.
Qed.

Lemma Forall_any s : nl ∉ s -> Forall (fun a => negb (Ascii.eqb a nl) = true) s.
Proof.
  intros H. apply Forall_forall. intros a Ha. apply negb_true_iff, Ascii.eqb_neq.
  by intros ->.
Qed.

(** On a text without line feed, ".+" takes all of it first. *)
Lemma paths_Plus_any bol s c :
  s ≠ [] -> nl ∉ s ->
  exists ps, paths (Plus any) bol s c =
    {| p_text := s; p_rest := []; p_caps := c |} :: ps.
Proof.
  intros Hs Hnl. apply Forall_any in Hnl. destruct s as [|a s]; [done|].
  inversion Hnl as [|? ? Ha Hs']; subst. unfold any. rewrite paths_Plus_Cls, Ha.
  destruct (star_cls_head (fun x => negb (Ascii.eqb x nl)) s c) as [ps ->].
  rewrite take_while_all, drop_while_all by done. cbn. by eexists.
Qed.

Lemma paths_title_group bol s c :
  s ≠ [] -> nl ∉ s ->
  exists ps, paths (cat [Grp 2 (Plus any)]) bol s c =
    {| p_text := s; p_rest := []; p_caps := (2%nat, s) :: c |} :: ps.
Proof.
  intros Hs Hnl. unfold cat. cbn [foldr]. rewrite paths_Seq, paths_Grp.
  destruct (paths_Plus_any bol s c Hs Hnl) as [ps ->].
  cbn. rewrite paths_Eps. cbn. unfold then_. cbn. rewrite app_nil_r. by eexists.
Qed.

Lemma paths_title_group_nil bol c : paths (cat [Grp 2 (Plus any)]) bol [] c = [].
Proof. reflexivity. Qed.

(** Blanks, then the title: the first path gives the title [title_of]. *)
Lemma star_space_then_title rest : forall (k : path -> list path) pre c,
  rest ≠ [] -> nl ∉ rest ->
  (forall u s c', s ≠ [] -> nl ∉ s ->
     exists ps, k {| p_text := u; p_rest := s; p_caps := c' |} =
       {| p_text := pre ++ u ++ s; p_rest := []; p_caps := (2%nat, s) :: c' |} :: ps) ->
  (forall u c', k {| p_text := u; p_rest := []; p_caps := c' |} = []) ->
  exists ps, star_cls is_space rest c ≫= k =
    {| p_text := pre ++ rest; p_rest := []; p_caps := (2%nat, title_of rest) :: c |} :: ps.
Proof.
  induction rest as [|a rest IH]; intros k pre c Hne Hnl Hk1 Hk0; [done|].
  cbn [star_cls title_of]. destruct (is_space a) eqn:Ea.
  - rewrite bind_app, bind_singleton, list_fmap_bind.
    destruct rest as [|b rest].
    + cbn [star_cls]. rewrite bind_singleton. cbn. unfold then_. cbn.
      rewrite Hk0. cbn.
      destruct (Hk1 [] [a] c) as [ps ->]; [done..|]. by eexists.
    + destruct (IH (k ∘ then_ {| p_text := [a]; p_rest := b :: rest; p_caps := c |})
                  (pre ++ [a]) c) as [ps ->].
      * done.
      * by apply not_elem_of_cons in Hnl as [_ ?].
      * intros u s c' Hs Hs'. cbn. unfold then_. cbn.
        destruct (Hk1 (a :: u) s c' Hs Hs') as [ps ->].
        rewrite <-app_assoc. by eexists.
      * intros u c'. cbn. apply Hk0.
      * rewrite <-app_assoc. cbn. by eexists.
  - rewrite bind_singleton. destruct (Hk1 [] (a :: rest) c) as [ps ->]; [done..|].
    by eexists.
Qed.

Lemma paths_blanks_title bol rest c :
  rest ≠ [] -> nl ∉ rest ->
  exists ps, paths (cat [Star space; Grp 2 (Plus any)]) bol rest c =
    {| p_text := rest; p_rest := []; p_caps := (2%nat, title_of rest) :: c |} :: ps.
Proof.
  intros Hne Hnl. unfold cat. cbn [foldr]. rewrite paths_Seq.
  unfold space. rewrite paths_Star_Cls.
  apply (star_space_then_title rest _ [] c Hne Hnl).
  - intros u s c' Hs Hs'. cbn [p_text p_rest p_caps].
    destruct (paths_title_group (bol && is_nil u) s c' Hs Hs') as [ps E].
    unfold cat in E. cbn [foldr] in E. rewrite E. cbn. by eexists.
  - intros u c'. cbn [p_text p_rest p_caps].
    pose proof (paths_title_group_nil (bol && is_nil u) c') as E.
    unfold cat in E. cbn [foldr] in E. by rewrite E.
Qed.

Lemma cat_cons r rs : cat (r :: rs) = Seq r (cat rs).
Proof. reflexivity. Qed.












(** ** Scanning a text for matches *)

(** Every reported match is a match at some position of the text. *)
Lemma finditer_from_sound r s : forall pos skip m,
  m ∈ finditer_from r pos skip s ->
  exists k, (k <= length s)%nat /\ match_here r (pos + k) (drop k s) = Some m.
Proof.
  induction s as [|a s IH]; intros pos skip m H.
  - destruct skip; cbn in H; [|by apply elem_of_nil in H].
    destruct (match_here r pos []) as [m0|] eqn:E; [|by apply elem_of_nil in H].
    apply list_elem_of_singleton in H as ->. exists 0%nat.
    by rewrite Nat.add_0_r.
  - assert (forall skip', m ∈ finditer_from r (S pos) skip' s ->
              exists k, (k <= length (a :: s))%nat
                        /\ match_here r (pos + k) (drop k (a :: s)) = Some m) as Hs.
    { intros skip' (k & Hk & Hm)%IH. exists (S k). cbn.
      rewrite Nat.add_succ_r. split; [lia|done]. }
    destruct skip; cbn [finditer_from] in H; [|by eapply Hs].
    destruct (match_here r pos (a :: s)) as [m0|] eqn:E; [|by eapply Hs].
    apply elem_of_cons in H as [->|H]; [|by eapply Hs].
    exists 0%nat. rewrite Nat.add_0_r. split; [cbn; lia|done].
Qed.

Lemma finditer_sound r w m :
  m ∈ finditer r w ->
  exists pre post, w = pre ++ m_text m ++ post /\ lang r (m_text m)
                   /\ m_start m = length pre
                   /\ m_end m = (length pre + length (m_text m))%nat.
Proof.
  intros (k & Hk & (rest & E & Hl & H1 & H2)%match_here_sound)%finditer_from_sound.
  cbn in H1, H2. exists (take k w), rest.
  rewrite length_take_le by done. rewrite <-E, take_drop. done.
Qed.

(** When the matches that start in a prefix of the text all end in it, the
    scan of the prefix does not disturb the scan of the rest. *)
Lemma finditer_from_prefix r pre rest : forall pos skip,
  (skip <= length pre)%nat ->
  (forall k m, (k < length pre)%nat ->
     match_here r (pos + k) (drop k pre ++ rest) = Some m ->
     (m_end m <= pos + length pre)%nat) ->
  exists ms, finditer_from r pos skip (pre ++ rest) =
             ms ++ finditer_from r (pos + length pre) 0 rest
             /\ Forall (fun m => (m_end m <= pos + length pre)%nat) ms.
Proof.
  induction pre as [|a pre IH]; intros pos skip Hskip H.
  - cbn in Hskip. assert (skip = 0%nat) as -> by lia.
    exists []. cbn. by rewrite Nat.add_0_r.
  - assert (forall skip', (skip' <= length pre)%nat ->
      exists ms, finditer_from r (S pos) skip' (pre ++ rest) =
                 ms ++ finditer_from r (pos + length (a :: pre)) 0 rest
                 /\ Forall (fun m => (m_end m <= pos + length (a :: pre))%nat) ms)
      as Hs.
    { intros skip' Hskip'. cbn [length]. rewrite Nat.add_succ_r.
      apply IH; [done|]. intros k m Hk Hm.
      specialize (H (S k) m). cbn in H. rewrite !Nat.add_succ_r in H.
      apply H; [lia|done]. }
    cbn [app]. destruct skip; cbn [finditer_from].
    + destruct (match_here r pos (a :: pre ++ rest)) as [m|] eqn:E.
      * specialize (H 0%nat m). cbn in H. rewrite Nat.add_0_r in H.
        specialize (H ltac:(lia) E).
        apply match_here_sound in E as (_ & _ & _ & E1 & E2).
        destruct (Hs (length (m_text m) - 1)%nat) as (ms & -> & Hms); [lia|].
        exists (m :: ms). split; [done|]. constructor; [|done]. cbn [length]. lia.
      * apply Hs. lia.
    + apply Hs. cbn in Hskip. lia.
Qed.

(** After a match, the scan goes on behind it. *)
Lemma finditer_from_skip r u : forall pos rest,
  finditer_from r pos (length u) (u ++ rest) =
  finditer_from r (pos + length u) 0 rest.
Proof.
  induction u as [|a u IH]; intros pos rest; cbn [length app finditer_from].
  - by rewrite Nat.add_0_r.
  - by rewrite IH, Nat.add_succ_r.
Qed.

Lemma finditer_from_match r pos a u rest m :
  match_here r pos (a :: u ++ rest) = Some m -> m_text m = a :: u ->
  finditer_from r pos 0 (a :: u ++ rest) =
  m :: finditer_from r (pos + length (a :: u)) 0 rest.
Proof.
  intros Hm Ht. cbn [finditer_from]. rewrite Hm, Ht. cbn [length].
  rewrite Nat.sub_succ, Nat.sub_0_r, finditer_from_skip. by rewrite Nat.add_succ_r.
Qed.

(** ** The chapter locator *)

Lemma pattern_lang u : lang pattern u -> exists ds, is_digits ds /\ u = token ds.
Proof.
  intros H. unfold pattern in H. inv_lang H.
  match goal with
  | H : is_digit ?a = true, H' : Forall _ ?u |- _ => exists (a :: u)
  end.
  split; [split; [done|by constructor]|].
  unfold token. cbn. by rewrite ?app_nil_r, <-?app_assoc.
Qed.

Lemma digit_not_colon a : is_digit a = true -> Ascii.eqb ":" a = false.
Proof. destruct a as [[] [] [] [] [] [] [] []]; vm_compute; intros; try discriminate; auto. Qed.

(** At a token the pattern matches, and it matches the token. *)
Lemma pattern_match_token pos ds post :
  is_digits ds ->
  match_here pattern pos (token ds ++ post) =
  Some {| m_start := pos; m_end := pos + length (token ds); m_text := token ds;
          m_caps := [] |}.
Proof.
  intros [Hne Hds]. destruct ds as [|d ds]; [done|].
  inversion Hds as [|? ? Hd Hds']; subst.
  assert (token (d :: ds) ++ post = txt "Chapter " ++ (d :: ds) ++ txt ": " ++ post)
    as Etok by (unfold token; by rewrite <-!app_assoc).
  assert (paths pattern (pos =? 0)%nat (token (d :: ds) ++ post) [] =
          [{| p_text := token (d :: ds); p_rest := post; p_caps := [] |}]) as E.
  { rewrite Etok. unfold pattern, token. rewrite cat_cons.
    rewrite (paths_Seq_single _ _ _ _ _
      {| p_text := txt "Chapter "; p_rest := d :: ds ++ txt ": " ++ post;
         p_caps := [] |}) by (by rewrite paths_lit).
    cbn [p_text p_rest p_caps]. rewrite cat_cons.
    change (Plus digit) with (Plus (Cls is_digit)).
    rewrite paths_Plus_Cls_Seq; [|done|done|done|].
    - rewrite cat_cons, paths_Seq, paths_lit.
      replace (is_prefix (txt ": ") _) with true by reflexivity.
      rewrite bind_singleton. cbn [p_text p_rest p_caps].
      replace (drop _ _) with post by reflexivity.
      unfold cat. cbn [foldr]. rewrite paths_Eps. cbn. unfold then_. cbn.
      done.
    - intros b a' s' c' Ha'. rewrite cat_cons, paths_Seq, paths_lit.
      cbn [is_prefix txt list_ascii_of_string].
      by rewrite (digit_not_colon _ Ha'). }
  unfold match_here. by rewrite E.
Qed.

(** The first run of digits of a text is what the number pattern finds. *)
Lemma chapter_number_rematch pos ds post :
  is_digits ds -> stops is_digit post ->
  match_here number_re pos (ds ++ post) =
  Some {| m_start := pos; m_end := pos + length ds; m_text := ds; m_caps := [] |}.
Proof.
  intros [Hne Hds] Hpost. destruct ds as [|d ds]; [done|].
  inversion Hds as [|? ? Hd Hds']; subst.
  unfold match_here, number_re. change (Plus digit) with (Plus (Cls is_digit)).
  cbn [app]. rewrite paths_Plus_Cls, Hd.
  destruct (star_cls_head is_digit (ds ++ post) []) as [ps ->].
  rewrite take_while_app, drop_while_app by done. reflexivity.
Qed.

Lemma search_number pre ds post :
  Forall (fun a => is_digit a = false) pre -> is_digits ds -> stops is_digit post ->
  exists d, search number_re (pre ++ ds ++ post) = Some d /\ m_text d = ds.
Proof.
  intros Hpre Hds Hpost. unfold search, finditer.
  enough (forall pos, exists d ms,
            finditer_from number_re pos 0 (pre ++ ds ++ post) = d :: ms
            /\ m_text d = ds) as H.
  { destruct (H 0%nat) as (d & ms & -> & Hd). by exists d. }
  induction Hpre as [|a pre Ha _ IH]; intros pos.
  - cbn [app]. pose proof (chapter_number_rematch pos ds post Hds Hpost) as Hm.
    destruct Hds as [Hne _]. destruct ds as [|d ds]; [done|].
    cbn [app finditer_from] in *. rewrite Hm. by eexists _, _.
  - cbn [app finditer_from].
    replace (match_here number_re pos (a :: pre ++ ds ++ post)) with (@None match_obj).
    + apply IH.
    + symmetry. apply match_here_None. unfold number_re.
      change (Plus digit) with (Plus (Cls is_digit)). by rewrite paths_Plus_Cls, Ha.
Qed.

(** What the loop body does with a match of the pattern: one record when the
    number is in 1..25, nothing otherwise; it does not raise. *)
Lemma scan_match_token {F} (page : page F) page_num text results m ds :
  is_digits ds -> m_text m = token ds ->
  scan_match page page_num text results m =
  ret (if (1 <=? int ds) && (int ds <=? 25)
       then results ++ [hit_of page page_num text m (int ds)]
       else results).
Proof.
  intros Hds Hm. unfold scan_match. rewrite Hm. unfold token at 1.
  destruct (search_number (txt "Chapter ") ds (txt ": ")) as (d & -> & ->);
    [by repeat constructor|done|done|].
  destruct (_ && _); [|done]. unfold hit_of, context_of, append. by rewrite Hm.
Qed.

Lemma finditer_pattern text m :
  m ∈ finditer pattern text -> exists ds, is_digits ds /\ m_text m = token ds.
Proof.
  intros (pre & post & _ & H & _)%finditer_sound.
  apply pattern_lang in H as (ds & Hds & ->). by exists ds.
Qed.

Lemma scan_matches_pattern {F} (page : page F) page_num text ms : forall results,
  (forall m, m ∈ ms -> exists ds, is_digits ds /\ m_text m = token ds) ->
  exists new, scan_matches page page_num text results ms = ret (results ++ new)
              /\ forall h, h ∈ new <-> made_from page page_num text ms h.
Proof.
  induction ms as [|m ms IH]; intros results Hms.
  - exists []. rewrite app_nil_r. split; [done|]. intros h. split.
    + by intros ?%elem_of_nil.
    + by intros (m & ds & ?%elem_of_nil & _).
  - destruct (Hms m) as (ds & Hds & Hm); [by left|].
    cbn [scan_matches]. rewrite (scan_match_token _ _ _ _ _ ds) by done. cbn [bind].
    set (new0 := if (1 <=? int ds) && (int ds <=? 25)
                 then [hit_of page page_num text m (int ds)] else []).
    replace (if (1 <=? int ds) && (int ds <=? 25)
             then results ++ [hit_of page page_num text m (int ds)] else results)
      with (results ++ new0)
      by (unfold new0; destruct (_ && _); [done|by rewrite app_nil_r]).
    destruct (IH (results ++ new0)) as (new & -> & Hnew).
    { intros m' Hm'. apply Hms. by right. }
    exists (new0 ++ new). split; [by rewrite app_assoc|].
    intros h. rewrite elem_of_app, Hnew. unfold made_from. split.
    + intros [Hh|(m' & ds' & H1 & H2)].
      * unfold new0 in Hh. destruct (_ && _) eqn:E; [|by apply elem_of_nil in Hh].
        apply list_elem_of_singleton in Hh as ->. exists m, ds.
        apply andb_true_iff in E as [E1%Z.leb_le E2%Z.leb_le].
        split; [by left|]. do 2 (split; [done|]). split; [lia|done].
      * exists m', ds'. split; [by right|done].
    + intros (m' & ds' & [->|H1]%elem_of_cons & H2 & H3 & H4 & ->).
      * left. assert (ds' = ds) as ->.
        { rewrite H3 in Hm. unfold token in Hm. by simplify_list_eq. }
        unfold new0. replace ((1 <=? int ds) && (int ds <=? 25)) with true.
        { by left. }
        symmetry. apply andb_true_iff. split; apply Z.leb_le; lia.
      * right. by exists m', ds'.
Qed.

Lemma scan_pages_text {F} (pages : list (page F)) : forall page_num results,
  Forall (fun p => extract_text p ≠ None) pages ->
  exists new, scan_pages page_num results pages = ret (results ++ new)
              /\ forall h, h ∈ new <-> located pages page_num h.
Proof.
  induction pages as [|p pages IH]; intros n results Hp.
  - exists []. rewrite app_nil_r. split; [done|]. intros h. split.
    + by intros ?%elem_of_nil.
    + by intros (i & ? & ? & ? & _).
  - inversion Hp as [|? ? Hp1 Hp2]; subst. cbn [scan_pages].
    destruct (extract_text p) as [t|] eqn:Et; [|done].
    destruct (scan_matches_pattern p n t (finditer pattern t) results)
      as (new1 & -> & H1); [apply finditer_pattern|].
    cbn [bind]. destruct (IH (n + 1) (results ++ new1) Hp2) as (new2 & -> & H2).
    exists (new1 ++ new2). split; [by rewrite app_assoc|].
    intros h. rewrite elem_of_app, H1, H2. unfold located. split.
    + intros [Hh|(i & page & text & Hi & Ht & Hh)].
      * exists 0%nat, p, t. by rewrite Z.add_0_r.
      * exists (S i), page, text. repeat split; try done.
        by replace (n + Z.of_nat (S i)) with (n + 1 + Z.of_nat i) by lia.
    + intros ([|i] & page & text & Hi & Ht & Hh).
      * left. cbn in Hi. injection Hi as <-. rewrite Et in Ht. injection Ht as <-.
        by rewrite Z.add_0_r in Hh.
      * right. exists i, page, text. repeat split; try done.
        by replace (n + 1 + Z.of_nat i) with (n + Z.of_nat (S i)) by lia.
Qed.

(** A page without text makes the locator raise [TypeError]. *)
Lemma scan_pages_no_text {F} (pages : list (page F)) : forall page_num results,
  Exists (fun p => extract_text p = None) pages ->
  scan_pages page_num results pages = raise TypeError.
Proof.
  induction pages as [|p pages IH]; intros n results Hp; [by inversion Hp|].
  cbn [scan_pages]. destruct (extract_text p) as [t|] eqn:Et; [|done].
  destruct (scan_matches_pattern p n t (finditer pattern t) results)
    as (new1 & -> & _); [apply finditer_pattern|].
  cbn [bind]. apply IH. inversion Hp; subst; [congruence|done].
Qed.

(** The list the locator returns holds the located records, and only them. *)
Lemma find_chapters_with_details_located {F} (pdf : list (page F)) results :
  find_chapters_with_details pdf = ret results ->
  forall h, h ∈ results <-> located pdf 0 h.
Proof.
  unfold find_chapters_with_details. intros H h.
  destruct (decide (Exists (fun p => extract_text p = None) pdf)) as [E|E].
  { by rewrite scan_pages_no_text in H. }
  apply not_Exists_Forall in E; [|intros p; apply _].
  destruct (scan_pages_text pdf 0 [] E) as (new & Hn & Hnew).
  rewrite Hn in H. cbn [bind app] in H. injection H as <-.
  by rewrite sort_by_Permutation, Hnew.
Qed.

(** A character is not in a literal it differs from everywhere. *)
Ltac not_in_literal H :=
  repeat (apply elem_of_cons in H as [H|H]; [discriminate H|]);
  by apply elem_of_nil in H.

(** A match of the pattern that starts before a token ends before it: after
    its first character a match holds no "C". *)
Lemma pattern_no_overlap pos p2 ds post m :
  p2 ≠ [] ->
  match_here pattern pos (p2 ++ token ds ++ post) = Some m ->
  (length (m_text m) <= length p2)%nat.
Proof.
  intros Hp2 (rest' & E & (ds' & [_ Hds'] & Hm)%pattern_lang & _)%match_here_sound.
  apply app_eq_inv in E as [(k & -> & _)|(k & Ek & E)].
  { rewrite length_app. lia. }
  destruct k as [|x k]; [by rewrite Ek, app_nil_r|]. exfalso.
  unfold token in E. cbn in E. injection E as <- _.
  rewrite Hm in Ek. destruct p2 as [|y p2]; [done|].
  unfold token in Ek. cbn in Ek. injection Ek as <- Ek.
  assert ("C"%char ∈ txt "hapter " ++ ds' ++ txt ": ") as Hin.
  { cbn. rewrite Ek. apply elem_of_app. right. by left. }
  rewrite !elem_of_app in Hin. destruct Hin as [Hin|[Hin|Hin]].
  - cbn in Hin. not_in_literal Hin.
  - rewrite Forall_forall in Hds'. by apply Hds' in Hin.
  - cbn in Hin. not_in_literal Hin.
Qed.

(** Every token of a page is found. *)
Lemma finditer_pattern_token pre ds post :
  is_digits ds ->
  exists m, m ∈ finditer pattern (pre ++ token ds ++ post)
            /\ m_start m = length pre /\ m_text m = token ds
            /\ m_end m = (length pre + length (token ds))%nat.
Proof.
  intros Hds. unfold finditer.
  destruct (finditer_from_prefix pattern pre (token ds ++ post) 0 0)
    as (ms & -> & _).
  - lia.
  - intros k m Hk Hm. pose proof Hm as (_ & _ & _ & E1 & E2)%match_here_sound.
    apply pattern_no_overlap in Hm.
    + rewrite length_drop in Hm. lia.
    + intros E. apply (f_equal length) in E. rewrite length_drop in E. cbn in E. lia.
  - assert (exists a s, token ds ++ post = a :: s) as (a & s & Es)
      by (unfold token; cbn; eauto).
    pose proof (pattern_match_token (0 + length pre) ds post Hds) as Hm.
    rewrite Es in *. cbn [finditer_from]. rewrite Hm.
    eexists. split; [apply elem_of_app; right; by left|]. done.
Qed.

Lemma token_inj ds1 ds2 : token ds1 = token ds2 -> ds1 = ds2.
Proof. unfold token. intros H. by simplify_list_eq. Qed.

(** C3 as the code has it.  The locator makes a record exactly for the
    occurrences of "Chapter ", one or more digits (any number of them) and
    ": " whose number, read as a decimal with leading zeros allowed, is in
    1..25: every record comes from such an occurrence on its page, and every
    such occurrence gives a record exactly when its number is in range.  So
    "Chapter 123: " gives no record, and "Chapter 007: " gives one, for
    chapter 7. *)
Theorem C3_locator_records {F} (pdf : list (page F)) (results : list (hit F)) :
  find_chapters_with_details pdf = ret results ->
  (forall h, h ∈ results ->
     exists ds page pre post,
       is_digits ds /\ hit_chapter_text h = token ds
       /\ hit_chapter_num h = int ds /\ 1 <= int ds <= 25
       /\ 0 <= hit_page_num h /\ pdf !! Z.to_nat (hit_page_num h) = Some page
       /\ extract_text page = Some (pre ++ token ds ++ post))
  /\ (forall i page pre ds post,
        pdf !! i = Some page ->
        extract_text page = Some (pre ++ token ds ++ post) ->
        is_digits ds ->
        (1 <= int ds <= 25 <->
         exists h, h ∈ results /\ hit_page_num h = Z.of_nat i
                   /\ hit_chapter_text h = token ds /\ hit_chapter_num h = int ds))
  /\ int (txt "123") = 123 /\ int (txt "007") = 7.
Proof.
  intros Hr. pose proof (find_chapters_with_details_located pdf results Hr) as Hloc.
  split; [|split; [|done]].
  - intros h (i & page & text & Hi & Ht & m & ds & Hm & Hds & Hmt & Hrange & ->)%Hloc.
    apply finditer_sound in Hm as (pre & post & -> & _). rewrite Hmt in Ht.
    exists ds, page, pre, post. unfold hit_of.
    cbn [hit_chapter_text hit_chapter_num hit_page_num].
    rewrite Z.add_0_l, Nat2Z.id. repeat split; try done; try apply Hds; lia.
  - intros i page pre ds post Hi Ht Hds. split.
    + intros Hrange.
      destruct (finditer_pattern_token pre ds post Hds) as (m & Hm & _ & Hmt & _).
      exists (hit_of page (Z.of_nat i) (pre ++ token ds ++ post) m (int ds)).
      split; [|done]. apply Hloc. exists i, page, (pre ++ token ds ++ post).
      split; [done|]. split; [done|]. by exists m, ds.
    + intros (h & (j & page' & text & _ & _ & m & ds' & _ & _ & Hmt & Hrange & ->)%Hloc
                & _ & Hh & _).
      unfold hit_of in Hh. cbn [hit_chapter_text] in Hh.
      rewrite Hmt in Hh. by apply token_inj in Hh as ->.
Qed.

Lemma C3_locator_records_witness :
  let pg (t : text) : page unit := {| extract_text := Some t; extract_words := [] |} in
  let h : hit unit :=
    {| hit_chapter_num := 7; hit_page_num := 0; hit_font_size := None;
       hit_context := txt "Chapter 007:"; hit_chapter_text := txt "Chapter 007: " |} in
  find_chapters_with_details [pg (txt "Chapter 007: ")] = ret [h]
  /\ exists ds, is_digits ds /\ hit_chapter_text h = token ds
                /\ hit_chapter_num h = int ds /\ 1 <= int ds <= 25.
Proof.
  intros pg h.
  assert (find_chapters_with_details [pg (txt "Chapter 007: ")] = ret [h]) as H
    by (vm_compute; reflexivity).
  split; [exact H|].
  destruct (C3_locator_records _ _ H) as (H1 & _).
  destruct (H1 h ltac:(by left)) as (ds & _ & _ & _ & ? & ? & ? & ? & _).
  by exists ds.
Defined.

(** A token with three digits whose number is in range gives a record. *)
Lemma C3_three_digit_token_counterexample :
  find_chapters_with_details
    [{| extract_text := Some (txt "Chapter 007: "); extract_words := @nil (word unit) |}]
  = ret [{| hit_chapter_num := 7; hit_page_num := 0; hit_font_size := None;
            hit_context := txt "Chapter 007:";
            hit_chapter_text := txt "Chapter 007: " |}].
Proof. vm_compute. reflexivity. Qed.




(** ** Figure captions *)

(** They match in the same way wherever the text stands in the subject. *)
Lemma paths_anchor_free r :
  anchor_free r = true -> forall b b' s c, paths r b s c = paths r b' s c.
Proof.
  induction r as [|q|r1 IH1 r2 IH2|r1 IH1 r2 IH2|r1 IH1|i r1 IH1| |];
    intros Hr b b' s c; try done.
  - cbn in Hr. apply andb_true_iff in Hr as [H1 H2].
    rewrite !paths_Seq, (IH1 H1 b b'). apply list_bind_ext; [|done].
    intros p1. f_equal. by apply IH2.
  - cbn in Hr. apply andb_true_iff in Hr as [H1 H2].
    by rewrite !paths_Alt, (IH1 H1 b b'), (IH2 H2 b b').
  - cbn in Hr. unfold paths; fold paths. destruct (length s); [done|].
    by rewrite (IH1 Hr b b').
  - cbn in Hr. by rewrite !paths_Grp, (IH1 Hr b b').
Qed.

Lemma match_here_anchor_free r pos pos' s :
  anchor_free r = true ->
  m_data <$> match_here r pos s = m_data <$> match_here r pos' s.
Proof.
  intros Hr. unfold match_here.
  rewrite (paths_anchor_free r Hr (pos =? 0)%nat (pos' =? 0)%nat).
  by destruct (paths r _ s []).
Qed.

Lemma finditer_from_anchor_free r s :
  anchor_free r = true ->
  forall pos pos' skip,
    m_data <$> finditer_from r pos skip s = m_data <$> finditer_from r pos' skip s.
Proof.
  intros Hr. induction s as [|a s IH]; intros pos pos' skip.
  - destruct skip; [|done]. cbn [finditer_from].
    pose proof (match_here_anchor_free r pos pos' [] Hr) as H.
    destruct (match_here r pos []), (match_here r pos' []); try done.
    cbn in *. injection H as H1 H2. unfold m_data. by rewrite H1, H2.
  - destruct skip; cbn [finditer_from]; [|apply IH].
    pose proof (match_here_anchor_free r pos pos' (a :: s) Hr) as H.
    destruct (match_here r pos (a :: s)) as [m|],
             (match_here r pos' (a :: s)) as [m'|]; try done.
    cbn in H. injection H as H1 H2. rewrite !fmap_cons. unfold m_data at 1 3.
    rewrite H1, H2. f_equal. apply IH.
Qed.

Lemma caption_of_m_data page_num ms ms' :
  m_data <$> ms = m_data <$> ms' ->
  map (caption_of page_num) ms = map (caption_of page_num) ms'.
Proof.
  revert ms'. induction ms as [|m ms IH]; intros [|m' ms'] H; try done.
  cbn in H. injection H as H1 H2 H3. cbn. f_equal; [|by apply IH].
  unfold caption_of, group. by rewrite H2.
Qed.

(** The line matchers leave the figure list alone. *)
Lemma analyze_line_figures page_num self line :
  figures (structure (analyze_line page_num self line)) = figures (structure self).
Proof.
  unfold analyze_line.
  destruct (re_match chapter_re line); [done|].
  destruct (re_match section_re line); [by destruct (current_chapter self)|].
  destruct (re_match references_re line); [done|].
  by destruct (re_match appendix_re line).
Qed.

Lemma _analyze_page_structure_figures self text page_num :
  figures (structure (_analyze_page_structure self text page_num)) =
  figures (structure self).
Proof.
  unfold _analyze_page_structure. generalize (split nl text) as ls.
  intros ls; revert self. induction ls as [|l ls IH]; intros self; [done|].
  cbn [fold_left]. by rewrite IH, analyze_line_figures.
Qed.

(** The page-level scan adds the captions of the page text, in order. *)
Lemma _detect_figures_tables_figures {F} self (page : page F) page_num text :
  extract_text page = Some text ->
  exists self', _detect_figures_tables self page page_num = ret self'
                /\ figures (structure self') =
                   figures (structure self) ++ captions_of figure_re text page_num.
Proof.
  intros Ht. unfold _detect_figures_tables. rewrite Ht. eexists. split; [done|].
  assert (forall A (g : A -> structure_dict -> structure_dict) (l : list A) self0,
    (forall x d, figures (g x d) = figures d) ->
    figures (structure (fold_left (fun self x => upd_structure (g x) self) l self0))
    = figures (structure self0)) as Hfold.
  { intros A g l. induction l as [|x l IH]; intros self0 Hg; [done|].
    cbn [fold_left]. rewrite IH by done. cbn. apply Hg. }
  rewrite (Hfold _ (fun x => upd_equations (append x))) by done.
  rewrite (Hfold _ (fun x => upd_tables (append x))) by done.
  generalize (captions_of figure_re text page_num) as l. intros l. revert self.
  induction l as [|x l IH]; intros self; [by rewrite app_nil_r|].
  cbn [fold_left]. rewrite IH. cbn. unfold append. by rewrite <-app_assoc.
Qed.

Lemma figure_re_match_line pos post :
  post = [] \/ (exists post', post = nl :: post') ->
  match_here figure_re pos (fig_line ++ post) =
  Some {| m_start := pos; m_end := pos + length fig_line; m_text := fig_line;
          m_caps := [(2%nat, txt "Replication topology"); (1%nat, txt "4.2")] |}.
Proof.
  intros [->|[post' ->]]; vm_compute; reflexivity.
Qed.

(** The captions of a page text that holds the line, when no earlier match
    reaches into it. *)
Lemma captions_of_fig_line page_num pre post :
  post = [] \/ (exists post', post = nl :: post') ->
  (forall k m, (k < length pre)%nat ->
     match_here figure_re k (drop k (pre ++ fig_line ++ post)) = Some m ->
     (m_end m <= length pre)%nat) ->
  exists ms,
    captions_of figure_re (pre ++ fig_line ++ post) page_num =
    map (caption_of page_num) ms
    ++ {| cap_number := txt "4.2"; cap_caption := txt "Replication topology";
          cap_page := page_num |}
    :: captions_of figure_re post page_num
    /\ Forall (fun m => (m_end m <= length pre)%nat) ms.
Proof.
  intros Hpost Hpre. unfold captions_of, finditer.
  destruct (finditer_from_prefix figure_re pre (fig_line ++ post) 0 0)
    as (ms & -> & Hms).
  - lia.
  - intros k m Hk Hm. cbn [Nat.add]. apply (Hpre k m Hk).
    by rewrite drop_app_le by lia.
  - exists ms. split; [|done]. cbn [Nat.add].
    pose proof (figure_re_match_line (length pre) post Hpost) as Hm.
    change (fig_line ++ post)
      with ("F"%char :: txt "igure 4.2: Replication topology" ++ post) in *.
    rewrite (finditer_from_match _ _ _ _ _ _ Hm eq_refl).
    rewrite map_app. f_equal. cbn [map]. f_equal.
    apply caption_of_m_data, finditer_from_anchor_free. reflexivity.
Qed.

(** C5 as the code has it.  Let the page text hold the line
    "Figure 4.2: Replication topology" up to the end of a line, and let every
    Figure match that starts before the line end before it.  Then the page
    adds to the figure list the records of those earlier matches, then one
    record with number "4.2" and caption "Replication topology", then the
    records of the text after the line.  The figure records of a page are the
    captions found in its text, whatever the line-level matchers do. *)
Theorem C5_figure_caption_line {F} (self : AcademicBookMapper) (page_num : Z)
    (page : page F) (pre post : text) :
  extract_text page = Some (pre ++ fig_line ++ post) ->
  post = [] \/ (exists post', post = nl :: post') ->
  (forall k m, (k < length pre)%nat ->
     match_here figure_re k (drop k (pre ++ fig_line ++ post)) = Some m ->
     (m_end m <= length pre)%nat) ->
  exists self' ms,
    analyze_pages self page_num [page] = ret self'
    /\ figures (structure self') =
       figures (structure self)
       ++ captions_of figure_re (pre ++ fig_line ++ post) page_num
    /\ captions_of figure_re (pre ++ fig_line ++ post) page_num =
       map (caption_of page_num) ms
       ++ {| cap_number := txt "4.2"; cap_caption := txt "Replication topology";
             cap_page := page_num |}
       :: captions_of figure_re post page_num
    /\ Forall (fun m => (m_end m <= length pre)%nat) ms.
Proof.
  intros Ht Hpost Hpre.
  destruct (captions_of_fig_line page_num pre post Hpost Hpre) as (ms & Hc & Hms).
  assert (exists a t, pre ++ fig_line ++ post = a :: t) as (a & t & E)
    by (destruct pre; cbn; eauto).
  rewrite E in *. cbn [analyze_pages]. rewrite Ht. cbn [truthy].
  destruct (_detect_figures_tables_figures
              (_analyze_page_structure self (a :: t) page_num) page page_num _ Ht)
    as (self' & -> & Hf).
  exists self', ms. cbn [bind]. split; [done|].
  by rewrite Hf, _analyze_page_structure_figures.
Qed.

Lemma C5_figure_caption_line_witness :
  let pre := txt "1. Intro" ++ [nl] in
  let post := nl :: txt "Text" in
  let page : page unit :=
    {| extract_text := Some (pre ++ fig_line ++ post); extract_words := [] |} in
  extract_text page = Some (pre ++ fig_line ++ post)
  /\ (post = [] \/ (exists post', post = nl :: post'))
  /\ (forall k m, (k < length pre)%nat ->
        match_here figure_re k (drop k (pre ++ fig_line ++ post)) = Some m ->
        (m_end m <= length pre)%nat)
  /\ exists self',
       analyze_pages (__init__ (txt "book.pdf")) 3 [page] = ret self'
       /\ figures (structure self') =
          [{| cap_number := txt "4.2"; cap_caption := txt "Replication topology";
              cap_page := 3 |}].
Proof.
  intros pre post page.
  assert (post = [] \/ (exists post', post = nl :: post')) as H2
    by (right; by eexists).
  assert (forall k m, (k < length pre)%nat ->
            match_here figure_re k (drop k (pre ++ fig_line ++ post)) = Some m ->
            (m_end m <= length pre)%nat) as H3.
  { intros k m Hk Hm.
    do 9 (destruct k as [|k]; [vm_compute in Hm; discriminate Hm|]).
    cbn in Hk. lia. }
  split; [reflexivity|]. split; [exact H2|]. split; [exact H3|].
  destruct (C5_figure_caption_line (__init__ (txt "book.pdf")) 3 page pre post
              eq_refl H2 H3) as (self' & ms & H & Hf & _).
  exists self'. split; [exact H|]. rewrite Hf. vm_compute. reflexivity.
Defined.

(** A caption prefix at the end of the line before takes the line as its
    caption: the page then has no record for figure 4.2. *)
Lemma C5_caption_prefix_counterexample :
  let page : page unit :=
    {| extract_text := Some (txt "Figure 1." ++ nl :: fig_line);
       extract_words := [] |} in
  exists bm,
    map_academic_book (txt "book.pdf") [page] = ret bm
    /\ bs_figures (bm_structure bm) =
       [{| cap_number := txt "1"; cap_caption := fig_line; cap_page := 1 |}].
Proof. intros page. eexists. split; vm_compute; reflexivity. Qed.

(** ** Section headings *)

Lemma section_re_rejects_2_3_1 :
  re_match section_re (txt "2.3.1 Write-Ahead Logs") = None.
Proof. vm_compute. reflexivity. Qed.

Lemma section_re_accepts_2_3 :
  exists m, re_match section_re (txt "2.3 Write-Ahead Logs") = Some m
            /\ group m 1 = txt "2.3" /\ group m 2 = txt "Write-Ahead Logs".
Proof. eexists. vm_compute. eauto. Qed.

(** A pattern without groups leaves the groups as they are. *)
Lemma paths_group_free r :
  group_free r = true -> forall b s c p, p ∈ paths r b s c -> p_caps p = c.
Proof.
  induction r as [|q|r1 IH1 r2 IH2|r1 IH1 r2 IH2|r1 IH1|i r1 IH1| |];
    intros Hr b s c p H; try done.
  - by apply list_elem_of_singleton in H as ->.
  - rewrite paths_Cls in H. destruct s as [|a s]; [by apply elem_of_nil in H|].
    destruct (q a); [|by apply elem_of_nil in H].
    by apply list_elem_of_singleton in H as ->.
  - cbn in Hr. apply andb_true_iff in Hr as [H1 H2].
    rewrite paths_Seq in H. apply list_elem_of_bind in H as (p1 & Hp & Hp1).
    apply list_elem_of_fmap in Hp as (p2 & -> & Hp2).
    apply (IH1 H1) in Hp1. apply (IH2 H2) in Hp2. cbn. congruence.
  - cbn in Hr. apply andb_true_iff in Hr as [H1 H2].
    rewrite paths_Alt in H. apply elem_of_app in H as [H|H]; eauto.
  - cbn in Hr. unfold paths in H; fold paths in H. revert H.
    generalize (length s) as n. intros n. revert b s c p.
    induction n as [|n IHn]; intros b s c p H.
    + by apply list_elem_of_singleton in H as ->.
    + apply elem_of_app in H as [H|H].
      * apply list_elem_of_bind in H as (p1 & Hp & Hp1).
        destruct (is_nil (p_text p1)); [by apply elem_of_nil in Hp|].
        apply list_elem_of_fmap in Hp as (p2 & -> & Hp2).
        apply (IH1 Hr) in Hp1. apply IHn in Hp2. cbn. congruence.
      * by apply list_elem_of_singleton in H as ->.
  - rewrite paths_Bol in H. destruct b; [|by apply elem_of_nil in H].
    by apply list_elem_of_singleton in H as ->.
  - rewrite paths_Eol in H. destruct (at_eol s); [|by apply elem_of_nil in H].
    by apply list_elem_of_singleton in H as ->.
Qed.

(** The paths of a sequence and of a group, taken apart. *)
Lemma elem_of_paths_Seq r1 r2 b s c p :
  p ∈ paths (Seq r1 r2) b s c ->
  exists p1 p2, p1 ∈ paths r1 b s c
    /\ p2 ∈ paths r2 (b && is_nil (p_text p1)) (p_rest p1) (p_caps p1)
    /\ p = then_ p1 p2.
Proof.
  rewrite paths_Seq. intros (p1 & Hp & Hp1)%list_elem_of_bind.
  apply list_elem_of_fmap in Hp as (p2 & -> & Hp2). by exists p1, p2.
Qed.

Lemma elem_of_paths_Grp i r b s c p :
  p ∈ paths (Grp i r) b s c ->
  exists p1, p1 ∈ paths r b s c /\ p_caps p = (i, p_text p1) :: p_caps p1.
Proof.
  rewrite paths_Grp. intros (p1 & -> & Hp1)%list_elem_of_fmap. by exists p1.
Qed.

Lemma lang_Star_Plus_Cls q u :
  lang (Star (Plus (Cls q))) u -> Forall (fun a => q a = true) u.
Proof.
  remember (Star (Plus (Cls q))) as r eqn:Hr. induction 1; try done.
  injection Hr as ->. apply Forall_app. split; [|by apply IHlang2].
  apply lang_Plus_Cls in H as (a & u' & -> & Ha & Hu). by constructor.
Qed.

Lemma split_without sep u : sep ∉ u -> split sep u = [u].
Proof.
  induction u as [|a u IH]; [done|]. intros [Ha Hu]%not_elem_of_cons. cbn.
  rewrite (proj2 (Ascii.eqb_neq a sep)) by congruence. by rewrite IH.
Qed.

Lemma split_at sep u v : sep ∉ u -> split sep (u ++ sep :: v) = u :: split sep v.
Proof.
  induction u as [|a u IH]; cbn.
  - by rewrite Ascii.eqb_refl.
  - intros [Ha Hu]%not_elem_of_cons.
    rewrite (proj2 (Ascii.eqb_neq a sep)) by congruence. by rewrite IH.
Qed.

Lemma digits_without_dot u : Forall (fun a => is_digit a = true) u -> "."%char ∉ u.
Proof. intros H Hin. rewrite Forall_forall in H. by apply H in Hin. Qed.

(** The number of a section heading is made of digits, one dot, and digits:
    whatever the line, a Section record has level 1. *)
Lemma section_level_is_one page_num line s :
  section_of page_num line = Some s -> sec_level s = 1.
Proof.
  unfold section_of. destruct (re_match chapter_re line); [done|].
  destruct (re_match section_re line) as [m|] eqn:Hm; [|done].
  intros [= <-]. cbn [sec_level].
  apply match_here_Some in Hm as (p & ps & Hp & ->).
  assert (p ∈ paths section_re (0 =? 0)%nat line []) as Hin by (rewrite Hp; by left).
  clear Hp. unfold section_re in Hin. rewrite cat_cons in Hin.
  apply elem_of_paths_Seq in Hin as (p0 & p1 & H0 & Hin & ->).
  apply (paths_group_free Bol eq_refl) in H0.
  rewrite cat_cons in Hin. apply elem_of_paths_Seq in Hin as (pg & p2 & Hg & Hin & ->).
  apply elem_of_paths_Grp in Hg as (q & Hq & Hcaps).
  apply paths_sound in Hq as [_ Hl].
  rewrite cat_cons in Hin. apply elem_of_paths_Seq in Hin as (pb & p3 & Hb & Hin & ->).
  apply (paths_group_free (Plus space) eq_refl) in Hb.
  rewrite cat_cons in Hin. apply elem_of_paths_Seq in Hin as (pt & pe & Ht & He & ->).
  apply elem_of_paths_Grp in Ht as (q2 & Hq2 & Hcaps2).
  apply (paths_group_free (Plus any) eq_refl) in Hq2.
  apply (paths_group_free (cat []) eq_refl) in He.
  unfold group. cbn [m_caps then_ p_caps].
  rewrite He, Hcaps2, Hq2, Hb, Hcaps. cbn.
  inv_lang Hl.
  match goal with
  | H : lang (Star (Plus digit)) ?v |- _ => apply lang_Star_Plus_Cls in H
  end.
  rewrite app_nil_r.
  match goal with
  | |- context [split _ ((?a :: ?u) ++ [?d] ++ ?v)] =>
      change ((a :: u) ++ [d] ++ v) with ((a :: u) ++ d :: v)
  end.
  rewrite split_at, split_without; [done|by apply digits_without_dot|].
  apply digits_without_dot. by constructor.
Qed.

(** C1. The line "2.3.1 Write-Ahead Logs" is matched by none of the four line
    patterns: scanning it leaves the instance as it was, so no Section record
    with number "2.3.1" and level 2 is made.  The section pattern asks for
    digits, one dot and then digits only, so every Section record that is made
    has level 1. *)
Theorem C1_line_2_3_1_yields_no_section (page_num : Z) (self : AcademicBookMapper) :
  re_match section_re (txt "2.3.1 Write-Ahead Logs") = None
  /\ analyze_line page_num self (txt "2.3.1 Write-Ahead Logs") = self
  /\ _analyze_page_structure self (txt "2.3.1 Write-Ahead Logs") page_num = self
  /\ (forall line s, section_of page_num line = Some s -> sec_level s = 1).
Proof.
  assert (analyze_line page_num self (txt "2.3.1 Write-Ahead Logs") = self) as H.
  { unfold analyze_line.
    replace (re_match chapter_re _) with (@None match_obj) by (vm_compute; reflexivity).
    replace (re_match section_re _) with (@None match_obj) by (vm_compute; reflexivity).
    replace (re_match references_re _) with (@None match_obj) by (vm_compute; reflexivity).
    replace (re_match appendix_re _) with (@None match_obj) by (vm_compute; reflexivity).
    reflexivity. }
  split; [apply section_re_rejects_2_3_1|]. split; [exact H|]. split.
  - unfold _analyze_page_structure.
    replace (split nl _) with [txt "2.3.1 Write-Ahead Logs"] by (vm_compute; reflexivity).
    cbn [fold_left]. exact H.
  - intros line s. apply section_level_is_one.
Qed.

(** ** The examples of the specification *)

(** The locator on a page with one chapter heading in running text. *)
Example locator_chapter_7 :
  find_chapters_with_details
    [{| extract_text := Some (txt "...intro text... Chapter 7: The Great Divide ...more...");
        extract_words := [{| w_text := txt "Chapter"; w_size := 18%nat |}] |}]
  = ret [{| hit_chapter_num := 7; hit_page_num := 0; hit_font_size := Some 18%nat;
            hit_context := txt "...intro text... Chapter 7: The Great Divide ...more...";
            hit_chapter_text := txt "Chapter 7: " |}].
Proof. vm_compute. reflexivity. Qed.

(** A period instead of the colon: no match for the locator, a chapter for the
    classifier. *)
Example period_after_chapter_number :
  find_chapters_with_details
    [{| extract_text := Some (txt "Chapter 7. The Great Divide");
        extract_words := @nil (word nat) |}] = ret []
  /\ chapter_of 1 (txt "Chapter 7. The Great Divide") =
     Some {| ch_number := txt "7"; ch_title := txt "The Great Divide"; ch_page := 1;
             ch_sections := [] |}.
Proof. split; vm_compute; reflexivity. Qed.

(** The context is cut 30 characters before and after the match. *)
Example locator_context_window :
  exists h,
    find_chapters_with_details
      [{| extract_text :=
            Some (txt "0123456789012345678901234567890123456789 Chapter 12: "
                  ++ nl :: txt "A title that is longer than thirty characters in all");
          extract_words := @nil (word nat) |}] = ret [h]
    /\ hit_chapter_num h = 12
    /\ hit_context h =
       txt "12345678901234567890123456789 Chapter 12:  A title that is longer than t".
Proof. eexists. split; [vm_compute; reflexivity|]. split; vm_compute; reflexivity. Qed.

(** ** The first path of a pattern *)

Lemma first_path_Cls q bol a s c :
  q a = true ->
  first_path (Cls q) bol (a :: s) c {| p_text := [a]; p_rest := s; p_caps := c |}.
Proof. intros H. exists []. by rewrite paths_Cls, H. Qed.

Lemma first_path_Seq r1 r2 bol s c p1 p2 :
  first_path r1 bol s c p1 ->
  first_path r2 (bol && is_nil (p_text p1)) (p_rest p1) (p_caps p1) p2 ->
  first_path (Seq r1 r2) bol s c (then_ p1 p2).
Proof.
  intros [ps1 H1] [ps2 H2]. unfold first_path.
  rewrite paths_Seq, H1, bind_cons, H2. cbn. by eexists.
Qed.

Lemma first_path_Seq_eq r1 r2 bol s c p1 p2 p :
  first_path r1 bol s c p1 ->
  first_path r2 (bol && is_nil (p_text p1)) (p_rest p1) (p_caps p1) p2 ->
  p = then_ p1 p2 ->
  first_path (Seq r1 r2) bol s c p.
Proof. intros H1 H2 ->. by apply first_path_Seq. Qed.

Lemma first_path_cat_1 r bol s c p :
  first_path r bol s c p -> first_path (cat [r]) bol s c p.
Proof.
  intros H. rewrite cat_cons.
  apply (first_path_Seq_eq _ _ _ _ _ p {| p_text := []; p_rest := p_rest p;
                                          p_caps := p_caps p |}); [done|by eexists|].
  destruct p. unfold then_. cbn. by rewrite app_nil_r.
Qed.

Lemma first_path_Alt_r r1 r2 bol s c p :
  paths r1 bol s c = [] -> first_path r2 bol s c p ->
  first_path (Alt r1 r2) bol s c p.
Proof. intros H1 [ps H]. unfold first_path. rewrite paths_Alt, H1, H. by eexists. Qed.

Lemma first_path_Grp i r bol s c p :
  first_path r bol s c p ->
  first_path (Grp i r) bol s c
    {| p_text := p_text p; p_rest := p_rest p; p_caps := (i, p_text p) :: p_caps p |}.
Proof. intros [ps H]. unfold first_path. rewrite paths_Grp, H. by eexists. Qed.

(** ** The four line patterns *)

Lemma references_re_head line m :
  re_match references_re line = Some m ->
  exists a s, line = a :: s /\ (to_lower a = "r"%char \/ to_lower a = "b"%char).
Proof.
  intros (rest & -> & H & _)%match_here_sound. unfold references_re in H.
  inv_lang H.
  all: unfold chr_i in L1; inversion L1 as [|? b Hb| | | | | | | |]; subst.
  all: apply Ascii.eqb_eq in Hb; cbn; eauto.
Qed.

Lemma appendix_re_head line m :
  re_match appendix_re line = Some m -> exists s, line = "A"%char :: s.
Proof.
  intros (rest & -> & H & _)%match_here_sound. unfold appendix_re in H.
  inv_lang H; cbn; eauto.
Qed.

Lemma to_lower_not_A a :
  to_lower a = "r"%char \/ to_lower a = "b"%char -> a ≠ "A"%char.
Proof. intros [H|H] ->; discriminate H. Qed.

(** X1.  The four line patterns exclude one another: a chapter line starts with
    "C", a section line with a digit, a reference line with one of "RrBb" and
    an appendix line with "A".  So the order in which the matchers are tried
    never decides what a line is. *)
Theorem X1_line_patterns_exclusive (line : text) : (matching_patterns line <= 1)%nat.
Proof.
  unfold matching_patterns. cbn [filter list_filter].
  destruct (re_match chapter_re line) as [m1|] eqn:E1;
    destruct (re_match section_re line) as [m2|] eqn:E2;
    destruct (re_match references_re line) as [m3|] eqn:E3;
    destruct (re_match appendix_re line) as [m4|] eqn:E4;
    repeat (destruct (decide _) as [?|?]); cbn; try lia; exfalso;
    try (match goal with H : is_Some None |- _ => by apply is_Some_None in H end);
    try (apply chapter_re_head in E1 as (s1 & ->));
    try (apply section_re_head in E2 as (a2 & s2 & E2 & H2));
    try (apply references_re_head in E3 as (a3 & s3 & E3 & H3));
    try (apply appendix_re_head in E4 as (s4 & E4));
    simplify_eq; try discriminate;
    try (apply to_lower_r_or_b in H3 as [? ?]; congruence);
    try (by apply to_lower_not_A in H3);
    try (destruct H3 as [H3|H3]; discriminate H3).
Qed.

(** ** Appendix headings *)

Lemma upper_class a : is_upper a = true -> is_space a = false.
Proof. destruct a as [[] [] [] [] [] [] [] []]; vm_compute; intros; try discriminate; auto. Qed.

Lemma appendix_re_first_path ws letter rest :
  is_blanks ws -> is_upper letter = true -> rest ≠ [] -> nl ∉ rest ->
  exists ps,
    paths appendix_re true (txt "Appendix" ++ ws ++ letter :: ":"%char :: rest) [] =
    {| p_text := txt "Appendix" ++ ws ++ letter :: ":"%char :: rest; p_rest := [];
       p_caps := [(2%nat, title_of rest); (1%nat, [letter])] |} :: ps.
Proof.
  intros [Hws1 Hws2] Hl Hr Hnl. unfold appendix_re.
  rewrite cat_cons, paths_Seq, paths_Bol, bind_singleton.
  cbn [p_text p_rest p_caps is_nil andb].
  rewrite cat_cons, paths_Seq, paths_lit.
  replace (is_prefix (txt "Appendix") _) with true by reflexivity.
  rewrite bind_singleton. cbn [p_text p_rest p_caps].
  replace (drop _ _) with (ws ++ letter :: ":"%char :: rest) by reflexivity.
  replace (true && is_nil _) with false by reflexivity.
  destruct ws as [|a ws]; [done|]. inversion Hws2 as [|? ? Ha Hws]; subst.
  rewrite cat_cons. change (Plus space) with (Plus (Cls is_space)).
  rewrite <-app_comm_cons, paths_Plus_Cls_Seq; [|done|done|by apply upper_class|].
  - rewrite cat_cons, paths_Seq. unfold set at 1. rewrite paths_Grp, paths_Cls.
    fold (is_upper letter). rewrite Hl. cbn [fmap list_fmap p_text p_rest p_caps].
    rewrite bind_singleton. cbn [p_text p_rest p_caps is_nil andb].
    rewrite cat_cons, paths_Seq. unfold chr at 1. rewrite paths_Cls.
    cbn [Ascii.eqb Bool.eqb andb]. rewrite bind_singleton.
    cbn [p_text p_rest p_caps is_nil andb].
    destruct (paths_blanks_title false rest [(1%nat, [letter])] Hr Hnl) as [ps ->].
    cbn. unfold then_. cbn. by eexists.
  - intros b a' s' c' Ha'. rewrite cat_cons, paths_Seq. unfold set.
    rewrite paths_Grp, paths_Cls. fold (is_upper a').
    destruct (is_upper a') eqn:E; [|done]. apply upper_class in E. congruence.
Qed.

Lemma appendix_re_accepts line letter rest :
  nl ∉ line -> appendix_heading line letter rest ->
  exists m, re_match appendix_re line = Some m
            /\ group m 1 = [letter] /\ strip (group m 2) = strip rest.
Proof.
  intros Hnl (ws & Hws & Hl & Hr & ->).
  assert (nl ∉ rest) as Hnl'.
  { intros H. apply Hnl. rewrite !elem_of_app. do 2 right. by do 2 right. }
  destruct (appendix_re_first_path ws letter rest Hws Hl Hr Hnl') as [ps Hps].
  unfold re_match, match_here. cbn [Nat.eqb]. rewrite Hps. eexists. split; [done|].
  split; [done|]. apply strip_title_of.
Qed.

Lemma appendix_re_shape line :
  is_Some (re_match appendix_re line) -> exists letter rest, appendix_heading line letter rest.
Proof.
  intros [m (rest & -> & H & _)%match_here_sound]. unfold appendix_re in H.
  inv_lang H. exists a0, (u ++ a1 :: u2 ++ rest), (a :: u0).
  split; [split; [done|by constructor]|]. split; [done|]. split; [by destruct u|].
  cbn. do 9 f_equal. rewrite <-!app_assoc. cbn. by rewrite <-!app_assoc, app_nil_r.
Qed.

(** X2.  A line of a page (a text without line feed) makes an appendix record
    exactly when it is "Appendix", blanks, one capital letter, a colon and at
    least one more character; blanks after the colon are not needed.  For
    such a line the instance after it is the instance before it with one
    record at the end of its appendix list, holding the letter, the rest of
    the line without the blanks around it and the page number; any other
    line leaves the appendix list as it is. *)
Theorem X2_appendix_heading_shape (page_num : Z) (self : AcademicBookMapper)
    (line : text) :
  nl ∉ line ->
  (forall letter rest,
     appendix_heading line letter rest ->
     analyze_line page_num self line =
     {| file_path := file_path self;
        structure :=
          {| toc := toc (structure self);
             chapters := chapters (structure self);
             sections := sections (structure self);
             figures := figures (structure self);
             tables := tables (structure self);
             equations := equations (structure self);
             references := references (structure self);
             appendices :=
               appendices (structure self)
               ++ [{| app_letter := [letter]; app_title := strip rest;
                      app_page := page_num |}] |};
        current_chapter := current_chapter self;
        hierarchy := hierarchy self |})
  /\ (~ (exists letter rest, appendix_heading line letter rest) ->
      appendices (structure (analyze_line page_num self line)) =
      appendices (structure self))
  /\ (is_Some (re_match appendix_re line)
      <-> exists letter rest, appendix_heading line letter rest).
Proof.
  intros Hnl. split; [|split].
  - intros letter rest H.
    destruct (appendix_re_accepts line letter rest Hnl H) as (m & Hm & H1 & H2).
    unfold analyze_line.
    destruct (re_match chapter_re line) eqn:E1.
    { apply chapter_re_head in E1 as (? & ->).
      by apply appendix_re_head in Hm as (? & [=]). }
    destruct (re_match section_re line) eqn:E2.
    { apply section_re_head in E2 as (? & ? & -> & Hd).
      apply appendix_re_head in Hm as (? & [= -> _]). discriminate Hd. }
    destruct (re_match references_re line) eqn:E3.
    { apply references_re_head in E3 as (? & ? & -> & Hd).
      apply appendix_re_head in Hm as (? & [= -> _]).
      destruct Hd as [Hd|Hd]; discriminate Hd. }
    by rewrite Hm, H1, H2.
  - intros Hno. unfold analyze_line.
    destruct (re_match chapter_re line); [done|].
    destruct (re_match section_re line); [by destruct (current_chapter self)|].
    destruct (re_match references_re line); [done|].
    destruct (re_match appendix_re line) as [m|] eqn:Hm; [|done].
    exfalso. apply Hno, appendix_re_shape. by eexists.
  - split; [apply appendix_re_shape|].
    intros (letter & rest & H).
    destruct (appendix_re_accepts line letter rest Hnl H) as (m & -> & _). by eexists.
Qed.

Lemma X2_appendix_heading_shape_witness :
  (nl ∉ txt "Appendix B:Proofs")
  /\ analyze_line 9 (__init__ (txt "book.pdf")) (txt "Appendix B:Proofs") =
     {| file_path := txt "book.pdf";
        structure :=
          {| toc := []; chapters := []; sections := []; figures := [];
             tables := []; equations := []; references := [];
             appendices := [{| app_letter := txt "B"; app_title := txt "Proofs";
                               app_page := 9 |}] |};
        current_chapter := None;
        hierarchy := [] |}.
Proof.
  assert (nl ∉ txt "Appendix B:Proofs") as Hnl by (apply no_nl; reflexivity).
  split; [exact Hnl|].
  destruct (X2_appendix_heading_shape 9 (__init__ (txt "book.pdf"))
              (txt "Appendix B:Proofs") Hnl) as (H & _).
  apply (H "B"%char (txt "Proofs")). exists (txt " ").
  repeat split; try done. repeat constructor.
Defined.

(** ** Section headings, in general *)

(** A starred run of a class takes the longest run first. *)
Lemma first_path_Star_Plus_Cls q bol u v c :
  Forall (fun a => q a = true) u -> stops q v ->
  first_path (Star (Plus (Cls q))) bol (u ++ v) c
    {| p_text := u; p_rest := v; p_caps := c |}.
Proof.
  intros Hu Hv. unfold first_path.
  assert (paths (Plus (Cls q)) false v c = []) as Hnil.
  { rewrite paths_Plus_Cls. destruct v as [|b v]; [done|]. cbn in Hv. by rewrite Hv. }
  assert (forall b, paths (Plus (Cls q)) b v c = []) as Hnil'.
  { intros b. rewrite paths_Plus_Cls. destruct v as [|b' v]; [done|]. cbn in Hv.
    by rewrite Hv. }
  unfold paths; fold paths.
  destruct Hu as [|a u Ha Hu].
  - cbn [app]. destruct (length v); [by eexists|]. rewrite Hnil'. by eexists.
  - cbn [app length].
    rewrite paths_Plus_Cls, Ha.
    destruct (star_cls_head q (u ++ v) c) as [ps ->].
    rewrite take_while_app, drop_while_app by done.
    cbn [fmap list_fmap]. rewrite bind_cons. unfold then_ at 1.
    cbn [p_text p_rest p_caps is_nil app].
    destruct (length (u ++ v)).
    + cbn. unfold then_. cbn. rewrite app_nil_r. by eexists.
    + cbn -[Plus]. rewrite Hnil. cbn. unfold then_. cbn. rewrite app_nil_r. by eexists.
Qed.

Lemma first_path_number_of_section bol d1 d2 v c :
  is_digits d1 -> Forall (fun a => is_digit a = true) d2 -> stops is_digit v ->
  first_path (Grp 1 (cat [Plus digit; chr "."; Star (Plus digit)])) bol
    (d1 ++ "."%char :: d2 ++ v) c
    {| p_text := d1 ++ "."%char :: d2; p_rest := v;
       p_caps := (1%nat, d1 ++ "."%char :: d2) :: c |}.
Proof.
  intros [Hne Hd1] Hd2 Hv.
  apply (first_path_Grp 1 _ _ _ _ {| p_text := d1 ++ "."%char :: d2; p_rest := v;
                                     p_caps := c |}).
  destruct d1 as [|a d1]; [done|]. inversion Hd1 as [|? ? Ha Hd1']; subst.
  unfold first_path. rewrite cat_cons. unfold digit at 1.
  rewrite <-app_comm_cons, paths_Plus_Cls_Seq; [|done|done|done|].
  - rewrite cat_cons.
    destruct (first_path_Seq (chr ".") (cat [Star (Plus digit)]) false
                ("."%char :: d2 ++ v) c
                {| p_text := ["."%char]; p_rest := d2 ++ v; p_caps := c |}
                {| p_text := d2; p_rest := v; p_caps := c |}) as [ps ->].
    + by apply first_path_Cls.
    + cbn [p_text p_rest p_caps]. apply first_path_cat_1.
      by apply first_path_Star_Plus_Cls.
    + cbn. unfold then_. cbn. by eexists.
  - intros b a' s' c' Ha'. rewrite cat_cons, paths_Seq. unfold chr. rewrite paths_Cls.
    destruct (Ascii.eqb "." a') eqn:E; [|done]. apply Ascii.eqb_eq in E as <-.
    discriminate Ha'.
Qed.

Lemma first_path_blanks_title bol b rest c :
  is_space b = true -> rest ≠ [] -> nl ∉ rest ->
  first_path (cat [Plus space; Grp 2 (Plus any)]) bol (b :: rest) c
    {| p_text := b :: rest; p_rest := []; p_caps := (2%nat, title_of rest) :: c |}.
Proof.
  intros Hb Hr Hnl. unfold first_path. rewrite cat_cons.
  change (Plus space) with (Plus (Cls is_space)).
  rewrite paths_Seq, paths_Plus_Cls, Hb, list_fmap_bind.
  apply (star_space_then_title rest _ [b] c Hr Hnl).
  - intros u s c' Hs Hs'. cbn [compose p_text p_rest p_caps then_].
    destruct (paths_title_group (bol && is_nil ([b] ++ u)) s c' Hs Hs') as [ps ->].
    cbn. unfold then_. cbn. by eexists.
  - intros u c'. cbn [compose p_text p_rest p_caps then_].
    by rewrite paths_title_group_nil.
Qed.

Lemma section_re_accepts line num rest :
  nl ∉ line -> section_heading line num rest ->
  exists m, re_match section_re line = Some m
            /\ group m 1 = num /\ strip (group m 2) = strip rest.
Proof.
  intros Hnl (d1 & d2 & b & Hd1 & Hd2 & -> & Hb & Hr & ->).
  assert (nl ∉ rest) as Hnl'.
  { intros H. apply Hnl. rewrite !elem_of_app. right. by right. }
  assert (first_path section_re true ((d1 ++ "."%char :: d2) ++ b :: rest) []
            {| p_text := (d1 ++ "."%char :: d2) ++ b :: rest; p_rest := [];
               p_caps := [(2%nat, title_of rest); (1%nat, d1 ++ "."%char :: d2)] |})
    as [ps Hps].
  { unfold section_re. rewrite cat_cons.
    eapply (first_path_Seq_eq Bol _ true _ _ {| p_text := []; p_rest := _; p_caps := [] |}
              {| p_text := (d1 ++ "."%char :: d2) ++ b :: rest; p_rest := [];
                 p_caps := [(2%nat, title_of rest); (1%nat, d1 ++ "."%char :: d2)] |});
      [by eexists| |reflexivity].
    cbn [p_text p_rest p_caps is_nil andb]. rewrite cat_cons.
    eapply (first_path_Seq_eq _ _ true _ _
             {| p_text := d1 ++ "."%char :: d2; p_rest := b :: rest;
                p_caps := [(1%nat, d1 ++ "."%char :: d2)] |}
             {| p_text := b :: rest; p_rest := [];
                p_caps := [(2%nat, title_of rest); (1%nat, d1 ++ "."%char :: d2)] |});
      [| |reflexivity].
    - rewrite <-app_assoc. cbn [app].
      apply first_path_number_of_section; [done..|].
      cbn. destruct b as [[] [] [] [] [] [] [] []]; try discriminate Hb; done.
    - cbn [p_text p_rest p_caps]. by apply first_path_blanks_title. }
  unfold re_match, match_here. cbn [Nat.eqb]. rewrite Hps. eexists. split; [done|].
  split; [done|]. apply strip_title_of.
Qed.

Lemma section_re_shape line :
  is_Some (re_match section_re line) -> exists num rest, section_heading line num rest.
Proof.
  intros [m (rest & -> & H & _)%match_here_sound]. unfold section_re in H.
  inv_lang H. apply lang_Star_Plus_Cls in L.
  exists ((a :: u) ++ "."%char :: u0), (u2 ++ a1 :: u3 ++ rest), (a :: u), u0, a0.
  split; [split; [done|by constructor]|]. do 3 (split; [done|]).
  split; [by destruct u2|].
  cbn. f_equal. rewrite !app_nil_r, <-!app_assoc. cbn. by rewrite <-!app_assoc.
Qed.

(** X3.  A line of a page (a text without line feed) makes a Section record
    exactly when it is digits, a dot, digits or nothing, a blank and at least
    one more character: "3. Overview" is a section heading, with the number
    "3.".  The record holds the number, the rest of the line without the
    blanks around it, the page number and level 1.  For such a line the
    instance after it is the instance before it with the record at the end of
    its global section list and, when there is a current chapter, at the end
    of the section list of that chapter; any other line leaves the global
    section list as it is. *)
Theorem X3_section_heading_shape (page_num : Z) (self : AcademicBookMapper)
    (line : text) :
  nl ∉ line ->
  (forall num rest,
     section_heading line num rest ->
     let s := {| sec_number := num; sec_title := strip rest;
                 sec_page := page_num; sec_level := 1 |} in
     analyze_line page_num self line =
     {| file_path := file_path self;
        structure :=
          {| toc := toc (structure self);
             chapters :=
               match current_chapter self with
               | Some i =>
                   alter (fun c => {| ch_number := ch_number c;
                                      ch_title := ch_title c;
                                      ch_page := ch_page c;
                                      ch_sections := ch_sections c ++ [s] |})
                         i (chapters (structure self))
               | None => chapters (structure self)
               end;
             sections := sections (structure self) ++ [s];
             figures := figures (structure self);
             tables := tables (structure self);
             equations := equations (structure self);
             references := references (structure self);
             appendices := appendices (structure self) |};
        current_chapter := current_chapter self;
        hierarchy := hierarchy self |})
  /\ (~ (exists num rest, section_heading line num rest) ->
      sections (structure (analyze_line page_num self line)) =
      sections (structure self))
  /\ (is_Some (re_match section_re line)
      <-> exists num rest, section_heading line num rest)
  /\ section_heading (txt "3. Overview") (txt "3.") (txt "Overview").
Proof.
  intros Hnl. split; [|split; [|split]].
  - intros num rest H s.
    destruct (section_re_accepts line num rest Hnl H) as (m & Hm & H1 & H2).
    assert (section_of page_num line =
            Some {| sec_number := num; sec_title := strip rest; sec_page := page_num;
                    sec_level := Z.of_nat (length (split "." num)) - 1 |}) as Hs.
    { unfold section_of. destruct (re_match chapter_re line) eqn:E1.
      - apply chapter_re_head in E1 as (? & ->).
        apply section_re_head in Hm as (? & ? & [= <- _] & Hd). discriminate Hd.
      - by rewrite Hm, H1, H2. }
    pose proof (section_level_is_one _ _ _ Hs) as Hl. cbn [sec_level] in Hl.
    rewrite Hl in Hs. fold s in Hs.
    rewrite (analyze_line_section _ _ _ _ Hs).
    destruct (current_chapter self) as [i|] eqn:E;
      unfold upd_structure, upd_sections, upd_chapters, append, add_section; cbn;
      by rewrite E.
  - intros Hno. unfold analyze_line.
    destruct (re_match chapter_re line); [done|].
    destruct (re_match section_re line) as [m|] eqn:Hm.
    { exfalso. apply Hno, section_re_shape. by eexists. }
    destruct (re_match references_re line); [done|].
    by destruct (re_match appendix_re line).
  - split; [apply section_re_shape|].
    intros (num & rest & H).
    destruct (section_re_accepts line num rest Hnl H) as (m & -> & _). by eexists.
  - exists (txt "3"), [], " "%char. repeat split; try done. repeat constructor.
Qed.

(** After the line "Chapter 3: Storage" on page 4, the line "3. Overview" on
    page 5 goes to the global list and to that chapter. *)
Lemma X3_section_heading_shape_witness :
  let s := {| sec_number := txt "3."; sec_title := txt "Overview";
              sec_page := 5; sec_level := 1 |} in
  (nl ∉ txt "3. Overview")
  /\ analyze_line 5
       (analyze_line 4 (__init__ (txt "book.pdf")) (txt "Chapter 3: Storage"))
       (txt "3. Overview") =
     {| file_path := txt "book.pdf";
        structure :=
          {| toc := [];
             chapters := [{| ch_number := txt "3"; ch_title := txt "Storage";
                             ch_page := 4; ch_sections := [s] |}];
             sections := [s]; figures := []; tables := []; equations := [];
             references := []; appendices := [] |};
        current_chapter := Some 0%nat;
        hierarchy := [] |}.
Proof.
  intros s.
  assert (nl ∉ txt "3. Overview") as Hnl by (apply no_nl; reflexivity).
  split; [exact Hnl|].
  destruct (X3_section_heading_shape 5
              (analyze_line 4 (__init__ (txt "book.pdf")) (txt "Chapter 3: Storage"))
              (txt "3. Overview") Hnl) as (H & _).
  rewrite (H (txt "3.") (txt "Overview")); [vm_compute; reflexivity|].
  exists (txt "3"), [], " "%char.
  repeat split; try done. repeat constructor.
Defined.

(** ** The lists of the book map *)

Lemma analyze_line_page_lists page_num self line :
  page_lists (analyze_line page_num self line) = page_lists self.
Proof.
  unfold analyze_line.
  destruct (re_match chapter_re line); [done|].
  destruct (re_match section_re line); [by destruct (current_chapter self)|].
  destruct (re_match references_re line); [done|].
  by destruct (re_match appendix_re line).
Qed.

Lemma analyze_line_references page_num self line :
  references (structure (analyze_line page_num self line)) =
  references (structure self) ++ option_list (reference_of page_num line).
Proof.
  unfold analyze_line, reference_of.
  destruct (re_match chapter_re line) eqn:E1.
  { destruct (re_match references_re line) eqn:E3; [|cbn; by rewrite app_nil_r].
    apply chapter_re_head in E1 as (? & ->).
    apply references_re_head in E3 as (? & ? & [= <- _] & [H|H]); discriminate H. }
  destruct (re_match section_re line) eqn:E2.
  { destruct (re_match references_re line) eqn:E3;
      [|destruct (current_chapter self); cbn; by rewrite app_nil_r].
    apply section_re_head in E2 as (? & ? & -> & Hd).
    apply references_re_head in E3 as (? & ? & [= <- _] & H).
    apply to_lower_r_or_b in H as [_ H]. congruence. }
  destruct (re_match references_re line); [done|].
  destruct (re_match appendix_re line); cbn; by rewrite app_nil_r.
Qed.

Lemma analyze_line_appendices page_num self line :
  appendices (structure (analyze_line page_num self line)) =
  appendices (structure self) ++ option_list (appendix_of page_num line).
Proof.
  unfold analyze_line, appendix_of.
  destruct (re_match chapter_re line) eqn:E1.
  { destruct (re_match appendix_re line) eqn:E4; [|cbn; by rewrite app_nil_r].
    apply chapter_re_head in E1 as (? & ->).
    by apply appendix_re_head in E4 as (? & [=]). }
  destruct (re_match section_re line) eqn:E2.
  { destruct (re_match appendix_re line) eqn:E4;
      [|destruct (current_chapter self); cbn; by rewrite app_nil_r].
    apply section_re_head in E2 as (? & ? & -> & Hd).
    apply appendix_re_head in E4 as (? & [= -> _]). discriminate Hd. }
  destruct (re_match references_re line) eqn:E3.
  { destruct (re_match appendix_re line) eqn:E4; [|cbn; by rewrite app_nil_r].
    apply references_re_head in E3 as (? & ? & -> & H).
    apply appendix_re_head in E4 as (? & [= -> _]).
    destruct H as [H|H]; discriminate H. }
  destruct (re_match appendix_re line); [done|]. cbn. by rewrite app_nil_r.
Qed.

Lemma scan_lines_lists lines : forall self,
  page_lists (scan_lines self lines) = page_lists self
  /\ references (structure (scan_lines self lines)) =
     references (structure self) ++ omap (fun e => reference_of e.1 e.2) lines
  /\ appendices (structure (scan_lines self lines)) =
     appendices (structure self) ++ omap (fun e => appendix_of e.1 e.2) lines.
Proof.
  induction lines as [|[n l] lines IH]; intros self.
  - cbn. by rewrite !app_nil_r.
  - cbn [scan_lines fold_left fst snd]. fold (scan_lines (analyze_line n self l) lines).
    destruct (IH (analyze_line n self l)) as (-> & -> & ->).
    rewrite analyze_line_page_lists, analyze_line_references, analyze_line_appendices.
    cbn [omap list_omap fst snd]. split; [done|].
    rewrite <-!app_assoc.
    by destruct (reference_of n l), (appendix_of n l).
Qed.

(** What the page matchers do to an instance. *)
Lemma fold_left_upd_structure {A} (g : list A -> structure_dict -> structure_dict)
    (h : A -> structure_dict -> structure_dict) l :
  (forall d, g [] d = d) ->
  (forall x l d, g l (h x d) = g (x :: l) d) ->
  forall self,
  fold_left (fun self x => upd_structure (h x) self) l self =
  upd_structure (g l) self.
Proof.
  intros H0 H1. induction l as [|x l IH]; intros self; cbn [fold_left].
  - unfold upd_structure. rewrite H0. by destruct self.
  - rewrite IH. unfold upd_structure. cbn. by rewrite H1.
Qed.

Lemma _detect_figures_tables_structure {F} self (page : page F) page_num text :
  extract_text page = Some text ->
  _detect_figures_tables self page page_num =
  ret (upd_structure
         (fun d =>
            upd_equations (fun l => l ++ equations_of text page_num)
              (upd_tables (fun l => l ++ captions_of table_re text page_num)
                 (upd_figures (fun l => l ++ captions_of figure_re text page_num) d)))
         self).
Proof.
  intros Ht. unfold _detect_figures_tables. rewrite Ht. f_equal.
  rewrite (fold_left_upd_structure (fun l => upd_figures (fun l0 => l0 ++ l))
             (fun x => upd_figures (append x))).
  2: { intros d. unfold upd_figures. rewrite app_nil_r. by destruct d. }
  2: { intros x l d. unfold upd_figures, append. cbn. by rewrite <-app_assoc. }
  rewrite (fold_left_upd_structure (fun l => upd_tables (fun l0 => l0 ++ l))
             (fun x => upd_tables (append x))).
  2: { intros d. unfold upd_tables. rewrite app_nil_r. by destruct d. }
  2: { intros x l d. unfold upd_tables, append. cbn. by rewrite <-app_assoc. }
  rewrite (fold_left_upd_structure (fun l => upd_equations (fun l0 => l0 ++ l))
             (fun x => upd_equations (append x))).
  2: { intros d. unfold upd_equations. rewrite app_nil_r. by destruct d. }
  2: { intros x l d. unfold upd_equations, append. cbn. by rewrite <-app_assoc. }
  done.
Qed.

(** The scan of a document, list by list. *)
Lemma analyze_pages_lists {F} (pages : list (page F)) : forall self page_num,
  exists self',
    analyze_pages self page_num pages = ret self'
    /\ figures (structure self') =
       figures (structure self)
       ++ (doc_texts page_num pages ≫= fun e => captions_of figure_re e.2 e.1)
    /\ tables (structure self') =
       tables (structure self)
       ++ (doc_texts page_num pages ≫= fun e => captions_of table_re e.2 e.1)
    /\ equations (structure self') =
       equations (structure self)
       ++ (doc_texts page_num pages ≫= fun e => equations_of e.2 e.1)
    /\ references (structure self') =
       references (structure self)
       ++ omap (fun e => reference_of e.1 e.2) (doc_lines page_num pages)
    /\ appendices (structure self') =
       appendices (structure self)
       ++ omap (fun e => appendix_of e.1 e.2) (doc_lines page_num pages).
Proof.
  induction pages as [|p pages IH]; intros self n.
  - exists self. cbn. by rewrite !app_nil_r.
  - cbn [analyze_pages doc_lines doc_texts].
    destruct (extract_text p) as [[|a t]|] eqn:Ht; cbn [truthy bind app]; [apply IH| |apply IH].
    rewrite (_detect_figures_tables_structure _ p n (a :: t) Ht). cbn [bind].
    destruct (IH (upd_structure
         (fun d =>
            upd_equations (fun l => l ++ equations_of (a :: t) n)
              (upd_tables (fun l => l ++ captions_of table_re (a :: t) n)
                 (upd_figures (fun l => l ++ captions_of figure_re (a :: t) n) d)))
         (_analyze_page_structure self (a :: t) n)) (n + 1))
      as (self' & -> & H1 & H2 & H3 & H4 & H5).
    exists self'. split; [done|].
    rewrite H1, H2, H3, H4, H5. cbn [upd_structure structure upd_equations upd_tables
      upd_figures figures tables equations references appendices].
    rewrite _analyze_page_structure_scan.
    generalize (map (pair n) (split nl (a :: t))). intros ls.
    destruct (scan_lines_lists ls self) as (E & -> & ->).
    injection E as -> -> ->.
    rewrite !bind_cons, !omap_app, <-!app_assoc. done.
Qed.

(** X4.  The figure, table and equation lists of the returned map are, page
    after page, the matches found in the text of each page that has text, with
    the number of the page counted from 1; a caption found twice is listed
    twice. The totals of the summary are the lengths of the lists. *)
Theorem X4_book_map_page_level_lists {F} (path : text) (pdf : list (page F)) :
  exists bm,
    map_academic_book path pdf = ret bm
    /\ bs_figures (bm_structure bm) =
       (doc_texts 1 pdf ≫= fun e => captions_of figure_re e.2 e.1)
    /\ bs_tables (bm_structure bm) =
       (doc_texts 1 pdf ≫= fun e => captions_of table_re e.2 e.1)
    /\ bs_equations (bm_structure bm) =
       (doc_texts 1 pdf ≫= fun e => equations_of e.2 e.1)
    /\ bm_summary bm =
       {| total_chapters := Z.of_nat (length (bs_chapters (bm_structure bm)));
          total_figures := Z.of_nat (length (bs_figures (bm_structure bm)));
          total_tables := Z.of_nat (length (bs_tables (bm_structure bm)));
          total_equations := Z.of_nat (length (bs_equations (bm_structure bm))) |}.
Proof.
  unfold map_academic_book, analyze.
  destruct (analyze_pages_lists pdf (__init__ path) 1)
    as (self & -> & H1 & H2 & H3 & _).
  eexists. split; [done|]. cbn [snd _generate_book_map bm_structure bm_summary
    bs_figures bs_tables bs_equations bs_chapters].
  rewrite H1, H2, H3. repeat split; try done.
  by rewrite length_map.
Qed.

(** X5.  The reference and appendix lists of the returned map hold one record
    for each scanned line that the pattern matches, in scan order. *)
Theorem X5_book_map_references_and_appendices {F} (path : text) (pdf : list (page F)) :
  exists bm,
    map_academic_book path pdf = ret bm
    /\ bs_references (bm_structure bm) =
       omap (fun e => reference_of e.1 e.2) (doc_lines 1 pdf)
    /\ bs_appendices (bm_structure bm) =
       omap (fun e => appendix_of e.1 e.2) (doc_lines 1 pdf).
Proof.
  unfold map_academic_book, analyze.
  destruct (analyze_pages_lists pdf (__init__ path) 1)
    as (self & -> & _ & _ & _ & H4 & H5).
  eexists. split; [done|]. cbn [snd _generate_book_map bm_structure
    bs_references bs_appendices]. by rewrite H4, H5.
Qed.

(** ** The sections of the instance and of its chapters *)

Lemma all_sections_partition lines :
  all_sections lines =
  following_sections lines ++ concat (ch_sections <$> grouped_chapters lines).
Proof.
  unfold all_sections. induction lines as [|[n l] lines IH]; [done|].
  cbn [omap list_omap fst snd following_sections grouped_chapters].
  destruct (chapter_of n l) as [c|] eqn:Hc.
  - rewrite (chapter_section_exclusive _ _ _ Hc). cbn. by rewrite IH.
  - destruct (section_of n l); cbn; by rewrite IH.
Qed.

(** X6.  After the scan of any document, the global section list of the instance
    is made of the sections that come before the first chapter line, followed
    by the section lists of the chapters in order: a section is in one chapter
    at most, and the chapters' lists never overlap. *)
Theorem X6_sections_partitioned_by_chapters {F} (path : text) (pdf : list (page F)) :
  exists self bm,
    analyze (__init__ path) pdf = ret (self, bm)
    /\ sections (structure self) =
       following_sections (doc_lines 1 pdf)
       ++ concat (ch_sections <$> bs_chapters (bm_structure bm)).
Proof.
  unfold analyze.
  destruct (analyze_pages_headings pdf (__init__ path) 1) as (self & -> & H).
  exists self, (_generate_book_map self). split; [done|].
  unfold headings in H. injection H as H1 H2 _.
  rewrite _generate_book_map_chapters, H1, H2, scan_lines_sections.
  rewrite scan_lines_closed by done. apply all_sections_partition.
Qed.

(** ** Page numbers *)

Lemma pages_from_nil first len : pages_from first len [].
Proof. split; constructor. Qed.

Lemma pages_from_app first k len ps1 ps2 :
  0 <= k -> 0 <= len ->
  Forall (fun p => first <= p < first + k) ps1 -> StronglySorted Z.le ps1 ->
  pages_from (first + k) len ps2 ->
  pages_from first (k + len) (ps1 ++ ps2).
Proof.
  intros Hk Hlen H1 Hs1 [Hs2 H2]. split.
  - apply StronglySorted_app_2; [|done..].
    intros x y Hx Hy. rewrite Forall_forall in H1, H2.
    apply H1 in Hx. apply H2 in Hy. lia.
  - apply Forall_app. split.
    + eapply Forall_impl; [exact H1|]. cbn. intros; lia.
    + eapply Forall_impl; [exact H2|]. cbn. intros; lia.
Qed.

Lemma StronglySorted_replicate_le n (x : Z) : StronglySorted Z.le (replicate n x).
Proof.
  induction n as [|n IH]; cbn [replicate]; [constructor|].
  apply SSorted_cons; [exact IH|].
  apply Forall_forall. intros y ->%elem_of_replicate_inv. lia.
Qed.

Lemma doc_lines_pages {F} (pages : list (page F)) : forall n,
  pages_from n (Z.of_nat (length pages)) ((doc_lines n pages).*1).
Proof.
  induction pages as [|p pages IH]; intros n; [apply pages_from_nil|].
  cbn [doc_lines length]. rewrite fmap_app, Nat2Z.inj_succ, <-Z.add_1_l.
  assert (exists k, (match extract_text p with
                     | Some (a :: t) => map (pair n) (split nl (a :: t))
                     | _ => []
                     end).*1 = replicate k n) as [k ->].
  { destruct (extract_text p) as [[|a t]|]; [by exists 0%nat| |by exists 0%nat].
    generalize (split nl (a :: t)). intros ls. exists (length ls).
    induction ls as [|l ls IHl]; [done|]. cbn. by f_equal. }
  apply pages_from_app; [lia|lia| |apply StronglySorted_replicate_le|apply IH].
  apply Forall_forall. intros y ->%elem_of_replicate_inv. lia.
Qed.

Lemma doc_texts_pages {F} (pages : list (page F)) : forall n,
  pages_from n (Z.of_nat (length pages)) ((doc_texts n pages).*1).
Proof.
  induction pages as [|p pages IH]; intros n; [apply pages_from_nil|].
  cbn [doc_texts length]. rewrite fmap_app, Nat2Z.inj_succ, <-Z.add_1_l.
  assert (exists k, (match extract_text p with
                     | Some (a :: t) => [(n, a :: t)]
                     | _ => []
                     end).*1 = replicate k n) as [k ->].
  { destruct (extract_text p) as [[|a t]|]; [by exists 0%nat|by exists 1%nat|by exists 0%nat]. }
  apply pages_from_app; [lia|lia| |apply StronglySorted_replicate_le|apply IH].
  apply Forall_forall. intros y ->%elem_of_replicate_inv. lia.
Qed.

(** Records made from numbered items carry the page order of the items. *)
Lemma pages_from_bind {A B} first len (pg : B -> Z) (f : Z * A -> list B) l :
  (forall e x, x ∈ f e -> pg x = e.1) ->
  pages_from first len (l.*1) -> pages_from first len (pg <$> (l ≫= f)).
Proof.
  intros Hf [Hs Hb]. induction l as [|e l IH]; [split; constructor|].
  cbn in Hs, Hb. inversion Hs as [|? ? Hs' Hle]; subst.
  inversion Hb as [|? ? Hb1 Hb2]; subst.
  destruct (IH Hs' Hb2) as [IH1 IH2].
  rewrite bind_cons, fmap_app.
  assert (Forall (fun p => p = e.1) (pg <$> f e)) as He.
  { apply Forall_fmap, Forall_forall. intros x Hx. by apply Hf. }
  split.
  - apply StronglySorted_app_2; [| |done].
    2: { assert (pg <$> f e = replicate (length (pg <$> f e)) e.1) as ->.
         { clear -He. induction He as [|p ps -> _ IHp]; [done|]. cbn. by f_equal. }
         apply StronglySorted_replicate_le. }
    + intros x y Hx Hy. rewrite Forall_forall in He. apply He in Hx as ->.
      apply list_elem_of_fmap in Hy as (b & -> & Hy).
      apply list_elem_of_bind in Hy as (e' & Hy & He').
      apply Hf in Hy as ->. rewrite Forall_forall in Hle. apply Hle.
      apply list_elem_of_fmap. by exists e'.
  - apply Forall_app. split; [|done].
    eapply Forall_impl; [exact He|]. cbn. by intros ? ->.
Qed.

Lemma omap_bind {A B} (f : A -> option B) (l : list A) :
  omap f l = l ≫= (fun e => option_list (f e)).
Proof. induction l as [|x l IH]; [done|]. cbn. rewrite IH. by destruct (f x). Qed.

Lemma pages_from_omap {A B} first len (pg : B -> Z) (f : Z * A -> option B) l :
  (forall e x, f e = Some x -> pg x = e.1) ->
  pages_from first len (l.*1) -> pages_from first len (pg <$> omap f l).
Proof.
  intros Hf. rewrite omap_bind. apply pages_from_bind.
  intros e x Hx. apply Hf. destruct (f e); [|by apply elem_of_nil in Hx].
  by apply list_elem_of_singleton in Hx as ->.
Qed.

Lemma chapter_of_page n l c : chapter_of n l = Some c -> ch_page c = n.
Proof. unfold chapter_of. destruct (re_match chapter_re l); [|done]. by intros [= <-]. Qed.

Lemma section_of_page n l s : section_of n l = Some s -> sec_page s = n.
Proof.
  unfold section_of. destruct (re_match chapter_re l); [done|].
  destruct (re_match section_re l); [|done]. by intros [= <-].
Qed.

Lemma grouped_chapters_page lines :
  ch_page <$> grouped_chapters lines =
  ch_page <$> omap (fun e => chapter_of e.1 e.2) lines.
Proof.
  induction lines as [|[n l] lines IH]; [done|].
  cbn [grouped_chapters omap list_omap fst snd].
  destruct (chapter_of n l); cbn; by rewrite IH.
Qed.

(** The sections that follow are among the sections of the lines. *)
Lemma following_sections_pages first len lines :
  pages_from first len (lines.*1) ->
  pages_from first len (sec_page <$> following_sections lines).
Proof.
  intros [Hs Hb]. induction lines as [|[n l] lines IH]; [split; constructor|].
  cbn in Hs, Hb. inversion Hs as [|? ? Hs' Hle]; subst.
  inversion Hb as [|? ? Hb1 Hb2]; subst.
  destruct (IH Hs' Hb2) as [IH1 IH2].
  cbn [following_sections]. destruct (chapter_of n l); [split; constructor|].
  destruct (section_of n l) as [s|] eqn:E; [|done].
  apply section_of_page in E. cbn. rewrite E. split; [|by constructor].
  constructor; [done|]. clear -Hle. induction lines as [|[m l'] lines IH]; [constructor|].
  inversion Hle; subst. cbn [following_sections].
  destruct (chapter_of m l'); [constructor|].
  destruct (section_of m l') as [s|] eqn:E; [|by apply IH].
  apply section_of_page in E. cbn. rewrite E. constructor; [done|by apply IH].
Qed.

Lemma grouped_chapters_sections first len lines :
  pages_from first len (lines.*1) ->
  Forall (fun c => pages_from (ch_page c) (first + len - ch_page c)
                     (sec_page <$> ch_sections c))
         (grouped_chapters lines).
Proof.
  intros [Hs Hb]. induction lines as [|[n l] lines IH]; [constructor|].
  cbn in Hs, Hb. inversion Hs as [|? ? Hs' Hle]; subst.
  inversion Hb as [|? ? Hb1 Hb2]; subst.
  cbn [grouped_chapters]. destruct (chapter_of n l) as [c|] eqn:E; [|by apply IH].
  constructor; [|by apply IH]. apply chapter_of_page in E. cbn. rewrite E.
  apply following_sections_pages. split; [done|].
  rewrite Forall_forall in Hle, Hb2. apply Forall_forall. intros p Hp.
  specialize (Hle _ Hp). specialize (Hb2 _ Hp). cbn in *. lia.
Qed.

(** X7.  Every list of the returned map follows the order of the pages, with
    page numbers from 1 to the number of pages; and the sections of a chapter
    are in page order from the page of the chapter on. *)
Theorem X7_book_map_page_order {F} (path : text) (pdf : list (page F)) :
  exists bm,
    map_academic_book path pdf = ret bm
    /\ let len := Z.of_nat (length pdf) in
       let s := bm_structure bm in
       pages_from 1 len (ch_page <$> bs_chapters s)
       /\ pages_from 1 len (cap_page <$> bs_figures s)
       /\ pages_from 1 len (cap_page <$> bs_tables s)
       /\ pages_from 1 len (eq_page <$> bs_equations s)
       /\ pages_from 1 len (ref_page <$> bs_references s)
       /\ pages_from 1 len (app_page <$> bs_appendices s)
       /\ Forall (fun c => pages_from (ch_page c) (1 + len - ch_page c)
                             (sec_page <$> ch_sections c))
                 (bs_chapters s).
Proof.
  unfold map_academic_book, analyze.
  destruct (analyze_pages_lists pdf (__init__ path) 1)
    as (self & E & H1 & H2 & H3 & H4 & H5).
  destruct (analyze_pages_headings pdf (__init__ path) 1) as (self' & E' & H).
  rewrite E in E'. injection E' as <-. rewrite E.
  eexists. split; [done|]. cbn zeta.
  cbn [bind snd bm_structure]. rewrite _generate_book_map_chapters.
  cbn [_generate_book_map bm_structure bs_figures bs_tables bs_equations
       bs_references bs_appendices].
  unfold headings in H. injection H as Hc _ _.
  rewrite scan_lines_closed in Hc by done.
  rewrite Hc, H1, H2, H3, H4, H5. cbn [app].
  pose proof (doc_lines_pages pdf 1) as Hl. pose proof (doc_texts_pages pdf 1) as Ht.
  split; [|split; [|split; [|split; [|split; [|split]]]]].
  - rewrite grouped_chapters_page. apply pages_from_omap; [|done].
    intros [n l] c. apply chapter_of_page.
  - apply pages_from_bind; [|done]. intros [n t] x. cbn. unfold captions_of.
    by intros (m & -> & _)%list_elem_of_fmap.
  - apply pages_from_bind; [|done]. intros [n t] x. cbn. unfold captions_of.
    by intros (m & -> & _)%list_elem_of_fmap.
  - apply pages_from_bind; [|done]. intros [n t] x. cbn. unfold equations_of.
    by intros (m & -> & _)%list_elem_of_fmap.
  - apply pages_from_omap; [|done]. intros [n l] x. cbn. unfold reference_of.
    destruct (re_match references_re l); [|done]. by intros [= <-].
  - apply pages_from_omap; [|done]. intros [n l] x. cbn. unfold appendix_of.
    destruct (re_match appendix_re l); [|done]. by intros [= <-].
  - by apply grouped_chapters_sections.
Qed.

(** ** The outcome of the locator *)

(** X8.  On a document whose chapter tokens all stay within the limit that
    the interpreter puts on the strings [int] converts ([within_int_limit]),
    the locator raises [TypeError] exactly when some page has no text, and
    otherwise returns: a matched text always holds digits, so the search for
    its number never gives [None] and no [AttributeError] is raised.  Beyond
    the limit [int] raises [ValueError], which is outside this model; the
    hypothesis keeps the statement to the documents on which the model's
    [int] and the interpreter's agree. *)
Theorem X8_locator_outcome {F} (pdf : list (page F)) :
  within_int_limit pdf ->
  match find_chapters_with_details pdf with
  | inl e => e = TypeError /\ Exists (fun p => extract_text p = None) pdf
  | inr _ => Forall (fun p => extract_text p ≠ None) pdf
  end.
Proof.
  intros _. unfold find_chapters_with_details.
  destruct (decide (Exists (fun p => extract_text p = None) pdf)) as [E|E].
  - by rewrite scan_pages_no_text.
  - apply not_Exists_Forall in E; [|intros p; apply _].
    by destruct (scan_pages_text pdf 0 [] E) as (new & -> & _).
Qed.

(** One page with text and one without: [TypeError]. *)
Lemma X8_locator_outcome_witness :
  let pdf : list (page unit) :=
    [{| extract_text := Some (txt "Chapter 2: Trees"); extract_words := [] |};
     {| extract_text := None; extract_words := [] |}] in
  within_int_limit pdf
  /\ find_chapters_with_details pdf = raise TypeError
  /\ Exists (fun p => extract_text p = None) pdf.
Proof.
  intros pdf.
  assert (within_int_limit pdf) as Hc.
  { intros page pre ds post Hin Ht _.
    assert (extract_text page = Some (txt "Chapter 2: Trees")) as E.
    { apply elem_of_cons in Hin as [->|Hin]; [done|].
      apply list_elem_of_singleton in Hin as ->. discriminate Ht. }
    rewrite E in Ht. injection Ht as Ht. apply (f_equal length) in Ht.
    rewrite length_app in Ht. cbn [length] in Ht. rewrite !length_app in Ht.
    unfold max_str_digits. lia. }
  split; [exact Hc|].
  assert (find_chapters_with_details pdf = raise TypeError) as E
    by (vm_compute; reflexivity).
  split; [exact E|].
  pose proof (X8_locator_outcome pdf Hc) as H. rewrite E in H. exact (proj2 H).
Defined.

(** X9.  The list returned by the locator is in ascending order of the chapter
    numbers, and holds the records of the scan, each as often as the scan
    made it. *)
Theorem X9_locator_ascending {F} (pdf : list (page F)) (results : list (hit F)) :
  find_chapters_with_details pdf = ret results ->
  StronglySorted (fun a b => hit_chapter_num a <= hit_chapter_num b) results
  /\ exists scanned, scan_pages 0 [] pdf = ret scanned /\ results ≡ₚ scanned.
Proof.
  unfold find_chapters_with_details. intros H.
  destruct (scan_pages 0 [] pdf) as [e|raw] eqn:E; cbn [bind] in H; [done|].
  injection H as <-. split.
  - apply Sorted_StronglySorted; [|apply sort_by_Sorted].
    intros a b c. cbn. lia.
  - exists raw. split; [done|]. apply sort_by_Permutation.
Qed.

Lemma X9_locator_ascending_witness :
  let pg (t : text) : page unit :=
    {| extract_text := Some t; extract_words := [] |} in
  let h (n p : Z) (c m : text) : hit unit :=
    {| hit_chapter_num := n; hit_page_num := p; hit_font_size := None;
       hit_context := c; hit_chapter_text := m |} in
  let pdf := [pg (txt "Chapter 2: Trees"); pg (txt "Chapter 1: Lists")] in
  let results := [h 1 1 (txt "Chapter 1: Lists") (txt "Chapter 1: ");
                  h 2 0 (txt "Chapter 2: Trees") (txt "Chapter 2: ")] in
  find_chapters_with_details pdf = ret results
  /\ StronglySorted (fun a b => hit_chapter_num a <= hit_chapter_num b) results.
Proof.
  intros pg h pdf results.
  assert (find_chapters_with_details pdf = ret results) as H by (vm_compute; reflexivity).
  split; [exact H|]. exact (proj1 (X9_locator_ascending pdf results H)).
Defined.

(** ** The font size of a record *)

Lemma is_prefix_spec p s : is_prefix p s = true <-> exists b, s = p ++ b.
Proof.
  revert s. induction p as [|a p IH]; intros s; cbn.
  - split; [by exists s|done].
  - destruct s as [|b s]; [split; [done|by intros [? ?]]|].
    rewrite andb_true_iff, Ascii.eqb_eq, IH. split.
    + intros [-> [r ->]]. by exists r.
    + intros [r [= -> ->]]. split; [done|by exists r].
Qed.

Lemma contains_spec p s : contains p s = true <-> occurs_in p s.
Proof.
  unfold occurs_in. induction s as [|x s IH]; cbn [contains].
  - rewrite orb_false_r, is_prefix_spec. split.
    + intros [b H]. by exists [], b.
    + intros (a & b & H). destruct a; [by exists b|done].
  - rewrite orb_true_iff, is_prefix_spec, IH. split.
    + intros [[b H]|(a & b & ->)]; [by exists [], b|by exists (x :: a), b].
    + intros ([|y a] & b & H); [left; by exists b|].
      right. injection H as -> ->. by exists a, b.
Qed.

Lemma font_size_of_spec {F} (words : list (word F)) :
  match font_size_of words with
  | Some size => exists w, first_chapter_word words w /\ size = w_size w
  | None => Forall (fun w' => ~ occurs_in (txt "Chapter") (w_text w')) words
  end.
Proof.
  induction words as [|w words IH]; cbn [font_size_of]; [constructor|].
  destruct (contains (txt "Chapter") (w_text w)) eqn:E.
  - apply contains_spec in E. exists w. split; [|done]. by exists [], words.
  - assert (~ occurs_in (txt "Chapter") (w_text w)) as Hw.
    { intros H%contains_spec. congruence. }
    destruct (font_size_of words) as [size|].
    + destruct IH as (w0 & (before & after & -> & Hb & Hw0) & ->).
      exists w0. split; [|done]. exists (w :: before), after.
      split; [done|]. split; [by constructor|done].
    + by constructor.
Qed.

(** X10.  The font size of a record is read off its page, not off the
    occurrence: it is the size of the first word of the page (in the order of
    [extract_words]) in which "Chapter" occurs, and it is absent when there is
    no such word.  So all records of a page have the same font size. *)
Theorem X10_locator_font_size {F} (pdf : list (page F)) (results : list (hit F)) :
  find_chapters_with_details pdf = ret results ->
  (forall h, h ∈ results ->
     exists page,
       pdf !! Z.to_nat (hit_page_num h) = Some page /\ 0 <= hit_page_num h
       /\ match hit_font_size h with
          | Some size =>
              exists w, first_chapter_word (extract_words page) w /\ size = w_size w
          | None =>
              Forall (fun w' => ~ occurs_in (txt "Chapter") (w_text w'))
                     (extract_words page)
          end)
  /\ (forall h1 h2, h1 ∈ results -> h2 ∈ results ->
        hit_page_num h1 = hit_page_num h2 -> hit_font_size h1 = hit_font_size h2).
Proof.
  intros H. split.
  - intros h Hh. apply (find_chapters_with_details_located pdf results H) in Hh.
    destruct Hh as (i & page & text & Hi & _ & (m & ds & _ & _ & _ & _ & ->)).
    exists page. cbn [hit_of hit_page_num hit_font_size].
    rewrite Z.add_0_l, Nat2Z.id. split; [done|]. split; [lia|].
    apply font_size_of_spec.
  - intros h1 h2 H1 H2.
    apply (find_chapters_with_details_located pdf results H) in H1, H2.
    destruct H1 as (i1 & page1 & text1 & Hi1 & _ & (m1 & ds1 & _ & _ & _ & _ & ->)).
    destruct H2 as (i2 & page2 & text2 & Hi2 & _ & (m2 & ds2 & _ & _ & _ & _ & ->)).
    cbn [hit_of hit_page_num hit_font_size]. intros E.
    assert (i1 = i2) as -> by lia. congruence.
Qed.

Lemma X10_locator_font_size_witness :
  let pdf : list (page Z) :=
    [{| extract_text := Some (txt "Contents Chapter 1: Lists");
        extract_words := [{| w_text := txt "Contents"; w_size := 18 |};
                          {| w_text := txt "Chapter"; w_size := 11 |};
                          {| w_text := txt "1:"; w_size := 11 |}] |}] in
  let h : hit Z :=
    {| hit_chapter_num := 1; hit_page_num := 0; hit_font_size := Some 11;
       hit_context := txt "Contents Chapter 1: Lists";
       hit_chapter_text := txt "Chapter 1: " |} in
  find_chapters_with_details pdf = ret [h]
  /\ forall h1 h2, h1 ∈ [h] -> h2 ∈ [h] ->
       hit_page_num h1 = hit_page_num h2 -> hit_font_size h1 = hit_font_size h2.
Proof.
  intros pdf h.
  assert (find_chapters_with_details pdf = ret [h]) as H by (vm_compute; reflexivity).
  split; [exact H|]. exact (proj2 (X10_locator_font_size pdf [h] H)).
Defined.

(** ** The context of a record *)

Lemma slice_window (pre tok post : text) :
  slice (pre ++ tok ++ post)
        (Z.max 0 (Z.of_nat (length pre) - 30))
        (Z.min (Z.of_nat (length (pre ++ tok ++ post)))
               (Z.of_nat (length pre + length tok) + 30)) =
  drop (length pre - 30) pre ++ tok ++ take 30 post.
Proof.
  unfold slice. rewrite !length_app.
  assert (Z.to_nat (Z.max 0 (Z.of_nat (length pre) - 30)) = (length pre - 30)%nat)
    as -> by lia.
  assert ((Z.to_nat (Z.min (Z.of_nat (length pre + (length tok + length post)))
                           (Z.of_nat (length pre + length tok) + 30))
           - (length pre - 30))%nat
          = (length (drop (length pre - 30) pre) + (length tok
             + Nat.min 30 (length post)))%nat) as ->.
  { rewrite length_drop. lia. }
  rewrite drop_app_le by lia. rewrite take_app_add', take_app_add' by done.
  f_equal. f_equal. destruct (le_lt_dec 30 (length post)).
  - by rewrite Nat.min_l.
  - rewrite Nat.min_r by lia. by rewrite !take_ge by lia.
Qed.

Lemma replace_app a b u v : replace a b (u ++ v) = replace a b u ++ replace a b v.
Proof. apply map_app. Qed.

Lemma replace_without a b u : a ∉ u -> replace a b u = u.
Proof.
  unfold replace.
  induction u as [|x u IH]; [done|]. intros [Hx Hu]%not_elem_of_cons. cbn.
  rewrite (proj2 (Ascii.eqb_neq x a)) by done. by rewrite IH.
Qed.

Lemma replace_removes a b u : a ≠ b -> a ∉ replace a b u.
Proof.
  intros Hab. unfold replace.
  induction u as [|x u IH]; [apply not_elem_of_nil|]. cbn.
  apply not_elem_of_cons. split; [|done].
  destruct (Ascii.eqb x a) eqn:E; [congruence|]. apply Ascii.eqb_neq in E. congruence.
Qed.

Lemma length_replace a b u : length (replace a b u) = length u.
Proof. apply length_map. Qed.

(** What [drop_while] leaves is a final part that does not start in the class. *)
Lemma drop_while_suffix p s :
  exists w, s = w ++ drop_while p s /\ Forall (fun a => p a = true) w
            /\ stops p (drop_while p s).
Proof.
  induction s as [|a s (w & Hs & Hw & Hst)]; [by exists []|]. cbn [drop_while].
  destruct (p a) eqn:E.
  - exists (a :: w). split; [cbn; by f_equal|]. split; [by constructor|done].
  - by exists [].
Qed.

(** Stripping removes blanks at both ends, and nothing around a word that
    starts and ends with other characters. *)
Lemma lstrip_keeps u x v : is_space x = false -> exists u', lstrip (u ++ x :: v) = u' ++ x :: v
  /\ (length u' <= length u)%nat.
Proof.
  intros Hx. unfold lstrip. induction u as [|a u (u' & IH & Hl)]; cbn [app drop_while].
  - rewrite Hx. by exists [].
  - destruct (is_space a).
    + exists u'. split; [done|]. cbn. lia.
    + exists (a :: u). split; [done|]. cbn. lia.
Qed.

Lemma rstrip_keeps u x v : is_space x = false -> exists v', rstrip (u ++ x :: v) = u ++ x :: v'
  /\ (length v' <= length v)%nat.
Proof.
  intros Hx. unfold rstrip. rewrite rev_app_distr. cbn [rev]. rewrite <-app_assoc.
  destruct (lstrip_keeps (rev v) x (rev u) Hx) as (w & Hw & Hl). unfold lstrip in Hw.
  cbn [app]. rewrite Hw, rev_app_distr. cbn [rev]. rewrite rev_involutive, <-app_assoc.
  exists (rev w). split; [done|]. rewrite length_rev in *. done.
Qed.

Lemma strip_stops s : stops is_space (strip s) /\ stops is_space (rev (strip s)).
Proof.
  unfold strip, rstrip, lstrip. rewrite rev_involutive.
  destruct (drop_while_suffix is_space s) as (w1 & _ & _ & H1).
  destruct (drop_while_suffix is_space (rev (drop_while is_space s)))
    as (w2 & E2 & Hw2 & H2).
  split; [|done].
  destruct (drop_while is_space s) as [|a t] eqn:Et; [done|]. cbn in H1.
  apply (f_equal (@rev ascii)) in E2. rewrite rev_involutive, rev_app_distr in E2.
  destruct (rev (drop_while is_space (rev (a :: t)))) as [|b t']; [done|].
  cbn in E2. injection E2 as <- _. done.
Qed.

Lemma elem_of_rev {A} (x : A) l : x ∈ rev l <-> x ∈ l.
Proof. by rewrite !list_elem_of_In, <-in_rev. Qed.

Lemma elem_of_drop_while p x s : x ∈ drop_while p s -> x ∈ s.
Proof.
  destruct (drop_while_suffix p s) as (w & E & _). intros H. rewrite E.
  apply elem_of_app. by right.
Qed.

Lemma elem_of_strip x s : x ∈ strip s -> x ∈ s.
Proof.
  unfold strip, rstrip, lstrip. rewrite elem_of_rev.
  intros H%elem_of_drop_while. rewrite elem_of_rev in H. by apply elem_of_drop_while in H.
Qed.

Lemma token_heading ds : token ds = heading ds ++ txt " ".
Proof. unfold token, heading. by rewrite <-!app_assoc. Qed.

Lemma token_no_nl ds : is_digits ds -> nl ∉ token ds.
Proof.
  intros [_ Hd] H. unfold token in H. rewrite !elem_of_app in H.
  destruct H as [H|[H|H]]; [not_in_literal H| |not_in_literal H].
  rewrite Forall_forall in Hd. by apply Hd in H.
Qed.

Lemma strip_keeps_heading u ds v :
  exists before after,
    strip (u ++ token ds ++ v) = before ++ heading ds ++ after
    /\ (length before <= length u)%nat /\ (length after <= S (length v))%nat.
Proof.
  unfold strip.
  destruct (lstrip_keeps u "C" (txt "hapter " ++ ds ++ txt ": " ++ v) eq_refl)
    as (u' & E & Hu).
  change (u ++ token ds ++ v) with (u ++ (txt "Chapter " ++ ds ++ txt ": ") ++ v).
  rewrite <-!app_assoc. cbn [txt list_ascii_of_string app] in *. rewrite E.
  destruct (rstrip_keeps (u' ++ txt "Chapter " ++ ds) ":" (" "%char :: v) eq_refl)
    as (v' & E' & Hv).
  rewrite <-!app_assoc in E'. cbn [txt list_ascii_of_string app] in E'. rewrite E'.
  exists u', v'. unfold heading. rewrite <-!app_assoc. cbn in *. split; [done|]. lia.
Qed.

(** X11.  The context of a record is the window of the page text from 30
    characters before the token to 30 characters after it, with line feeds
    turned into blanks and the blanks at both ends removed.  It holds the
    heading "Chapter N:" with at most 30 characters before it and 31 after it,
    holds no line feed, and neither starts nor ends with a blank. *)
Theorem X11_locator_context {F} (pdf : list (page F)) (results : list (hit F)) :
  find_chapters_with_details pdf = ret results ->
  forall h, h ∈ results ->
    exists page pre ds post,
      pdf !! Z.to_nat (hit_page_num h) = Some page
      /\ extract_text page = Some (pre ++ token ds ++ post)
      /\ hit_chapter_text h = token ds
      /\ hit_context h =
         strip (replace nl " " (drop (length pre - 30) pre ++ token ds ++ take 30 post))
      /\ (exists before after,
            hit_context h = before ++ heading ds ++ after
            /\ (length before <= 30)%nat /\ (length after <= 31)%nat)
      /\ (nl ∉ hit_context h)
      /\ stops is_space (hit_context h) /\ stops is_space (rev (hit_context h)).
Proof.
  intros H h Hh. apply (find_chapters_with_details_located pdf results H) in Hh.
  destruct Hh as (i & page & text & Hi & Ht & (m & ds & Hm & Hds & Hmt & _ & ->)).
  apply finditer_sound in Hm as (pre & post & -> & _ & Hs & He).
  rewrite Hmt in *. exists page, pre, ds, post.
  cbn [hit_of hit_page_num hit_chapter_text hit_context].
  rewrite Z.add_0_l, Nat2Z.id. do 3 (split; [done|]).
  assert (context_of (pre ++ token ds ++ post) m =
          strip (replace nl " " (drop (length pre - 30) pre ++ token ds ++ take 30 post)))
    as ->.
  { unfold context_of. by rewrite Hs, He, slice_window. }
  split; [done|]. split; [|split].
  - rewrite !replace_app, (replace_without _ _ (token ds)) by by apply token_no_nl.
    destruct (strip_keeps_heading (replace nl " " (drop (length pre - 30) pre)) ds
                (replace nl " " (take 30 post))) as (before & after & -> & Hb & Ha).
    exists before, after. split; [done|].
    rewrite length_replace in *. rewrite length_drop in Hb. rewrite length_take in Ha. lia.
  - intros Hin%elem_of_strip. by apply replace_removes in Hin.
  - apply strip_stops.
Qed.

Lemma X11_locator_context_witness :
  let pdf : list (page unit) :=
    [{| extract_text := Some (txt "Part One" ++ nl :: txt "Chapter 1: Lists ");
        extract_words := [] |}] in
  let h : hit unit :=
    {| hit_chapter_num := 1; hit_page_num := 0; hit_font_size := None;
       hit_context := txt "Part One Chapter 1: Lists";
       hit_chapter_text := txt "Chapter 1: " |} in
  find_chapters_with_details pdf = ret [h]
  /\ (nl ∉ hit_context h).
Proof.
  intros pdf h.
  assert (find_chapters_with_details pdf = ret [h]) as H by (vm_compute; reflexivity).
  split; [exact H|].
  destruct (X11_locator_context pdf [h] H h) as (? & ? & ? & ? & _ & _ & _ & _ & _ & Hnl & _);
    [by left|exact Hnl].
Defined.

(** ** [display_chapter_analysis] *)

Lemma length_shown_context context : (length (shown_context context) <= 40)%nat.
Proof.
  unfold shown_context. destruct (40 <? Z.of_nat (length context)) eqn:E.
  - rewrite length_app, length_take. change (length (txt "...")) with 3%nat. lia.
  - apply Z.ltb_ge in E. lia.
Qed.

(** X12.  What is shown for the records the locator returns.  There is a table
    unless no record was found; it has one row for each record, in the order
    of the list, that is in ascending order of the chapter numbers, which are
    in 1..25; the page of a row is a page number of the document counted from
    1; the context of a row has at most 40 characters; the total is the number
    of rows, and the pages for splitting are the pages of the rows, in the
    order of the rows. *)
Theorem X12_display_of_located {F} (pdf : list (page F)) (results : list (hit F)) :
  find_chapters_with_details pdf = ret results ->
  match display_chapter_analysis results with
  | None => results = []
  | Some a =>
      results ≠ []
      /\ total_chapters_found a = Z.of_nat (length (rows a))
      /\ length (rows a) = length results
      /\ pages_for_splitting a = row_page <$> rows a
      /\ StronglySorted Z.le (row_chapter <$> rows a)
      /\ Forall (fun r => 1 <= row_chapter r <= 25
                          /\ 1 <= row_page r <= Z.of_nat (length pdf)
                          /\ (length (row_context r) <= 40)%nat)
                (rows a)
  end.
Proof.
  intros H. destruct results as [|h0 results]; [done|].
  cbn [display_chapter_analysis rows total_chapters_found pages_for_splitting].
  split; [done|]. remember (h0 :: results) as rs eqn:Ers. clear Ers.
  rewrite length_map. do 2 (split; [done|]). split; [|split].
  - rewrite <-list_fmap_compose. done.
  - rewrite <-list_fmap_compose.
    assert (StronglySorted (fun a b => hit_chapter_num a <= hit_chapter_num b) rs) as Hs.
    { unfold find_chapters_with_details in H.
      destruct (scan_pages 0 [] pdf) as [e|raw]; cbn [bind] in H; [done|].
      injection H as <-. apply Sorted_StronglySorted; [|apply sort_by_Sorted].
      intros a b c. cbn. lia. }
    clear -Hs. induction Hs as [|a l Hl IH Ha]; cbn; constructor; [done|].
    by apply Forall_fmap.
  - apply Forall_fmap, Forall_forall. intros h Hh. cbn.
    apply (find_chapters_with_details_located pdf rs H) in Hh.
    destruct Hh as (i & page & text & Hi & _ & (m & ds & _ & _ & _ & Hr & ->)).
    cbn [hit_of hit_chapter_num hit_page_num hit_context].
    apply lookup_lt_Some in Hi. split; [done|]. split; [lia|].
    apply length_shown_context.
Qed.

Lemma X12_display_of_located_witness :
  let pdf : list (page unit) :=
    [{| extract_text := Some (txt "Chapter 2: Trees"); extract_words := [] |};
     {| extract_text := Some (txt "Chapter 1: Lists"); extract_words := [] |}] in
  let h (n p : Z) (c m : text) : hit unit :=
    {| hit_chapter_num := n; hit_page_num := p; hit_font_size := None;
       hit_context := c; hit_chapter_text := m |} in
  let results := [h 1 1 (txt "Chapter 1: Lists") (txt "Chapter 1: ");
                  h 2 0 (txt "Chapter 2: Trees") (txt "Chapter 2: ")] in
  find_chapters_with_details pdf = ret results
  /\ match display_chapter_analysis results with
     | None => False
     | Some a => pages_for_splitting a = [2; 1] /\ pages_for_splitting a = row_page <$> rows a
     end.
Proof.
  intros pg h results.
  assert (find_chapters_with_details pg = ret results) as H by (vm_compute; reflexivity).
  split; [exact H|].
  pose proof (X12_display_of_located pg results H) as D.
  destruct (display_chapter_analysis results) as [a|] eqn:E; [|discriminate D].
  split; [|exact (proj1 (proj2 (proj2 (proj2 D))))].
  injection E as <-. reflexivity.
Defined.

(** ** The numbers of figures, tables and equations *)

Lemma lang_decimal u :
  lang (cat [Plus digit; Opt (chr "."); Star digit]) u -> is_decimal u.
Proof.
  intros H. inv_lang H.
  - right. exists (a :: u), u0. rewrite app_nil_r.
    split; [split; [done|by constructor]|]. done.
  - left. rewrite app_nil_r. cbn. split; [done|]. constructor; [done|].
    by apply Forall_app.
Qed.

Lemma lang_Plus_any t : lang (Plus any) t -> nl ∉ t.
Proof.
  intros H. inv_lang H. intros Hin.
  assert (Forall (fun a => negb (Ascii.eqb a nl) = true) (a :: u)) as Hall
    by by constructor.
  rewrite Forall_forall in Hall. apply Hall in Hin. by rewrite Ascii.eqb_refl in Hin.
Qed.

(** The groups of a match of a caption pattern. *)
Lemma caption_re_paths w b s c p :
  p ∈ paths (cat [lit w; Plus space; decimal_re; set ".:"; Star space;
                  Grp 2 (Plus any)]) b s c ->
  exists num t, p_caps p = (2%nat, t) :: (1%nat, num) :: c
                /\ is_decimal num /\ nl ∉ t.
Proof.
  intros Hin. rewrite cat_cons in Hin.
  apply elem_of_paths_Seq in Hin as (p0 & p1 & H0 & Hin & ->).
  apply (paths_group_free (lit w)) in H0.
  2: { clear. induction w as [|a w IH]; [done|]. cbn. exact IH. }
  rewrite cat_cons in Hin. apply elem_of_paths_Seq in Hin as (pb & p2 & Hb & Hin & ->).
  apply (paths_group_free (Plus space) eq_refl) in Hb.
  rewrite cat_cons in Hin. apply elem_of_paths_Seq in Hin as (pg & p3 & Hg & Hin & ->).
  unfold decimal_re in Hg.
  apply elem_of_paths_Grp in Hg as (q & Hq & Hcaps).
  pose proof (paths_group_free (cat [Plus digit; Opt (chr "."); Star digit]) eq_refl
                _ _ _ _ Hq) as Hqc.
  apply paths_sound in Hq as [_ Hl]. apply lang_decimal in Hl.
  rewrite cat_cons in Hin. apply elem_of_paths_Seq in Hin as (ps & p4 & Hs & Hin & ->).
  apply (paths_group_free (set ".:") eq_refl) in Hs.
  rewrite cat_cons in Hin. apply elem_of_paths_Seq in Hin as (pw & p5 & Hw & Hin & ->).
  apply (paths_group_free (Star space) eq_refl) in Hw.
  rewrite cat_cons in Hin. apply elem_of_paths_Seq in Hin as (pt & pe & Ht & He & ->).
  apply elem_of_paths_Grp in Ht as (q2 & Hq2 & Hcaps2).
  pose proof (paths_group_free (Plus any) eq_refl _ _ _ _ Hq2) as Hq2c.
  apply paths_sound in Hq2 as [_ Hl2]. apply lang_Plus_any in Hl2.
  apply (paths_group_free (cat []) eq_refl) in He.
  exists (p_text q), (p_text q2). cbn [then_ p_caps].
  rewrite He, Hcaps2, Hq2c, Hw, Hs, Hcaps, Hqc, Hb, H0. done.
Qed.

Lemma equation_re_paths b s c p :
  p ∈ paths equation_re b s c ->
  exists num, p_caps p = (1%nat, num) :: c /\ is_decimal num.
Proof.
  intros Hin. unfold equation_re in Hin. rewrite cat_cons in Hin.
  apply elem_of_paths_Seq in Hin as (p0 & p1 & H0 & Hin & ->).
  apply (paths_group_free (chr "(") eq_refl) in H0.
  rewrite cat_cons in Hin. apply elem_of_paths_Seq in Hin as (pb & p2 & Hb & Hin & ->).
  apply (paths_group_free (Star space) eq_refl) in Hb.
  rewrite cat_cons in Hin. apply elem_of_paths_Seq in Hin as (po & p3 & Ho & Hin & ->).
  apply (paths_group_free (Opt (Alt (lit_i "eq") (lit_i "equation"))) eq_refl) in Ho.
  rewrite cat_cons in Hin. apply elem_of_paths_Seq in Hin as (pw & p4 & Hw & Hin & ->).
  apply (paths_group_free (Star space) eq_refl) in Hw.
  rewrite cat_cons in Hin. apply elem_of_paths_Seq in Hin as (pg & p5 & Hg & Hin & ->).
  unfold decimal_re in Hg.
  apply elem_of_paths_Grp in Hg as (q & Hq & Hcaps).
  pose proof (paths_group_free (cat [Plus digit; Opt (chr "."); Star digit]) eq_refl
                _ _ _ _ Hq) as Hqc.
  apply paths_sound in Hq as [_ Hl]. apply lang_decimal in Hl.
  apply (paths_group_free (cat [Star space; chr ")"]) eq_refl) in Hin.
  exists (p_text q). cbn [then_ p_caps].
  rewrite Hin, Hcaps, Hqc, Hw, Ho, Hb, H0. done.
Qed.

Lemma finditer_paths r w m :
  m ∈ finditer r w ->
  exists b s p, p ∈ paths r b s [] /\ m_caps m = p_caps p /\ m_text m = p_text p.
Proof.
  intros (k & _ & H)%finditer_from_sound.
  apply match_here_Some in H as (p & ps & Hp & ->).
  eexists _, _, p. split; [rewrite Hp; by left|done].
Qed.

(** X13.  Whatever the text of a page, the number of a figure, table or equation
    record is made of digits, with at most one dot, which comes after the
    first digit; a number such as "1.2.3" is never recorded whole.  The
    caption of a figure or table record holds no line feed. *)
Theorem X13_page_records_shape (text : text) (page_num : Z) :
  (forall r, r ∈ captions_of figure_re text page_num
             \/ r ∈ captions_of table_re text page_num ->
     is_decimal (cap_number r) /\ (nl ∉ cap_caption r) /\ cap_page r = page_num)
  /\ (forall e, e ∈ equations_of text page_num ->
        is_decimal (eq_number e) /\ eq_page e = page_num)
  /\ ~ is_decimal (txt "1.2.3").
Proof.
  split; [|split].
  - intros r Hr.
    assert (exists w m, m ∈ finditer (cat [lit w; Plus space; decimal_re; set ".:";
                                           Star space; Grp 2 (Plus any)]) text
                        /\ r = caption_of page_num m) as (w & m & Hm & ->).
    { destruct Hr as [Hr|Hr]; apply list_elem_of_fmap in Hr as (m & -> & Hm);
        eexists _, m; split; try done; exact Hm. }
    apply finditer_paths in Hm as (b & s & p & Hp & Hc & _).
    apply caption_re_paths in Hp as (num & t & Hp & Hnum & Ht).
    unfold caption_of, group. rewrite Hc, Hp. cbn. split; [done|]. split; [|done].
    by intros Hin%elem_of_strip.
  - intros e (m & -> & Hm)%list_elem_of_fmap.
    apply finditer_paths in Hm as (b & s & p & Hp & Hc & _).
    apply equation_re_paths in Hp as (num & Hp & Hnum).
    unfold group. rewrite Hc, Hp. done.
  - intros [[_ H]|(d1 & d2 & [_ H1] & H2 & E)].
    + inversion H as [|? ? _ H']; subst. by inversion H'.
    + destruct d1 as [|a [|b d1]]; [done| |].
      * injection E as <- <-. inversion H2 as [|? ? _ H']; subst. by inversion H'.
      * injection E as <- <- _. inversion H1 as [|? ? _ H']; subst. by inversion H'.
Qed.

(** ** Numbers in parentheses *)

Lemma first_path_Star_Cls q bol u v c :
  Forall (fun a => q a = true) u -> stops q v ->
  first_path (Star (Cls q)) bol (u ++ v) c {| p_text := u; p_rest := v; p_caps := c |}.
Proof.
  intros Hu Hv. unfold first_path. rewrite paths_Star_Cls.
  destruct (star_cls_head q (u ++ v) c) as [ps ->].
  rewrite take_while_app, drop_while_app by done. by eexists.
Qed.

Lemma first_path_Star_Cls_nil q bol v c :
  stops q v ->
  first_path (Star (Cls q)) bol v c {| p_text := []; p_rest := v; p_caps := c |}.
Proof. intros Hv. by apply (first_path_Star_Cls q bol [] v c). Qed.

Lemma first_path_decimal bol ds v c :
  is_digits ds -> stops is_digit v -> stops (Ascii.eqb ".") v ->
  first_path decimal_re bol (ds ++ v) c
    {| p_text := ds; p_rest := v; p_caps := (1%nat, ds) :: c |}.
Proof.
  intros [Hne Hds] Hv Hdot. unfold decimal_re.
  apply (first_path_Grp 1 _ _ _ _ {| p_text := ds; p_rest := v; p_caps := c |}).
  destruct ds as [|d ds]; [done|]. inversion Hds as [|? ? Hd Hds']; subst.
  rewrite cat_cons.
  apply (first_path_Seq_eq _ _ _ _ _ {| p_text := d :: ds; p_rest := v; p_caps := c |}
           {| p_text := []; p_rest := v; p_caps := c |}).
  - unfold Plus, digit.
    apply (first_path_Seq_eq _ _ _ _ _ {| p_text := [d]; p_rest := ds ++ v; p_caps := c |}
             {| p_text := ds; p_rest := v; p_caps := c |}).
    + by apply first_path_Cls.
    + by apply first_path_Star_Cls.
    + done.
  - cbn [p_text p_rest p_caps]. rewrite cat_cons.
    apply (first_path_Seq_eq _ _ _ _ _ {| p_text := []; p_rest := v; p_caps := c |}
             {| p_text := []; p_rest := v; p_caps := c |}).
    + unfold Opt. apply first_path_Alt_r; [|by eexists].
      unfold chr. rewrite paths_Cls. destruct v as [|x v]; [done|].
      change (Ascii.eqb "." x = false) in Hdot. by rewrite Hdot.
    + apply first_path_cat_1. by apply first_path_Star_Cls_nil.
    + done.
  - unfold then_. cbn. by rewrite app_nil_r.
Qed.

(** "(", a number of digits, ")": the match of the equation pattern. *)
Lemma equation_re_number pos ds post :
  is_digits ds ->
  match_here equation_re pos ("("%char :: ds ++ ")"%char :: post) =
  Some {| m_start := pos; m_end := pos + length ("("%char :: ds ++ [")"%char]);
          m_text := "("%char :: ds ++ [")"%char]; m_caps := [(1%nat, ds)] |}.
Proof.
  intros Hds. pose proof Hds as [Hne Hd].
  assert (first_path equation_re (pos =? 0)%nat ("("%char :: ds ++ ")"%char :: post) []
            {| p_text := "("%char :: ds ++ [")"%char]; p_rest := post;
               p_caps := [(1%nat, ds)] |}) as [ps Hps].
  { destruct ds as [|d ds']; [done|]. inversion Hd as [|? ? Hd1 _]; subst.
    set (ds := d :: ds') in *.
    assert (stops is_space (ds ++ ")"%char :: post)) as Hsp.
    { cbn. by destruct (digit_class _ Hd1) as (-> & _). }
    unfold equation_re. rewrite cat_cons.
    apply (first_path_Seq_eq _ _ _ _ _
             {| p_text := ["("%char]; p_rest := ds ++ ")"%char :: post; p_caps := [] |}
             {| p_text := ds ++ [")"%char]; p_rest := post; p_caps := [(1%nat, ds)] |});
      [by apply first_path_Cls| |done].
    cbn [p_text p_rest p_caps]. rewrite cat_cons.
    apply (first_path_Seq_eq _ _ _ _ _
             {| p_text := []; p_rest := ds ++ ")"%char :: post; p_caps := [] |}
             {| p_text := ds ++ [")"%char]; p_rest := post; p_caps := [(1%nat, ds)] |});
      [by apply first_path_Star_Cls_nil| |done].
    cbn [p_text p_rest p_caps]. rewrite cat_cons.
    apply (first_path_Seq_eq _ _ _ _ _
             {| p_text := []; p_rest := ds ++ ")"%char :: post; p_caps := [] |}
             {| p_text := ds ++ [")"%char]; p_rest := post; p_caps := [(1%nat, ds)] |});
      [| |done].
    { unfold Opt. apply first_path_Alt_r; [|by eexists].
      rewrite paths_Alt, !paths_lit_i. unfold ds.
      cbn [txt list_ascii_of_string is_prefix_i app].
      assert (Ascii.eqb (to_lower d) (to_lower "e") = false) as ->; [|done].
      clear -Hd1. destruct d as [[] [] [] [] [] [] [] []]; try discriminate Hd1; done. }
    cbn [p_text p_rest p_caps]. rewrite cat_cons.
    apply (first_path_Seq_eq _ _ _ _ _
             {| p_text := []; p_rest := ds ++ ")"%char :: post; p_caps := [] |}
             {| p_text := ds ++ [")"%char]; p_rest := post; p_caps := [(1%nat, ds)] |});
      [by apply first_path_Star_Cls_nil| |done].
    cbn [p_text p_rest p_caps]. rewrite cat_cons.
    apply (first_path_Seq_eq _ _ _ _ _
             {| p_text := ds; p_rest := ")"%char :: post; p_caps := [(1%nat, ds)] |}
             {| p_text := [")"%char]; p_rest := post; p_caps := [(1%nat, ds)] |});
      [by apply first_path_decimal| |done].
    cbn [p_text p_rest p_caps]. rewrite cat_cons.
    apply (first_path_Seq_eq _ _ _ _ _
             {| p_text := []; p_rest := ")"%char :: post; p_caps := [(1%nat, ds)] |}
             {| p_text := [")"%char]; p_rest := post; p_caps := [(1%nat, ds)] |});
      [by apply first_path_Star_Cls_nil| |done].
    cbn [p_text p_rest p_caps]. apply first_path_cat_1. by apply first_path_Cls. }
  unfold match_here. rewrite Hps. done.
Qed.

(** A match of the equation pattern starts with "(". *)
Lemma equation_re_head pos s m :
  match_here equation_re pos s = Some m -> exists s', s = "("%char :: s'.
Proof.
  intros (rest & -> & H & _)%match_here_sound. unfold equation_re in H.
  inv_lang H; cbn; eauto.
Qed.

Lemma equations_of_m_data page_num ms ms' :
  m_data <$> ms = m_data <$> ms' ->
  map (fun m => {| eq_number := group m 1; eq_page := page_num |}) ms =
  map (fun m => {| eq_number := group m 1; eq_page := page_num |}) ms'.
Proof.
  revert ms'. induction ms as [|m ms IH]; intros [|m' ms'] H; try done.
  rewrite !fmap_cons in H. injection H as _ H1 H2. cbn. f_equal; [|by apply IH].
  unfold group. by rewrite H1.
Qed.

(** Where no match starts, the scan passes. *)
Lemma finditer_from_none r pre rest : forall pos,
  (forall k, (k < length pre)%nat ->
     match_here r (pos + k) (drop k pre ++ rest) = None) ->
  finditer_from r pos 0 (pre ++ rest) = finditer_from r (pos + length pre) 0 rest.
Proof.
  induction pre as [|a pre IH]; intros pos H.
  - cbn. by rewrite Nat.add_0_r.
  - cbn [app finditer_from].
    pose proof (H 0%nat ltac:(cbn; lia)) as H0. rewrite Nat.add_0_r in H0.
    cbn [drop app] in H0. rewrite H0, IH.
    + cbn [length]. by rewrite Nat.add_succ_r.
    + intros k Hk. specialize (H (S k)). cbn [drop length] in H.
      rewrite Nat.add_succ_r in H. apply H. lia.
Qed.

(** X14.  The first parenthesis of a page text, when it holds nothing but
    digits, makes an equation record with these digits as its number, whatever
    the digits stand for (a year, the number of a list item); the scan goes on
    after the closing parenthesis. *)
Theorem X14_parenthesised_number_is_an_equation (pre ds post : text) (page_num : Z) :
  "("%char ∉ pre -> is_digits ds ->
  equations_of (pre ++ "("%char :: ds ++ ")"%char :: post) page_num =
  {| eq_number := ds; eq_page := page_num |} :: equations_of post page_num.
Proof.
  intros Hpre Hds. unfold equations_of, finditer.
  rewrite finditer_from_none.
  2: { intros k Hk.
       destruct (match_here equation_re (0 + k)
                   (drop k pre ++ "("%char :: ds ++ ")"%char :: post)) as [m|] eqn:Hm;
         [|done].
       exfalso. apply equation_re_head in Hm as (s' & E).
       apply Hpre. destruct (drop k pre) as [|x t] eqn:Ed.
       - apply (f_equal length) in Ed. rewrite length_drop in Ed. cbn in Ed. lia.
       - rewrite <-app_comm_cons in E. injection E as -> _.
         apply (subseteq_drop k). rewrite Ed. by left. }
  pose proof (equation_re_number (0 + length pre) ds post Hds) as Hm.
  replace (ds ++ ")"%char :: post) with ((ds ++ [")"%char]) ++ post) in *
    by by rewrite <-app_assoc.
  rewrite (finditer_from_match _ _ _ _ _ _ Hm eq_refl).
  cbn [map]. f_equal.
  apply equations_of_m_data, finditer_from_anchor_free. reflexivity.
Qed.

Lemma X14_parenthesised_number_is_an_equation_witness :
  ("("%char ∉ txt "as shown by Knuth ") /\ is_digits (txt "1997")
  /\ equations_of (txt "as shown by Knuth (1997) and others") 12 =
     [{| eq_number := txt "1997"; eq_page := 12 |}].
Proof.
  assert ("("%char ∉ txt "as shown by Knuth ") as H1.
  { intros H. not_in_literal H. }
  assert (is_digits (txt "1997")) as H2 by (split; [done|repeat constructor]).
  split; [exact H1|]. split; [exact H2|].
  exact (X14_parenthesised_number_is_an_equation (txt "as shown by Knuth ") (txt "1997")
           (txt " and others") 12 H1 H2).
Defined.

(** ** Lines that are no headings *)

(** X15.  A line that starts with a blank, as an indented heading does, and the
    empty line make no record: the four patterns are tried at the start of the
    line as it is, and none of them starts with a blank. *)
Theorem X15_indented_line_is_no_heading (page_num : Z) (self : AcademicBookMapper)
    (line : text) :
  stops (fun a => negb (is_space a)) line ->
  analyze_line page_num self line = self.
Proof.
  intros H. unfold analyze_line.
  assert (forall a s, line = a :: s -> is_space a = true) as Hsp.
  { intros a s ->. cbn in H. by apply negb_false_iff in H. }
  destruct (re_match chapter_re line) eqn:E1.
  { apply chapter_re_head in E1 as (? & E). by apply Hsp in E. }
  destruct (re_match section_re line) eqn:E2.
  { apply section_re_head in E2 as (? & ? & E & Hd). apply Hsp in E.
    destruct (digit_class _ Hd) as (? & _). congruence. }
  destruct (re_match references_re line) eqn:E3.
  { apply references_re_head in E3 as (a & ? & E & Hd). apply Hsp in E.
    exfalso. clear -E Hd.
    destruct a as [[] [] [] [] [] [] [] []]; try discriminate E;
      destruct Hd as [Hd|Hd]; discriminate Hd. }
  destruct (re_match appendix_re line) eqn:E4; [|done].
  apply appendix_re_head in E4 as (? & E). by apply Hsp in E.
Qed.

Lemma X15_indented_line_is_no_heading_witness :
  stops (fun a => negb (is_space a)) (txt "  Chapter 1: Lists")
  /\ analyze_line 3 (__init__ (txt "book.pdf")) (txt "  Chapter 1: Lists") =
     __init__ (txt "book.pdf").
Proof.
  assert (stops (fun a => negb (is_space a)) (txt "  Chapter 1: Lists")) as H
    by reflexivity.
  split; [exact H|]. exact (X15_indented_line_is_no_heading 3 _ _ H).
Defined.

(** ** A second run on the same instance *)

Lemma analyze_line_chapters_length page_num self line :
  length (chapters (structure (analyze_line page_num self line))) =
  (length (chapters (structure self))
   + length (option_list (chapter_of page_num line)))%nat.
Proof.
  unfold analyze_line, chapter_of.
  destruct (re_match chapter_re line).
  { cbn. unfold append. rewrite length_app. done. }
  destruct (re_match section_re line).
  { destruct (current_chapter self); cbn; rewrite ?length_alter; lia. }
  destruct (re_match references_re line); [cbn; lia|].
  destruct (re_match appendix_re line); cbn; lia.
Qed.

Lemma scan_lines_chapters_length lines : forall self,
  length (chapters (structure (scan_lines self lines))) =
  (length (chapters (structure self))
   + length (omap (fun e => chapter_of e.1 e.2) lines))%nat.
Proof.
  induction lines as [|[n l] lines IH]; intros self; [cbn; lia|].
  cbn [scan_lines fold_left fst snd]. fold (scan_lines (analyze_line n self l) lines).
  rewrite IH, analyze_line_chapters_length. cbn [omap list_omap fst snd].
  destruct (chapter_of n l); cbn; lia.
Qed.

(** X16.  [analyze] does not start from empty lists: a second call on the same
    instance, for the same document, appends every record once more.  With
    [self1] the instance as the first call leaves it, the lists of the second
    map hold the records of [self1] twice, and its chapter total is twice the
    number of chapters of [self1]. *)
Theorem X16_analyze_again_doubles {F} (path : text) (pdf : list (page F)) :
  exists self1 bm1 self2 bm2,
    analyze (__init__ path) pdf = ret (self1, bm1)
    /\ analyze self1 pdf = ret (self2, bm2)
    /\ bs_figures (bm_structure bm2) =
       figures (structure self1) ++ figures (structure self1)
    /\ bs_tables (bm_structure bm2) =
       tables (structure self1) ++ tables (structure self1)
    /\ bs_equations (bm_structure bm2) =
       equations (structure self1) ++ equations (structure self1)
    /\ bs_references (bm_structure bm2) =
       references (structure self1) ++ references (structure self1)
    /\ bs_appendices (bm_structure bm2) =
       appendices (structure self1) ++ appendices (structure self1)
    /\ sections (structure self2) = sections (structure self1) ++ sections (structure self1)
    /\ total_chapters (bm_summary bm2) =
       2 * Z.of_nat (length (chapters (structure self1))).
Proof.
  unfold analyze.
  destruct (analyze_pages_lists pdf (__init__ path) 1)
    as (self1 & E1 & F1 & T1 & Q1 & R1 & A1).
  destruct (analyze_pages_headings pdf (__init__ path) 1) as (self1' & E1' & H1).
  rewrite E1 in E1'. injection E1' as <-.
  destruct (analyze_pages_lists pdf self1 1) as (self2 & E2 & F2 & T2 & Q2 & R2 & A2).
  destruct (analyze_pages_headings pdf self1 1) as (self2' & E2' & H2).
  rewrite E2 in E2'. injection E2' as <-.
  exists self1, (_generate_book_map self1), self2, (_generate_book_map self2).
  rewrite E1, E2. cbn [bind]. do 2 (split; [done|]).
  cbn [_generate_book_map bm_structure bm_summary bs_figures bs_tables bs_equations
       bs_references bs_appendices total_chapters].
  cbn [__init__ structure figures tables equations references appendices app]
    in F1, T1, Q1, R1, A1.
  rewrite F2, T2, Q2, R2, A2, F1, T1, Q1, R1, A1. do 5 (split; [done|]).
  unfold headings in H1, H2. injection H1 as C1 S1 _. injection H2 as C2 S2 _.
  rewrite scan_lines_sections in S1, S2. cbn [__init__ structure sections app] in S1.
  split; [by rewrite S2, S1|].
  apply (f_equal length) in C1, C2. rewrite scan_lines_chapters_length in C1, C2.
  cbn [__init__ structure chapters length] in C1. lia.
Qed.

Lemma X13_page_records_shape_witness :
  let r := {| cap_number := txt "3.1"; cap_caption := txt "Plan"; cap_page := 5 |} in
  r ∈ captions_of figure_re (txt "see Figure 3.1: Plan") 5
  /\ is_decimal (cap_number r).
Proof.
  intros r.
  assert (r ∈ captions_of figure_re (txt "see Figure 3.1: Plan") 5) as H
    by (vm_compute; left).
  split; [exact H|].
  exact (proj1 (proj1 (X13_page_records_shape (txt "see Figure 3.1: Plan") 5) r
                  (or_introl H))).
Defined.
